(** * lxd-to-incus: the migration orchestrator (cmd/lxd-to-incus/main.go)

    A shallow embedding of [cmdMigrate.Run] and of the helpers it uses,
    followed by the properties of the migration that follow from the code.

    Conventions of the embedding:
    - a Go [string] is a [string] (a sequence of bytes);
    - a Go [map[string]string] is a [gmap string string];
    - a Go [error] is an [error] value, [nil] is the absence of one;
    - every call that leaves the program (the operating system, the source
      and target daemons, their API clients, the operator at the prompt,
      helper processes) is a [request]; the program is a function of a
      handler that answers requests, so that the same code runs against a
      scripted world that records the calls and against a file-system model;
    - the two unbounded [for] loops take a fuel argument; running out of
      fuel is the outcome [Running] (the loop has not returned yet);
    - a method call on a nil interface is the outcome [Panicked],
      [os.Exit] the outcome [Exited];
    - console output ([fmt.Println], [fmt.Printf]) is not modelled.

    The file has three parts: the embedding of the program with the two
    worlds it is run in, the vocabulary of the properties, the properties. *)

From Stdlib Require Import ZArith Ascii String Lia.
From stdpp Require Import base option list gmap strings sorting.

Local Open Scope Z_scope.
Local Open Scope stdpp_scope.

(** ** The package [strings] of Go, as far as the program uses it *)

Module GoStrings.

(** [s[:n]] *)
Fixpoint sliceTo (n : nat) (s : string) : string :=
  match n, s with
  | S n', String c s' => String c (sliceTo n' s')
  | _, _ => EmptyString
  end.

(** [s[n:]] *)
Fixpoint sliceFrom (n : nat) (s : string) : string :=
  match n, s with
  | S n', String _ s' => sliceFrom n' s'
  | _, _ => s
  end.

(** [strings.HasPrefix(s, prefix)] *)
Fixpoint HasPrefix (s prefix : string) {struct prefix} : bool :=
  match prefix, s with
  | EmptyString, _ => true
  | String c p', String d s' => if Ascii.eqb c d then HasPrefix s' p' else false
  | String _ _, EmptyString => false
  end.

(** [strings.Index(s, substr)]: the position of the first instance of
    [substr] in [s]; Go's [-1] is [None]. *)
Fixpoint Index (s substr : string) : option nat :=
  if HasPrefix s substr then Some 0%nat
  else match s with
       | EmptyString => None
       | String _ s' => S <$> Index s' substr
       end.

(** The loop of [strings.Replace]: [rest] is [s[start:]], [first] tells
    the first iteration from the later ones. An empty [old] matches at the
    start of the string and after each rune; a rune is taken to be one
    byte. *)
Fixpoint replaceFrom (fuel : nat) (first : bool) (rest old new : string) (n : Z) : string :=
  match fuel with
  | O => rest
  | S fuel' =>
      if n =? 0 then rest
      else
        let j := match old with
                 | EmptyString =>
                     if first then Some 0%nat
                     else match rest with EmptyString => None | String _ _ => Some 1%nat end
                 | String _ _ => Index rest old
                 end in
        match j with
        | None => rest
        | Some j =>
            sliceTo j rest +:+ new +:+
              replaceFrom fuel' false (sliceFrom (j + String.length old) rest) old new (n - 1)
        end
  end.

(** [strings.Replace(s, old, new, n)]: the first [n] non-overlapping
    instances of [old] replaced by [new]; no limit when [n < 0]. *)
Definition Replace (s old new : string) (n : Z) : string :=
  if String.eqb old new then s
  else replaceFrom (String.length s + 2) true s old new n.

(** The white space of [unicode.IsSpace] as UTF-8 has it: the six bytes of
    ASCII, *)
Definition isSpace (c : ascii) : bool :=
  match nat_of_ascii c with
  | 9%nat | 10%nat | 11%nat | 12%nat | 13%nat | 32%nat => true
  | _ => false
  end.

(** the two bytes of U+0085 and of U+00A0, *)
Definition isSpace2 (c1 c2 : ascii) : bool :=
  Nat.eqb (nat_of_ascii c1) 194
  && (Nat.eqb (nat_of_ascii c2) 133 || Nat.eqb (nat_of_ascii c2) 160).

(** and the three bytes of U+1680, of U+2000 to U+200A, of U+2028, U+2029,
    U+202F, U+205F and of U+3000. *)
Definition isSpace3 (c1 c2 c3 : ascii) : bool :=
  let b1 := nat_of_ascii c1 in
  let b2 := nat_of_ascii c2 in
  let b3 := nat_of_ascii c3 in
  Nat.eqb b1 225 && Nat.eqb b2 154 && Nat.eqb b3 128
  || Nat.eqb b1 226 && Nat.eqb b2 128
     && (Nat.leb 128 b3 && Nat.leb b3 138
         || Nat.eqb b3 168 || Nat.eqb b3 169 || Nat.eqb b3 175)
  || Nat.eqb b1 226 && Nat.eqb b2 129 && Nat.eqb b3 159
  || Nat.eqb b1 227 && Nat.eqb b2 128 && Nat.eqb b3 128.

(** [strings.TrimLeftFunc(s, unicode.IsSpace)]: the runes of white space at
    the start of [s] are dropped; bytes that are no valid rune decode to
    U+FFFD, which is no white space. *)
Fixpoint trimLeft (s : string) : string :=
  match s with
  | EmptyString => EmptyString
  | String c1 s1 =>
      if isSpace c1 then trimLeft s1
      else match s1 with
           | EmptyString => s
           | String c2 s2 =>
               if isSpace2 c1 c2 then trimLeft s2
               else match s2 with
                    | EmptyString => s
                    | String c3 s3 => if isSpace3 c1 c2 c3 then trimLeft s3 else s
                    end
           end
  end.

Fixpoint reverseOnto (s acc : string) : string :=
  match s with
  | EmptyString => acc
  | String c s' => reverseOnto s' (String c acc)
  end.

(** The same on the reversed string, whose runes are read from their last
    byte as [utf8.DecodeLastRuneInString] reads them. *)
Fixpoint trimLeftReversed (s : string) : string :=
  match s with
  | EmptyString => EmptyString
  | String c1 s1 =>
      if isSpace c1 then trimLeftReversed s1
      else match s1 with
           | EmptyString => s
           | String c2 s2 =>
               if isSpace2 c2 c1 then trimLeftReversed s2
               else match s2 with
                    | EmptyString => s
                    | String c3 s3 =>
                        if isSpace3 c3 c2 c1 then trimLeftReversed s3 else s
                    end
           end
  end.

(** [strings.TrimRightFunc(s, unicode.IsSpace)] *)
Definition trimRight (s : string) : string :=
  reverseOnto (trimLeftReversed (reverseOnto s EmptyString)) EmptyString.

(** [strings.TrimSpace(s)]: its fast path for ASCII and its fall back on
    [TrimFunc] give the same string. *)
Definition TrimSpace (s : string) : string := trimRight (trimLeft s).

(** [strings.Join(elems, sep)] *)
Fixpoint Join (elems : list string) (sep : string) : string :=
  match elems with
  | [] => EmptyString
  | [e] => e
  | e :: rest => e +:+ sep +:+ Join rest sep
  end.

End GoStrings.

Import GoStrings.

(** ** Data *)

(** Modelled from the spec: [DaemonPaths] is declared outside this
    directory; the spec gives it as the three roots of one daemon,
    [{Daemon, Logs, Cache string}]. *)
Record DaemonPaths := mkPaths {
  Daemon : string;
  Logs : string;
  Cache : string
}.

(** [api.StoragePool], the fields the program reads. *)
Record StoragePool := mkPool {
  Name : string;
  Driver : string;
  Config : gmap string string
}.

(** ** Mangling the storage pool sources (main.go, lines 168-169 and 201-237) *)

(** The three slices the loop appends to. *)
Record rewrites := mkRewrites {
  rewriteStatements : list string;
  rewriteCommands : list (list string);
  rbdRenamed : list string
}.

Definition noRewrites : rewrites := mkRewrites [] [] [].

(** Modelled from the spec: [util.ValueInSlice] (shared/util, outside this
    directory) tells whether the key is an element of the slice; the
    deduplication of the rename commands is written with it. *)
Definition ValueInSlice (key : string) (list : list string) : bool :=
  bool_decide (key ∈ list).

(** [pool.Config[key]] with the comma-ok form and its default. *)
Definition configOr (pool : StoragePool) (key dflt : string) : string :=
  match Config pool !! key with
  | Some v => v
  | None => dflt
  end.

(** The name of the RBD pool behind a ceph storage pool (lines 214-217). *)
Definition rbdPoolOf (pool : StoragePool) : string :=
  configOr pool "ceph.osd.pool_name" (Name pool).

(** [renameCmd] (line 219). *)
Definition renameCmd (pool : StoragePool) : list string :=
  let cluster := configOr pool "ceph.cluster_name" "ceph" in
  let client := configOr pool "ceph.user.name" "admin" in
  let rbdPool := rbdPoolOf pool in
  ["rbd"; "rename"; "--cluster"; cluster; "--name"; client;
   rbdPool +:+ "/lxd_" +:+ rbdPool; rbdPool +:+ "/incus_" +:+ rbdPool].

(** Lines 203-224: the rename of the RBD placeholder volume. *)
Definition mangleCeph (pool : StoragePool) (st : rewrites) : rewrites :=
  if String.eqb (Driver pool) "ceph" then
    if negb (ValueInSlice (Name pool) (rbdRenamed st)) then
      mkRewrites (rewriteStatements st)
                 (rewriteCommands st ++ [renameCmd pool])
                 (rbdRenamed st ++ [Name pool])
    else st
  else st.

(** [source[0] != byte('/')] on a non-empty string. *)
Definition firstByteIsSlash (s : string) : bool :=
  match s with
  | String c _ => Ascii.eqb c "/"%char
  | EmptyString => false
  end.

Definition updateStatement (newSource source : string) : string :=
  "UPDATE storage_pools_config SET value='" +:+ newSource +:+
  "' WHERE value='" +:+ source +:+ "';".

(** Lines 226-236: the rewrite of a source path under the source root. *)
Definition mangleSource (sourcePaths targetPaths : DaemonPaths)
    (pool : StoragePool) (st : rewrites) : rewrites :=
  let source := default EmptyString (Config pool !! "source") in
  if String.eqb source "" || negb (firstByteIsSlash source) then st
  else if negb (HasPrefix source (Daemon sourcePaths)) then st
  else
    let newSource := Replace source (Daemon sourcePaths) (Daemon targetPaths) 1 in
    mkRewrites (rewriteStatements st ++ [updateStatement newSource source])
               (rewriteCommands st)
               (rbdRenamed st).

(** One iteration of the loop over [storagePools]. *)
Definition manglePool (sourcePaths targetPaths : DaemonPaths)
    (st : rewrites) (pool : StoragePool) : rewrites :=
  mangleSource sourcePaths targetPaths pool (mangleCeph pool st).

(** The loop of lines 202-237. *)
Definition manglePools (sourcePaths targetPaths : DaemonPaths)
    (storagePools : list StoragePool) (st : rewrites) : rewrites :=
  fold_left (manglePool sourcePaths targetPaths) storagePools st.

(** ** The package [path/filepath] of Go, as far as the program uses it *)

Module GoFilepath.

(** [strings.Split(s, "/")] *)
Fixpoint splitSlash (s : string) : list string :=
  match s with
  | EmptyString => [EmptyString]
  | String c s' =>
      if Ascii.eqb c "/"%char then EmptyString :: splitSlash s'
      else match splitSlash s' with
           | x :: xs => String c x :: xs
           | [] => [String c EmptyString]
           end
  end.

(** One path element met by [Clean]; [stack] holds the elements kept so
    far, the last one first. Empty elements and "." are dropped, ".."
    removes the element before it, is dropped at the root, and is kept at
    the start of a relative path. *)
Definition cleanStep (rooted : bool) (stack : list string) (elem : string) : list string :=
  if String.eqb elem "" || String.eqb elem "." then stack
  else if String.eqb elem ".." then
    match stack with
    | top :: below => if String.eqb top ".." then elem :: stack else below
    | [] => if rooted then [] else [elem]
    end
  else elem :: stack.

(** [filepath.Clean(path)] on a system whose separator is the slash. *)
Definition Clean (path : string) : string :=
  if String.eqb path "" then "."
  else
    let rooted := firstByteIsSlash path in
    let kept := rev (fold_left (cleanStep rooted) (splitSlash path) []) in
    match kept with
    | [] => if rooted then "/" else "."
    | _ => (if rooted then "/" else "") +:+ GoStrings.Join kept "/"
    end.

(** The loop of [filepath.Join]: the elements from the first non-empty
    one on are joined and cleaned. *)
Fixpoint Join (elem : list string) : string :=
  match elem with
  | [] => EmptyString
  | e :: rest =>
      if String.eqb e "" then Join rest
      else Clean (GoStrings.Join elem "/")
  end.

End GoFilepath.

(** ** Values exchanged with the collaborators *)

(** A Go [error]. [ExtError] is an error made outside this program;
    [notExist] is what [os.IsNotExist] answers on it. [Errorf] is
    [fmt.Errorf] with its format and its arguments, [ErrorfWrap] the same
    with the error that the verb [%w] (or [%v]) takes last. *)
Inductive error :=
| ExtError (notExist : bool) (msg : string)
| Errorf (format : string) (args : list string)
| ErrorfWrap (format : string) (args : list string) (wrapped : error).

Definition IsNotExist (e : error) : bool :=
  match e with
  | ExtError b _ => b
  | _ => false
  end.

(** A Go result pair [(value, err)]. *)
Inductive result (A : Type) :=
| Ok (a : A)
| Err (e : error).
Arguments Ok {A} a.
Arguments Err {A} e.

(** A value of type [any] in a server configuration. *)
Inductive anyValue :=
| AnyString (s : string)
| AnyOther.

(** The source's [api.Server]: [Environment.ServerClustered] and [Config]. *)
Record SrcServer := mkSrcServer {
  ServerClustered : bool;
  ServerConfig : gmap string anyValue
}.

(** The target's [api.Server]: [Environment.Server]. *)
Record TgtServer := mkTgtServer {
  Server : string
}.

(** [api.ClusterMember] *)
Record ClusterMember := mkMember {
  ServerName : string;
  Status : string;
  Message : string
}.

(** [api.ClusterMemberStatePost] *)
Record ClusterMemberStatePost := mkStatePost {
  Action : string;
  Mode : string
}.

(** [os.DirEntry]: [Name()] and [Type()]. *)
Record DirEntry := mkEntry {
  entryName : string;
  entryType : Z
}.

(** [os.ModeSymlink] *)
Definition ModeSymlink : Z := Z.shiftl 1 27.

(** Constants of [golang.org/x/sys/unix] and of [time]. *)
Definition MNT_DETACH : Z := 2.
Definition MS_BIND : Z := 4096.
Definition MS_REC : Z := 16384.
Definition Second : Z := 1000000000.

(** A connected client; the zero value of the interface is [None]. *)
Inductive SrcClient := srcConnected.
Inductive TgtClient := tgtConnected.

(** An asynchronous operation of a daemon. *)
Definition Operation := nat.

(** A source candidate is known by its [Name()]; the target candidates are
    the two of targets.go. *)
Definition Source := string.
Inductive Target := targetSystemd | targetOpenRC.

Definition targets : list Target := [targetSystemd; targetOpenRC].

(** The flags of [cmdMigrate]. *)
Record cmdMigrate := mkCmd {
  flagYes : bool;
  flagClusterMember : bool
}.

(** ** Requests: the calls that leave the program *)

(** Calls on the file system ([os]). *)
Inductive fsRequest :=
| RemoveAll (path : string)
| Remove (path : string)
| ReadDir (path : string)
| Readlink (path : string)
| Symlink (oldname newname : string)
| MkdirAll (path : string) (perm : Z)
| WriteFile (path : string) (data : string) (perm : Z).

Definition fsResponse (q : fsRequest) : Type :=
  match q with
  | RemoveAll _ | Remove _ | Symlink _ _ | MkdirAll _ _ | WriteFile _ _ _ => option error
  | ReadDir _ => result (list DirEntry)
  | Readlink _ => result string
  end.

Inductive request :=
| Geteuid
| Getenv (key : string)
| SourcePresent (source : Source)
| TargetPresent (target : Target)
| SourceConnect (source : Source)
| TargetConnect (target : Target)
| Validate (source : Source) (target : Target)
| SourcePaths (source : Source)
| TargetPaths (target : Target)
| SourceStop (source : Source)
| TargetStop (target : Target)
| TargetStart (target : Target)
| SourcePurge (source : Source)
| SrcGetServer
| SrcGetStoragePools
| SrcGetClusterMembers
| SrcGetStoragePoolNames (member : string)
| SrcGetStoragePool (member pool : string)
| SrcUpdateClusterMemberState (member : string) (state : ClusterMemberStatePost)
| TgtGetServer
| TgtGetClusterMembers
| TgtGetServerOf (member : string)
| TgtUpdateClusterMemberState (member : string) (state : ClusterMemberStatePost)
| OpWait (op : Operation)
| AskBool (question defaultAnswer : string)
| RunCommand (name : string) (args : list string)
| OvnConvert (nbDB sbDB : string)
| OvsConvert
| IsMountPoint (path : string)
| Mount (source target fstype : string) (flags : Z) (data : string)
| Unmount (target : string) (flags : Z)
| MigrateDatabase (dir : string)
| Sleep (d : Z)
| FS (q : fsRequest).

Definition response (r : request) : Type :=
  match r with
  | Geteuid => Z
  | Getenv _ => string
  | SourcePresent _ | TargetPresent _ | IsMountPoint _ => bool
  | SourceConnect _ => result SrcClient
  | TargetConnect _ => result TgtClient
  | SourcePaths _ | TargetPaths _ => result DaemonPaths
  | Validate _ _ | SourceStop _ | TargetStop _ | TargetStart _ | SourcePurge _
  | OpWait _ | Mount _ _ _ _ _ | Unmount _ _ | MigrateDatabase _ => option error
  | SrcGetServer => result SrcServer
  | SrcGetStoragePools => result (list StoragePool)
  | SrcGetClusterMembers | TgtGetClusterMembers => result (list ClusterMember)
  | SrcGetStoragePoolNames _ => result (list string)
  | SrcGetStoragePool _ _ => result StoragePool
  | SrcUpdateClusterMemberState _ _ | TgtUpdateClusterMemberState _ _ => result Operation
  | TgtGetServer | TgtGetServerOf _ => result TgtServer
  | AskBool _ _ => result bool
  | RunCommand _ _ => result string
  | OvnConvert _ _ | OvsConvert => result (list (list string))
  | Sleep _ => unit
  | FS q => fsResponse q
  end.

(** ** The monad of the program *)

(** How a piece of the program ends. *)
Inductive outcome (A : Type) :=
| Done (a : A)
| Failed (e : error)
| Exited (code : Z)
| Panicked
| Running.
Arguments Done {A} a.
Arguments Failed {A} e.
Arguments Exited {A} code.
Arguments Panicked {A}.
Arguments Running {A}.

Definition M (σ A : Type) : Type := σ → outcome A * σ.

Definition handler (σ : Type) : Type := ∀ r : request, σ → response r * σ.
Definition fsHandler (σ : Type) : Type := ∀ q : fsRequest, σ → fsResponse q * σ.

Section Monad.
Context {σ : Type}.

Definition ret {A} (a : A) : M σ A := λ s, (Done a, s).

Definition bind {A B} (m : M σ A) (k : A → M σ B) : M σ B :=
  λ s, match m s with
       | (Done a, s') => k a s'
       | (Failed e, s') => (Failed e, s')
       | (Exited c, s') => (Exited c, s')
       | (Panicked, s') => (Panicked, s')
       | (Running, s') => (Running, s')
       end.

(** [return err] *)
Definition fail {A} (e : error) : M σ A := λ s, (Failed e, s).

(** [os.Exit(code)] *)
Definition exit {A} (code : Z) : M σ A := λ s, (Exited code, s).

(** A run-time panic. *)
Definition panic {A} : M σ A := λ s, (Panicked, s).

(** A loop that has not returned within its fuel. *)
Definition running {A} : M σ A := λ s, (Running, s).

Definition call (h : handler σ) (r : request) : M σ (response r) :=
  λ s, let '(a, s') := h r s in (Done a, s').

Definition fsCall (h : fsHandler σ) (q : fsRequest) : M σ (fsResponse q) :=
  λ s, let '(a, s') := h q s in (Done a, s').

(** [for _, x := range l { body }] where the body may return. *)
Fixpoint forEach {A} (l : list A) (body : A → M σ unit) : M σ unit :=
  match l with
  | [] => ret tt
  | x :: rest => bind (body x) (λ _, forEach rest body)
  end.
End Monad.

Notation "'let*' x ':=' m 'in' k" := (bind m (λ x, k))
  (at level 10, x pattern, m at level 100, k at level 200, only parsing).

(** ** [cmdMigrate.Run], phase by phase *)

Definition newline : string := String (ascii_of_nat 10) EmptyString.
Definition doubleQuote : string := String (ascii_of_nat 34) EmptyString.

Section Run.
Context {σ : Type}.

(** The handler that answers the requests, and the candidate list
    [sources] (declared in a file outside this directory). *)
Variable h : handler σ.
Variable sources : list Source.

Local Abbreviation M := (M σ).

(** A method call on the source client: a panic on the nil interface. *)
Definition srcCall (srcClient : option SrcClient) (r : request) : M (response r) :=
  match srcClient with
  | None => panic
  | Some _ => call h r
  end.

(** Lines 86-89. *)
Definition checkRoot : M unit :=
  let* euid := call h Geteuid in
  if negb (euid =? 0) then fail (Errorf "This tool must be run as root" [])
  else ret tt.

(** Lines 93-101: the first candidate that is present. *)
Fixpoint firstSource (candidates : list Source) : M (option Source) :=
  match candidates with
  | [] => ret None
  | candidate :: rest =>
      let* present := call h (SourcePresent candidate) in
      if negb present then firstSource rest else ret (Some candidate)
  end.

(** Lines 91-107. *)
Definition findSource : M Source :=
  let* source := firstSource sources in
  match source with
  | None => fail (Errorf "No source server could be found" [])
  | Some source => ret source
  end.

(** Lines 111-119. *)
Fixpoint firstTarget (candidates : list Target) : M (option Target) :=
  match candidates with
  | [] => ret None
  | candidate :: rest =>
      let* present := call h (TargetPresent candidate) in
      if negb present then firstTarget rest else ret (Some candidate)
  end.

(** Lines 109-123. *)
Definition findTarget : M Target :=
  let* target := firstTarget targets in
  match target with
  | None => fail (Errorf "No target server could be found" [])
  | Some target => ret target
  end.

(** Lines 125-140: the source client and [clustered]. *)
Definition connectSource (c : cmdMigrate) (source : Source) : M (option SrcClient * bool) :=
  let clustered := flagClusterMember c in
  if negb (flagClusterMember c) then
    let* r := call h (SourceConnect source) in
    match r with
    | Err err => fail (ErrorfWrap "Failed to connect to the source: %w" [] err)
    | Ok client =>
        let srcClient := Some client in
        let* r := srcCall srcClient SrcGetServer in
        match r with
        | Err err => fail (ErrorfWrap "Failed to get source server info: %w" [] err)
        | Ok srcServerInfo => ret (srcClient, ServerClustered srcServerInfo)
        end
    end
  else ret (None, clustered).

(** Lines 142-146. *)
Definition connectTarget (target : Target) : M TgtClient :=
  let* r := call h (TargetConnect target) in
  match r with
  | Err err => fail (ErrorfWrap "Failed to connect to the target: %w" [] err)
  | Ok client => ret client
  end.

(** Lines 148-154. *)
Definition validatePhase (c : cmdMigrate) (source : Source) (target : Target) : M unit :=
  if negb (flagClusterMember c) then
    let* err := call h (Validate source target) in
    match err with
    | Some err => fail err
    | None => ret tt
    end
  else ret tt.

(** Lines 156-165. *)
Definition getPaths (source : Source) (target : Target) : M (DaemonPaths * DaemonPaths) :=
  let* r := call h (SourcePaths source) in
  match r with
  | Err err => fail (ErrorfWrap "Failed to get source paths: %w" [] err)
  | Ok sourcePaths =>
      let* r := call h (TargetPaths target) in
      match r with
      | Err err => fail (ErrorfWrap "Failed to get target paths: %w" [] err)
      | Ok targetPaths => ret (sourcePaths, targetPaths)
      end
  end.

(** Lines 190-197: the pools of one cluster member, appended to
    [storagePools]. *)
Fixpoint memberPools (srcClient : option SrcClient) (member : string)
    (poolNames : list string) (storagePools : list StoragePool) : M (list StoragePool) :=
  match poolNames with
  | [] => ret storagePools
  | poolName :: rest =>
      let* r := srcCall srcClient (SrcGetStoragePool member poolName) in
      match r with
      | Err err => fail (ErrorfWrap "Couldn't get storage pool: %w" [] err)
      | Ok pool => memberPools srcClient member rest (storagePools ++ [pool])
      end
  end.

(** Lines 184-198. *)
Fixpoint clusterPools (srcClient : option SrcClient) (clusterMembers : list ClusterMember)
    (storagePools : list StoragePool) : M (list StoragePool) :=
  match clusterMembers with
  | [] => ret storagePools
  | member :: rest =>
      let* r := srcCall srcClient (SrcGetStoragePoolNames (ServerName member)) in
      match r with
      | Err err => fail (ErrorfWrap "Couldn't list storage pools: %w" [] err)
      | Ok poolNames =>
          let* storagePools := memberPools srcClient (ServerName member) poolNames storagePools in
          clusterPools srcClient rest storagePools
      end
  end.

(** Lines 172-199. *)
Definition listStoragePools (clustered : bool) (srcClient : option SrcClient) : M (list StoragePool) :=
  if negb clustered then
    let* r := srcCall srcClient SrcGetStoragePools in
    match r with
    | Err err => fail (ErrorfWrap "Couldn't list storage pools: %w" [] err)
    | Ok storagePools => ret storagePools
    end
  else
    let* r := srcCall srcClient SrcGetClusterMembers in
    match r with
    | Err _ => fail (Errorf "Failed to retrieve the list of cluster members" [])
    | Ok clusterMembers => clusterPools srcClient clusterMembers []
    end.

(** Lines 167-238: [rewriteStatements] and [rewriteCommands] after the
    storage pools. *)
Definition mangleStoragePools (c : cmdMigrate) (clustered : bool) (srcClient : option SrcClient)
    (sourcePaths targetPaths : DaemonPaths) : M (list string * list (list string)) :=
  if negb (flagClusterMember c) then
    let* storagePools := listStoragePools clustered srcClient in
    let st := manglePools sourcePaths targetPaths storagePools noRewrites in
    ret (rewriteStatements st, rewriteCommands st)
  else ret ([], []).

(** Lines 248-262: the conversion of OVN, on the first server only. *)
Definition mangleOVN (c : cmdMigrate) (ovnNB : string)
    (rewriteCommands : list (list string)) : M (list (list string)) :=
  if negb (flagClusterMember c) then
    let* r := call h (RunCommand "ovs-vsctl" ["get"; "open_vswitch"; "."; "external_ids:ovn-remote"]) in
    match r with
    | Err err => fail (ErrorfWrap "Failed to get OVN southbound database address: %w" [] err)
    | Ok out =>
        let ovnSB := TrimSpace (Replace out doubleQuote "" (-1)) in
        let* r := call h (OvnConvert ovnNB ovnSB) in
        match r with
        | Err err => fail (ErrorfWrap "Failed to prepare OVN conversion: %v" [] err)
        | Ok commands => ret (rewriteCommands ++ commands)
        end
    end
  else ret rewriteCommands.

(** Lines 240-270. *)
Definition mangleOVS (c : cmdMigrate) (srcClient : option SrcClient)
    (rewriteCommands : list (list string)) : M (list (list string)) :=
  let* r := srcCall srcClient SrcGetServer in
  match r with
  | Err err => fail (ErrorfWrap "Failed to get source server info: %w" [] err)
  | Ok srcServerInfo =>
      match ServerConfig srcServerInfo !! "network.ovn.northbound_connection" with
      | Some (AnyString ovnNB) =>
          if negb (String.eqb ovnNB "") then
            let* rewriteCommands := mangleOVN c ovnNB rewriteCommands in
            let* r := call h OvsConvert in
            match r with
            | Err err => fail (ErrorfWrap "Failed to prepare OVS conversion: %v" [] err)
            | Ok commands => ret (rewriteCommands ++ commands)
            end
          else ret rewriteCommands
      | _ => ret rewriteCommands
      end
  end.

(** Lines 281-288 and 307-314. *)
Definition askProceed : M unit :=
  let* r := call h (AskBool "Proceed with the migration? [default=no]: " "no") in
  match r with
  | Err err => fail err
  | Ok ok => if negb ok then exit 1 else ret tt
  end.

(** Lines 272-316. *)
Definition confirmPhase (c : cmdMigrate) (clustered : bool) : M unit :=
  if negb (flagClusterMember c) && negb (flagYes c) then
    if negb clustered then askProceed
    else
      let* _ := call h (Getenv "CLUSTER_NO_STOP") in
      askProceed
  else ret tt.

(** Lines 327-339: one member is asked to stop its workloads. *)
Definition evacuateMember (srcClient : option SrcClient) (member : ClusterMember) : M unit :=
  let* r := srcCall srcClient
              (SrcUpdateClusterMemberState (ServerName member) (mkStatePost "evacuate" "stop")) in
  match r with
  | Err err => fail (ErrorfWrap "Failed to stop workloads %q: %w" [ServerName member] err)
  | Ok op =>
      let* err := call h (OpWait op) in
      match err with
      | Some err => fail (ErrorfWrap "Failed to stop workloads %q: %w" [ServerName member] err)
      | None => ret tt
      end
  end.

(** Lines 318-340. *)
Definition evacuatePhase (c : cmdMigrate) (clustered : bool) (srcClient : option SrcClient) : M unit :=
  if negb (flagClusterMember c) && clustered then
    let* noEvacuate := call h (Getenv "CLUSTER_NO_EVACUTE") in
    if negb (String.eqb noEvacuate "1") then
      let* r := srcCall srcClient SrcGetClusterMembers in
      match r with
      | Err _ => fail (Errorf "Failed to retrieve the list of cluster members" [])
      | Ok clusterMembers => forEach clusterMembers (evacuateMember srcClient)
      end
    else ret tt
  else ret tt.

(** Lines 342-354: both errors are formatted and dropped. *)
Definition stopPhase (source : Source) (target : Target) : M unit :=
  let* _ := call h (SourceStop source) in
  let* _ := call h (TargetStop target) in
  ret tt.

(** Lines 356-359. *)
Definition unmountPhase (targetPaths : DaemonPaths) : M unit :=
  forEach ["guestapi"; "shmounts"] (λ mount,
    let* _ := call h (Unmount (GoFilepath.Join [Daemon targetPaths; mount]) MNT_DETACH) in
    ret tt).

(** [os.RemoveAll(path)] with the check of lines 365, 370 and 375. *)
Definition wipe (path : string) : M unit :=
  let* err := call h (FS (RemoveAll path)) in
  match err with
  | Some err =>
      if negb (IsNotExist err) then fail (ErrorfWrap "Failed to remove %q: %w" [path] err)
      else ret tt
  | None => ret tt
  end.

(** Lines 361-377. *)
Definition wipePhase (targetPaths : DaemonPaths) : M unit :=
  let* _ := wipe (Logs targetPaths) in
  let* _ := wipe (Cache targetPaths) in
  wipe (Daemon targetPaths).

(** [subprocess.RunCommand("mv", from, to)] with its check. *)
Definition move (from to : string) : M unit :=
  let* r := call h (RunCommand "mv" [from; to]) in
  match r with
  | Err err => fail (ErrorfWrap "Failed to move %q to %q: %w" [from; to] err)
  | Ok _ => ret tt
  end.

(** Lines 392-418: the state directory, moved or mounted again. *)
Definition moveDaemon (sourcePaths targetPaths : DaemonPaths) : M unit :=
  let* mounted := call h (IsMountPoint (Daemon sourcePaths)) in
  if mounted then
    let* err := call h (FS (MkdirAll (Daemon targetPaths) 457 (* 0711 *))) in
    match err with
    | Some err => fail (ErrorfWrap "Failed to create target directory: %w" [] err)
    | None =>
        let* err := call h (Mount (Daemon sourcePaths) (Daemon targetPaths) "none"
                                  (Z.lor MS_BIND MS_REC) "") in
        match err with
        | Some err =>
            fail (ErrorfWrap "Failed to bind mount %q to %q: %w"
                             [Daemon sourcePaths; Daemon targetPaths] err)
        | None =>
            let* err := call h (Unmount (Daemon sourcePaths) MNT_DETACH) in
            match err with
            | Some err =>
                fail (ErrorfWrap "Failed to unmount source mount %q: %w" [Daemon sourcePaths] err)
            | None => ret tt
            end
        end
    end
  else move (Daemon sourcePaths) (Daemon targetPaths).

(** Lines 379-418. *)
Definition movePhase (sourcePaths targetPaths : DaemonPaths) : M unit :=
  let* _ := move (Logs sourcePaths) (Logs targetPaths) in
  let* _ := move (Cache sourcePaths) (Cache targetPaths) in
  moveDaemon sourcePaths targetPaths.

(** Lines 420-425. *)
Definition migrateDatabasePhase (targetPaths : DaemonPaths) : M unit :=
  let dir := GoFilepath.Join [Daemon targetPaths; "database"] in
  let* err := call h (MigrateDatabase dir) in
  match err with
  | Some err => fail (ErrorfWrap "Failed to migrate database in %q: %w" [dir] err)
  | None => ret tt
  end.

(** Lines 438-443: [cmd[0]] panics on an empty command. *)
Definition runRewriteCommand (cmd : list string) : M unit :=
  match cmd with
  | [] => panic
  | name :: args =>
      let* r := call h (RunCommand name args) in
      match r with
      | Err err => fail err
      | Ok _ => ret tt
      end
  end.

(** Lines 427-444. *)
Definition applyRewrites (targetPaths : DaemonPaths)
    (rewriteStatements : list string) (rewriteCommands : list (list string)) : M unit :=
  let* _ :=
    if (0 <? Z.of_nat (length rewriteStatements)) then
      let* err := call h (FS (WriteFile
                    (GoFilepath.Join [Daemon targetPaths; "database"; "patch.global.sql"])
                    (GoStrings.Join rewriteStatements newline +:+ newline) 384 (* 0600 *))) in
      match err with
      | Some err => fail (ErrorfWrap "Failed to write database path: %w" [] err)
      | None => ret tt
      end
    else ret tt in
  if (0 <? Z.of_nat (length rewriteCommands)) then
    forEach rewriteCommands runRewriteCommand
  else ret tt.

(** Lines 472-492: one entry of a directory of instances or snapshots. *)
Definition repairEntry (fs : fsHandler σ) (sourcePaths targetPaths : DaemonPaths)
    (dir : string) (entry : DirEntry) : M unit :=
  let srcPath := GoFilepath.Join [Daemon targetPaths; dir; entryName entry] in
  if negb (Z.land (entryType entry) ModeSymlink =? ModeSymlink) then ret tt
  else
    let* r := fsCall fs (Readlink srcPath) in
    match r with
    | Err err => fail (ErrorfWrap "Failed to resolve symlink %q: %w" [srcPath] err)
    | Ok oldTarget =>
        let newTarget := Replace oldTarget (Daemon sourcePaths) (Daemon targetPaths) 1 in
        let* err := fsCall fs (Remove srcPath) in
        match err with
        | Some err => fail (ErrorfWrap "Failed to delete symlink %q: %w" [srcPath] err)
        | None =>
            let* err := fsCall fs (Symlink newTarget srcPath) in
            match err with
            | Some err => fail (ErrorfWrap "Failed to create symlink %q: %w" [srcPath] err)
            | None => ret tt
            end
        end
    end.

(** Lines 462-493: one of the directories. *)
Definition repairDir (fs : fsHandler σ) (sourcePaths targetPaths : DaemonPaths)
    (dir : string) : M unit :=
  let* r := fsCall fs (ReadDir (GoFilepath.Join [Daemon targetPaths; dir])) in
  match r with
  | Err err =>
      if IsNotExist err then ret tt
      else fail (ErrorfWrap "Failed to read entries in %q: %w"
                            [GoFilepath.Join [Daemon targetPaths; dir]] err)
  | Ok entries => forEach entries (repairEntry fs sourcePaths targetPaths dir)
  end.

(** Lines 461-494: the repair of the symlinks. *)
Definition repairSymlinks (fs : fsHandler σ) (sourcePaths targetPaths : DaemonPaths) : M unit :=
  forEach ["containers"; "containers-snapshots"; "snapshots"; "virtual-machines";
           "virtual-machines-snapshots"]
          (repairDir fs sourcePaths targetPaths).

(** Lines 446-494. *)
Definition cleanupPhase (sourcePaths targetPaths : DaemonPaths) : M unit :=
  let fs : fsHandler σ := λ q, h (FS q) in
  let* _ := forEach ["backups"; "images"] (λ dir,
              let* _ := fsCall fs (Remove (GoFilepath.Join [Daemon targetPaths; dir])) in
              ret tt) in
  let* _ := forEach ["devices"; "devlxd"; "security"; "shmounts"] (λ dir,
              let* err := fsCall fs (RemoveAll (GoFilepath.Join [Daemon targetPaths; dir])) in
              match err with
              | Some err =>
                  if negb (IsNotExist err) then fail (ErrorfWrap "Failed to delete %q: %w" [dir] err)
                  else ret tt
              | None => ret tt
              end) in
  repairSymlinks fs sourcePaths targetPaths.

(** Lines 496-501. *)
Definition startPhase (target : Target) : M unit :=
  let* err := call h (TargetStart target) in
  match err with
  | Some err => fail (ErrorfWrap "Failed to start the target server: %w" [] err)
  | None => ret tt
  end.

(** Lines 508-515: the operator is asked until the answer is yes. *)
Fixpoint askStarted (fuel : nat) : M unit :=
  match fuel with
  | O => running
  | S fuel' =>
      let* r := call h (AskBool "The command has been started on all other servers? [default=no]: " "no") in
      match r with
      | Ok true => ret tt
      | _ => askStarted fuel'
      end
  end.

(** Lines 533-548: the check of one member. *)
Definition memberReady (member : ClusterMember) : M bool :=
  let* r := call h (TgtGetServerOf (ServerName member)) in
  match r with
  | Err _ => ret false
  | Ok info =>
      if negb (String.eqb (Server info) "incus") then ret false
      else if String.eqb (Status member) "Evacuated"
              && String.eqb (Message member) "Unavailable due to maintenance" then ret true
      else if String.eqb (Status member) "Online"
              && String.eqb (Message member) "Fully operational" then ret true
      else ret false
  end.

(** Lines 531-549: [ready] after the members; the first member that
    fails ends the loop. *)
Fixpoint membersReady (clusterMembers : list ClusterMember) : M bool :=
  match clusterMembers with
  | [] => ret true
  | member :: rest =>
      let* ok := memberReady member in
      if ok then membersReady rest else ret false
  end.

(** Lines 524-557: the wait for the other servers. *)
Fixpoint waitReady (fuel : nat) : M unit :=
  match fuel with
  | O => running
  | S fuel' =>
      let* r := call h TgtGetClusterMembers in
      match r with
      | Err _ =>
          let* _ := call h (Sleep (30 * Second)) in
          waitReady fuel'
      | Ok clusterMembers =>
          let* ready := membersReady clusterMembers in
          if negb ready then
            let* _ := call h (Sleep (30 * Second)) in
            waitReady fuel'
          else ret tt
      end
  end.

(** Lines 520-557: the warm-up and the wait. *)
Definition convergePhase (fuel : nat) : M unit :=
  let* _ := call h (Sleep (30 * Second)) in
  waitReady fuel.

(** Lines 503-558. *)
Definition clusterPhase (fuel : nat) (c : cmdMigrate) (clustered : bool) : M unit :=
  if clustered then
    let* _ := if negb (flagClusterMember c) then askStarted fuel else ret tt in
    convergePhase fuel
  else ret tt.

(** Lines 560-565. *)
Definition validateTarget : M unit :=
  let* r := call h TgtGetServer in
  match r with
  | Err err => fail (ErrorfWrap "Failed to get target server info: %w" [] err)
  | Ok _ => ret tt
  end.

(** Lines 576-588: one member gets its workloads back. *)
Definition restoreMember (member : ClusterMember) : M unit :=
  let* r := call h (TgtUpdateClusterMemberState (ServerName member) (mkStatePost "restore" "")) in
  match r with
  | Err err => fail (ErrorfWrap "Failed to restore %q: %w" [ServerName member] err)
  | Ok op =>
      let* err := call h (OpWait op) in
      match err with
      | Some err => fail (ErrorfWrap "Failed to restore %q: %w" [ServerName member] err)
      | None => ret tt
      end
  end.

(** Lines 567-589. *)
Definition restorePhase (c : cmdMigrate) (clustered : bool) : M unit :=
  if negb (flagClusterMember c) && clustered then
    let* r := call h TgtGetClusterMembers in
    match r with
    | Err _ => fail (Errorf "Failed to retrieve the list of cluster members" [])
    | Ok clusterMembers => forEach clusterMembers restoreMember
    end
  else ret tt.

(** Lines 591-601. *)
Definition confirmUninstall (c : cmdMigrate) : M unit :=
  if negb (flagYes c) then
    let* r := call h (AskBool "Uninstall the LXD package? [default=no]: " "no") in
    match r with
    | Err err => fail err
    | Ok ok => if negb ok then exit 1 else ret tt
    end
  else ret tt.

(** Lines 603-608. *)
Definition purgePhase (source : Source) : M unit :=
  let* err := call h (SourcePurge source) in
  match err with
  | Some err => fail (ErrorfWrap "Failed to uninstall the source server: %w" [] err)
  | None => ret tt
  end.

(** What [Run] holds once both servers are found and connected and the
    paths are known. *)
Record session := mkSession {
  source : Source;
  target : Target;
  srcClient : option SrcClient;
  targetClient : TgtClient;
  clustered : bool;
  sourcePaths : DaemonPaths;
  targetPaths : DaemonPaths
}.

(** Lines 86-165: root check, discovery, connection, validation, paths. *)
Definition prepare (c : cmdMigrate) : M session :=
  let* _ := checkRoot in
  let* source := findSource in
  let* target := findTarget in
  let* (srcClient, clustered) := connectSource c source in
  let* targetClient := connectTarget target in
  let* _ := validatePhase c source target in
  let* (sourcePaths, targetPaths) := getPaths source target in
  ret (mkSession source target srcClient targetClient clustered sourcePaths targetPaths).

(** Lines 342-611: from the stop of the daemons to the end. *)
Definition migrate (fuel : nat) (c : cmdMigrate) (ss : session)
    (rewriteStatements : list string) (rewriteCommands : list (list string)) : M unit :=
  let* _ := stopPhase (source ss) (target ss) in
  let* _ := unmountPhase (targetPaths ss) in
  let* _ := wipePhase (targetPaths ss) in
  let* _ := movePhase (sourcePaths ss) (targetPaths ss) in
  let* _ := migrateDatabasePhase (targetPaths ss) in
  let* _ := applyRewrites (targetPaths ss) rewriteStatements rewriteCommands in
  let* _ := cleanupPhase (sourcePaths ss) (targetPaths ss) in
  let* _ := startPhase (target ss) in
  let* _ := clusterPhase fuel c (clustered ss) in
  let* _ := validateTarget in
  let* _ := restorePhase c (clustered ss) in
  let* _ := confirmUninstall c in
  purgePhase (source ss).

(** Lines 167-340: the rewrites are gathered, the operator confirms, the
    cluster is evacuated. *)
Definition gather (c : cmdMigrate) (ss : session) : M (list string * list (list string)) :=
  let* (rewriteStatements, rewriteCommands) :=
    mangleStoragePools c (clustered ss) (srcClient ss) (sourcePaths ss) (targetPaths ss) in
  let* rewriteCommands := mangleOVS c (srcClient ss) rewriteCommands in
  let* _ := confirmPhase c (clustered ss) in
  let* _ := evacuatePhase c (clustered ss) (srcClient ss) in
  ret (rewriteStatements, rewriteCommands).

(** [func (c *cmdMigrate) Run(app *cobra.Command, args []string) error] *)
Definition Run (fuel : nat) (c : cmdMigrate) : M unit :=
  let* ss := prepare c in
  let* (rewriteStatements, rewriteCommands) := gather c ss in
  migrate fuel c ss rewriteStatements rewriteCommands.

End Run.

(** ** A scripted world *)

(** The trace of a run is the list of its requests, the first one first.
    A world answers a request from the requests made before it. *)
Definition trace := list request.
Definition World := ∀ r : request, trace → response r.

Definition scripted (w : World) : handler trace :=
  λ r tr, (w r tr, tr ++ [r]).

(** The outcome and the trace of [Run] in a world. *)
Definition RunIn (w : World) (sources : list Source) (fuel : nat) (c : cmdMigrate) :
    outcome unit * trace :=
  Run (scripted w) sources fuel c [].

(** A world in which every call succeeds: one stand-alone server, no OVN,
    empty directories, an operator who says yes. *)
Definition fsCalm (q : fsRequest) : fsResponse q :=
  match q with
  | RemoveAll _ | Remove _ | Symlink _ _ | MkdirAll _ _ | WriteFile _ _ _ => None
  | ReadDir _ => Ok []
  | Readlink _ => Ok EmptyString
  end.

Definition calm (sourcePaths targetPaths : DaemonPaths) : World :=
  λ r _,
    match r with
    | Geteuid => 0
    | Getenv _ => EmptyString
    | SourcePresent _ | TargetPresent _ => true
    | IsMountPoint _ => false
    | SourceConnect _ => Ok srcConnected
    | TargetConnect _ => Ok tgtConnected
    | SourcePaths _ => Ok sourcePaths
    | TargetPaths _ => Ok targetPaths
    | Validate _ _ | SourceStop _ | TargetStop _ | TargetStart _ | SourcePurge _
    | OpWait _ | Mount _ _ _ _ _ | Unmount _ _ | MigrateDatabase _ => None
    | SrcGetServer => Ok (mkSrcServer false ∅)
    | SrcGetStoragePools => Ok []
    | SrcGetClusterMembers | TgtGetClusterMembers => Ok []
    | SrcGetStoragePoolNames _ => Ok []
    | SrcGetStoragePool _ name => Ok (mkPool name "dir" ∅)
    | SrcUpdateClusterMemberState _ _ | TgtUpdateClusterMemberState _ _ => Ok 0%nat
    | TgtGetServer | TgtGetServerOf _ => Ok (mkTgtServer "incus")
    | AskBool _ _ => Ok true
    | RunCommand _ _ => Ok EmptyString
    | OvnConvert _ _ | OvsConvert => Ok []
    | Sleep _ => tt
    | FS q => fsCalm q
    end.

Definition lxdPaths : DaemonPaths := mkPaths "/var/lib/lxd" "/var/log/lxd" "/var/cache/lxd".
Definition incusPaths : DaemonPaths := mkPaths "/var/lib/incus" "/var/log/incus" "/var/cache/incus".

(** ** A model of the file system *)

(** What a path names. *)
Inductive node :=
| File
| Dir
| Link (target : string).

(** [os.ModeDir] *)
Definition ModeDir : Z := Z.shiftl 1 31.

(** The type bits of [DirEntry.Type()]. *)
Definition nodeType (n : node) : Z :=
  match n with
  | File => 0
  | Dir => ModeDir
  | Link _ => ModeSymlink
  end.

(** A file name: not empty, without a slash, neither "." nor "..". *)
Definition plainName (s : string) : bool :=
  match Index s "/" with
  | None => negb (String.eqb s "") && negb (String.eqb s ".") && negb (String.eqb s "..")
  | Some _ => false
  end.

(** The name of a path right under the directory [dir]. *)
Definition childName (dir path : string) : option string :=
  if HasPrefix path (dir +:+ "/") then
    let name := sliceFrom (String.length (dir +:+ "/")) path in
    if plainName name then Some name else None
  else None.

Definition under (dir path : string) : bool := HasPrefix path (dir +:+ "/").

Definition entryLe (a b : DirEntry) : Prop := String.le (entryName a) (entryName b).

Global Instance entryLe_dec : RelDecision entryLe.
Proof. intros a b. unfold entryLe. apply _. Defined.

(** The entries of a directory, sorted by name as [os.ReadDir] has them. *)
Definition entriesOf (fs : gmap string node) (dir : string) : list DirEntry :=
  merge_sort entryLe
    (omap (λ kn, name ← childName dir kn.1; Some (mkEntry name (nodeType kn.2)))
          (map_to_list fs)).

Definition ENOENT : error := ExtError true "no such file or directory".
Definition EEXIST : error := ExtError false "file exists".
Definition ENOTDIR : error := ExtError false "not a directory".
Definition ENOTEMPTY : error := ExtError false "directory not empty".
Definition EINVAL : error := ExtError false "invalid argument".

(** The answers of a file system that maps full paths to nodes, for trees
    in which the paths of the requests lead through real directories: the
    directories on the way to a path are taken to exist, permissions are not
    modelled, and no symlink is followed. A path that leads through a
    symlink, and the listing of a symlink (which [os.ReadDir] follows), are
    outside the model; the properties stated on it take the directories that
    are listed to be directories or to be absent. *)
Definition fsModel : fsHandler (gmap string node) :=
  λ q fs,
    match q return fsResponse q * gmap string node with
    | Readlink path =>
        match fs !! path with
        | Some (Link target) => (Ok target, fs)
        | Some _ => (Err EINVAL, fs)
        | None => (Err ENOENT, fs)
        end
    | Remove path =>
        match fs !! path with
        | None => (Some ENOENT, fs)
        | Some Dir =>
            if bool_decide (filter (λ kn, under path kn.1 = true) fs = ∅)
            then (None, delete path fs)
            else (Some ENOTEMPTY, fs)
        | Some _ => (None, delete path fs)
        end
    | Symlink oldname newname =>
        match fs !! newname with
        | Some _ => (Some EEXIST, fs)
        | None => (None, <[newname := Link oldname]> fs)
        end
    | ReadDir path =>
        match fs !! path with
        | Some Dir => (Ok (entriesOf fs path), fs)
        | Some _ => (Err ENOTDIR, fs)
        | None => (Err ENOENT, fs)
        end
    | RemoveAll path =>
        (None, filter (λ kn, kn.1 ≠ path ∧ under path kn.1 = false) fs)
    | MkdirAll path _ =>
        match fs !! path with
        | Some Dir => (None, fs)
        | Some _ => (Some ENOTDIR, fs)
        | None => (None, <[path := Dir]> fs)
        end
    | WriteFile path _ _ =>
        match fs !! path with
        | Some Dir => (Some (ExtError false "is a directory"), fs)
        | _ => (None, <[path := File]> fs)
        end
    end.

(** * The vocabulary of the properties *)

(** ** Storage pools *)

Definition isCeph (pool : StoragePool) : Prop := Driver pool = "ceph".

Global Instance isCeph_dec (pool : StoragePool) : Decision (isCeph pool).
Proof. unfold isCeph. apply _. Defined.

(** The ceph pools of a list whose [Name] is not in [seen] and is met for
    the first time. *)
Fixpoint firstByName (seen : list string) (pools : list StoragePool) : list StoragePool :=
  match pools with
  | [] => []
  | pool :: rest =>
      if bool_decide (isCeph pool) && negb (bool_decide (Name pool ∈ seen))
      then pool :: firstByName (seen ++ [Name pool]) rest
      else firstByName seen rest
  end.

(** ** Outcomes and traces *)

(** [emits P m]: in a scripted world, [m] only appends requests to the
    trace, and every request it appends satisfies [P]. *)
Definition emits {A} (P : request → Prop) (m : M trace A) : Prop :=
  ∀ tr, ∃ l, snd (m tr) = tr ++ l ∧ Forall P l.

(** [returns m]: [m] ends well or returns an error; it does not exit, panic
    or loop. *)
Definition returns {σ A} (m : M σ A) : Prop :=
  ∀ s, match fst (m s) with
       | Done _ | Failed _ => True
       | _ => False
       end.

(** The piece of the program has ended well or is still in a loop. *)
Definition endsOrRuns {σ} (r : outcome unit * σ) : Prop :=
  match fst r with
  | Done _ | Running => True
  | _ => False
  end.

(** ** Requests of the phases *)

(** The requests of the root check, of the discovery, of the connection to
    the target and of the path lookups. *)
Definition preparation (r : request) : bool :=
  match r with
  | Geteuid | SourcePresent _ | TargetPresent _ | TargetConnect _
  | SourcePaths _ | TargetPaths _ => true
  | _ => false
  end.

(** The requests of the phases from the stop of the daemons to the check
    of the target: the stop, the unmounts and the wipe, the move, the
    migration of the database, the rewrites and the cleanup, the start and
    the request for the server information of the target. *)
Definition performedOnMember (r : request) : bool :=
  match r with
  | SourceStop _ | TargetStop _ | Unmount _ _ | Mount _ _ _ _ _ | IsMountPoint _
  | RunCommand _ _ | FS _ | MigrateDatabase _ | TargetStart _ | TgtGetServer => true
  | _ => false
  end.

(** Every sleep is the sleep of thirty seconds. *)
Definition fixedSleep (r : request) : bool :=
  match r with
  | Sleep d => d =? 30 * Second
  | _ => true
  end.

(** ** The wait for the cluster *)

(** The acceptance of a member as the specification words it: the server
    behind the member answers and names itself incus, and the status and the
    message of the member are one of the two pairs. *)
Definition accepted (answer : result TgtServer) (member : ClusterMember) : Prop :=
  (∃ info, answer = Ok info ∧ Server info = "incus")
  ∧ ((Status member, Message member) = ("Evacuated", "Unavailable due to maintenance")
     ∨ (Status member, Message member) = ("Online", "Fully operational")).

(** Every member of the list is accepted, each with the answer it gets at
    its turn. *)
Fixpoint allAccepted (w : World) (tr : trace) (clusterMembers : list ClusterMember) : Prop :=
  match clusterMembers with
  | [] => True
  | member :: rest =>
      accepted (w (TgtGetServerOf (ServerName member)) tr) member
      ∧ allAccepted w (tr ++ [TgtGetServerOf (ServerName member)]) rest
  end.

(** The polls made so far. *)
Fixpoint countPolls (tr : trace) : nat :=
  match tr with
  | [] => 0
  | TgtGetClusterMembers :: rest => S (countPolls rest)
  | _ :: rest => countPolls rest
  end.

(** [n] failed rounds: a fetch and a sleep each. *)
Fixpoint retries (n : nat) : list request :=
  match n with
  | O => []
  | S n' => TgtGetClusterMembers :: Sleep (30 * Second) :: retries n'
  end.

(** ** Paths *)

(** The elements that [Clean] keeps of a path, the last one first. *)
Definition kept (path : string) : list string :=
  fold_left (GoFilepath.cleanStep (firstByteIsSlash path)) (GoFilepath.splitSlash path) [].

(** The directories of instances and snapshots of lines 461-494. *)
Definition instanceDirs : list string :=
  ["containers"; "containers-snapshots"; "snapshots"; "virtual-machines";
   "virtual-machines-snapshots"].

(** ** Inputs of the examples *)

Definition poolA : StoragePool := mkPool "a" "ceph" {[ "ceph.osd.pool_name" := "shared" ]}.
Definition poolB : StoragePool := mkPool "b" "ceph" {[ "ceph.osd.pool_name" := "shared" ]}.
Definition poolTank : StoragePool := mkPool "tank" "ceph" ∅.
Definition oldPaths : DaemonPaths := mkPaths "/var/lib/old" "/var/log/old" "/var/cache/old".
Definition newPaths : DaemonPaths := mkPaths "/var/lib/new" "/var/log/new" "/var/cache/new".
Definition poolDisks : StoragePool := mkPool "disks" "dir" {[ "source" := "/var/lib/old/disks/a" ]}.

Definition typoMember : ClusterMember := mkMember "node1" "Online" "Fully operationl".

(** A world whose only cluster member reports a misspelt message. *)
Definition typoWorld : World :=
  λ r tr,
    match r return response r with
    | TgtGetClusterMembers => Ok [typoMember]
    | r' => calm lxdPaths incusPaths r' tr
    end.

(** A world whose first [n] fetches of the member list fail. *)
Definition stubborn (n : nat) : World :=
  λ r tr,
    match r return response r with
    | TgtGetClusterMembers =>
        if (countPolls tr <? n)%nat then Err (ExtError false "connection refused") else Ok []
    | r' => calm lxdPaths incusPaths r' tr
    end.

(** A world in which neither daemon can be stopped. *)
Definition stopsFail : World :=
  λ r tr,
    match r return response r with
    | SourceStop _ | TargetStop _ => Some (ExtError false "unit not loaded")
    | r' => calm lxdPaths incusPaths r' tr
    end.

(** A world in which the state directory of the source is a mount point. *)
Definition mountedWorld : World :=
  λ r tr,
    match r return response r with
    | IsMountPoint _ => true
    | r' => calm lxdPaths incusPaths r' tr
    end.

Definition secondary : cmdMigrate := mkCmd true true.

(** The requests of the preparation of a cluster member in the calm world. *)
Definition preparedTrace : trace :=
  [Geteuid; SourcePresent "snap"; TargetPresent targetSystemd; TargetConnect targetSystemd;
   SourcePaths "snap"; TargetPaths targetSystemd].

(** A target tree with one container whose symlink still points under the
    source root, and the same tree after the repair. *)
Definition staleTree : gmap string node :=
  {[ "/var/lib/incus/containers" := Dir;
     "/var/lib/incus/containers/c1" := Link "/var/lib/lxd/storage-pools/default/containers/c1" ]}.

Definition repairedTree : gmap string node :=
  {[ "/var/lib/incus/containers" := Dir;
     "/var/lib/incus/containers/c1" := Link "/var/lib/incus/storage-pools/default/containers/c1" ]}.

(** A repaired tree that holds a file, a directory and, two levels down, a
    symlink that still points under the source root. *)
Definition deepTree : gmap string node :=
  {[ "/var/lib/incus/containers" := Dir;
     "/var/lib/incus/containers/c1" := Link "/var/lib/incus/storage-pools/default/containers/c1";
     "/var/lib/incus/containers/notes" := File;
     "/var/lib/incus/containers/d" := Dir;
     "/var/lib/incus/containers/d/old" := Link "/var/lib/lxd/storage-pools/default/containers/old" ]}.

(** ** Further vocabulary: the storage pools *)

(** The SQL statement that the loop over the storage pools adds for one
    pool, if any. *)
Definition statementOf (sourcePaths targetPaths : DaemonPaths) (pool : StoragePool) :
    option string :=
  let source := default EmptyString (Config pool !! "source") in
  if firstByteIsSlash source && HasPrefix source (Daemon sourcePaths) then
    Some (updateStatement
            (Daemon targetPaths +:+ sliceFrom (String.length (Daemon sourcePaths)) source)
            source)
  else None.

(** ** Further vocabulary: endings and results *)

(** How a piece of the program ends, without its result. *)
Inductive ending :=
| EDone
| EFailed (e : error)
| EExited (code : Z)
| EPanicked
| ERunning.

Definition endingOf {A} (o : outcome A) : ending :=
  match o with
  | Done _ => EDone
  | Failed e => EFailed e
  | Exited code => EExited code
  | Panicked => EPanicked
  | Running => ERunning
  end.

(** [finishes K m]: every ending of [m] is in [K]. *)
Definition finishes {σ A} (K : ending → Prop) (m : M σ A) : Prop :=
  ∀ s, K (endingOf (fst (m s))).

(** [yields Q m]: every result of [m] satisfies [Q]. *)
Definition yields {σ A} (Q : A → Prop) (m : M σ A) : Prop :=
  ∀ s a s', m s = (Done a, s') → Q a.

(** A world in which the tool is not run as root. *)
Definition userWorld : World :=
  λ r tr,
    match r return response r with
    | Geteuid => 1000
    | r' => calm lxdPaths incusPaths r' tr
    end.

(** A world in which only the last source candidate and only OpenRC are
    present. *)
Definition lastPresentWorld : World :=
  λ r tr,
    match r return response r with
    | SourcePresent c => String.eqb c "manual"
    | TargetPresent t => match t with targetOpenRC => true | targetSystemd => false end
    | r' => calm lxdPaths incusPaths r' tr
    end.

(** ** Further vocabulary: kinds of requests *)

(** The one command that the gathering of the rewrites runs: the query of
    the OVN southbound address (line 249). *)
Definition ovsQuery (name : string) (args : list string) : bool :=
  String.eqb name "ovs-vsctl"
  && bool_decide (args = ["get"; "open_vswitch"; "."; "external_ids:ovn-remote"]).

(** The requests that change the host: the stop, start and purge of a
    daemon, the mounts, the file system, the migration of the database and
    every command but the query of the OVN southbound address. *)
Definition changesHost (r : request) : bool :=
  match r with
  | SourceStop _ | TargetStop _ | TargetStart _ | SourcePurge _
  | Mount _ _ _ _ _ | Unmount _ _ | MigrateDatabase _ | FS _ => true
  | RunCommand name args => negb (ovsQuery name args)
  | _ => false
  end.

(** The requests to the source daemon. *)
Definition asksSource (r : request) : bool :=
  match r with
  | SourceConnect _ | SrcGetServer | SrcGetStoragePools | SrcGetClusterMembers
  | SrcGetStoragePoolNames _ | SrcGetStoragePool _ _
  | SrcUpdateClusterMemberState _ _ => true
  | _ => false
  end.

Definition isPurge (r : request) : bool :=
  match r with
  | SourcePurge _ => true
  | _ => false
  end.

(** The requests of the cluster handling: the cluster API of both daemons,
    the variables that tune it, the prompt and the sleeps of the wait. *)
Definition clusterRequest (r : request) : bool :=
  match r with
  | SrcGetClusterMembers | SrcGetStoragePoolNames _ | SrcGetStoragePool _ _
  | SrcUpdateClusterMemberState _ _ | TgtUpdateClusterMemberState _ _
  | TgtGetClusterMembers | TgtGetServerOf _ | OpWait _ | Sleep _ | Getenv _ => true
  | AskBool question _ =>
      String.eqb question "The command has been started on all other servers? [default=no]: "
  | _ => false
  end.

(** The two prompts that [--yes] answers. *)
Definition confirmation (r : request) : bool :=
  match r with
  | AskBool question _ =>
      String.eqb question "Proceed with the migration? [default=no]: "
      || String.eqb question "Uninstall the LXD package? [default=no]: "
  | _ => false
  end.

(** [splits P Q m]: the requests of [m] are requests of [P] followed by
    requests of [Q]. *)
Definition splits {A} (P Q : request → Prop) (m : M trace A) : Prop :=
  ∀ tr, ∃ l1 l2, snd (m tr) = tr ++ l1 ++ l2 ∧ Forall P l1 ∧ Forall Q l2.

(** [lastOnly C P m]: the requests of [m] are requests of [P], followed
    by at most one request of [C]. *)
Definition lastOnly {A} (C P : request → Prop) (m : M trace A) : Prop :=
  ∀ tr, ∃ l, Forall P l
             ∧ (snd (m tr) = tr ++ l ∨ ∃ r, C r ∧ snd (m tr) = tr ++ l ++ [r]).

(** A world whose source is one stand-alone server with a ceph pool. *)
Definition standaloneWorld : World :=
  λ r tr,
    match r return response r with
    | SrcGetStoragePools => Ok [poolTank]
    | r' => calm lxdPaths incusPaths r' tr
    end.

(** ** Further vocabulary: orderly endings *)

(** An orderly ending: the piece of the program ends well, returns an error
    or exits with status 1; it neither panics nor loops. *)
Definition orderly (k : ending) : bool :=
  match k with
  | EDone | EFailed _ => true
  | EExited code => code =? 1
  | EPanicked | ERunning => false
  end.

(** Lines 86-340 of [Run]: what comes before the stop of the daemons. *)
Definition beforeStop {σ} (h : handler σ) (sources : list Source) (c : cmdMigrate) :
    M σ (session * (list string * list (list string))) :=
  let* ss := prepare h sources c in
  let* rewrites := gather h c ss in
  ret (ss, rewrites).

(** A world whose operator confirms the migration and declines the
    uninstall of the source. *)
Definition keepingWorld : World :=
  λ r tr,
    match r return response r with
    | AskBool question _ =>
        Ok (negb (String.eqb question "Uninstall the LXD package? [default=no]: "))
    | r' => calm lxdPaths incusPaths r' tr
    end.


(** ** Further vocabulary: the loops of the migration *)

(** The request that runs one rewrite command: [cmd[0]] with [cmd[1:]]. *)
Definition commandRequest (cmd : list string) : request :=
  RunCommand (hd EmptyString cmd) (tl cmd).

(** The write of the database patch, when there is a statement to write. *)
Definition patchRequest (targetPaths : DaemonPaths) (statements : list string) : list request :=
  match statements with
  | [] => []
  | _ :: _ =>
      [FS (WriteFile (GoFilepath.Join [Daemon targetPaths; "database"; "patch.global.sql"])
                     (GoStrings.Join statements newline +:+ newline) 384)]
  end.

(** The two requests that evacuate one member of the source cluster, and
    the two that restore one member of the target cluster; [op] names the
    operation that the daemon starts for a member. *)
Definition evacuation (op : string → Operation) (member : ClusterMember) : list request :=
  [SrcUpdateClusterMemberState (ServerName member) (mkStatePost "evacuate" "stop");
   OpWait (op (ServerName member))].

Definition restoration (op : string → Operation) (member : ClusterMember) : list request :=
  [TgtUpdateClusterMemberState (ServerName member) (mkStatePost "restore" "");
   OpWait (op (ServerName member))].

(** The requests that list the pools of one member, given its pool names. *)
Definition memberListing (names : string → list string) (member : ClusterMember) : list request :=
  SrcGetStoragePoolNames (ServerName member)
  :: map (SrcGetStoragePool (ServerName member)) (names (ServerName member)).

Definition startedPrompt : request :=
  AskBool "The command has been started on all other servers? [default=no]: " "no".

(** A world whose second command fails. *)
Definition secondFails : World :=
  λ r tr,
    match r return response r with
    | RunCommand name _ =>
        if String.eqb name "false" then Err (ExtError false "exit status 1") else Ok EmptyString
    | r' => calm lxdPaths incusPaths r' tr
    end.

(** A cluster of three members, the second of which cannot be evacuated. *)
Definition threeMembers : list ClusterMember :=
  [mkMember "node1" "Online" "Fully operational";
   mkMember "node2" "Online" "Fully operational";
   mkMember "node3" "Online" "Fully operational"].

Definition opOf (member : string) : Operation := String.length member.

Definition clusterWorld : World :=
  λ r tr,
    match r return response r with
    | SrcGetClusterMembers | TgtGetClusterMembers => Ok threeMembers
    | SrcUpdateClusterMemberState member _ =>
        if String.eqb member "node2" then Err (ExtError false "busy") else Ok (opOf member)
    | TgtUpdateClusterMemberState member _ => Ok (opOf member)
    | SrcGetStoragePoolNames member =>
        Ok (if String.eqb member "node1" then ["default"; "tank"] else ["default"])
    | r' => calm lxdPaths incusPaths r' tr
    end.

(** An operator who says yes to the third prompt. *)
Definition hesitant : World :=
  λ r tr,
    match r return response r with
    | AskBool _ _ =>
        match length tr with
        | 0%nat => Ok false
        | 1%nat => Err (ExtError false "EOF")
        | _ => Ok true
        end
    | r' => calm lxdPaths incusPaths r' tr
    end.

(** ** Further vocabulary: what a failure holds back *)

(** The request to evacuate a member of the source cluster. *)
Definition isEvacuate (r : request) : bool :=
  match r with
  | SrcUpdateClusterMemberState _ _ => true
  | _ => false
  end.

(** The requests that come after the migration of the database and change
    something: the write of the patch, the start of the target, the restore of
    the cluster and the purge of the source. *)
Definition needsDatabase (r : request) : bool :=
  match r with
  | FS (WriteFile _ _ _) | TargetStart _ | TgtUpdateClusterMemberState _ _
  | SourcePurge _ => true
  | _ => false
  end.

(** The requests that come after the check of the target: the restore of
    the cluster, the last confirmation and the purge of the source. *)
Definition needsTarget (r : request) : bool :=
  match r with
  | TgtUpdateClusterMemberState _ _ | SourcePurge _ => true
  | AskBool question _ => String.eqb question "Uninstall the LXD package? [default=no]: "
  | _ => false
  end.

(** A cluster whose operator has set [CLUSTER_NO_EVACUTE]. *)
Definition noEvacuateWorld : World :=
  λ r tr,
    match r return response r with
    | Getenv key => if String.eqb key "CLUSTER_NO_EVACUTE" then "1" else EmptyString
    | SrcGetServer => Ok (mkSrcServer true ∅)
    | r' => clusterWorld r' tr
    end.

(** A world whose database cannot be migrated, and one whose target does
    not answer once it is started. *)
Definition brokenDatabase : World :=
  λ r tr,
    match r return response r with
    | MigrateDatabase _ => Some (ExtError false "database is locked")
    | r' => calm lxdPaths incusPaths r' tr
    end.

Definition deadTarget : World :=
  λ r tr,
    match r return response r with
    | TgtGetServer => Err (ExtError false "connection refused")
    | r' => calm lxdPaths incusPaths r' tr
    end.

(** A tree whose symlink holds the source root in its middle. *)
Definition nestedTree : gmap string node :=
  {[ "/var/lib/incus/containers" := Dir;
     "/var/lib/incus/containers/c1" := Link "/mnt/var/lib/lxd/storage-pools/default/containers/c1" ]}.

(** ** Further vocabulary: the address of the OVN southbound database *)

(** The string holds a double quote. *)
Fixpoint hasQuote (s : string) : bool :=
  match s with
  | EmptyString => false
  | String c s' => Ascii.eqb (ascii_of_nat 34) c || hasQuote s'
  end.

(** A conversion of OVN is asked for with a northbound address that is not
    empty and a southbound address without double quotes. *)
Definition cleanConversion (r : request) : Prop :=
  match r with
  | OvnConvert nbDB sbDB => nbDB ≠ EmptyString ∧ hasQuote sbDB = false
  | _ => True
  end.

(** * Properties *)

(** ** Strings *)

Lemma append_cons (c : ascii) (s t : string) : String c s +:+ t = String c (s +:+ t).
Proof. reflexivity. Qed.

Lemma append_nil (t : string) : "" +:+ t = t.
Proof. reflexivity. Qed.

Lemma append_assoc (a b c : string) : (a +:+ b) +:+ c = a +:+ (b +:+ c).
Proof.
  induction a as [|x a IH]; [done |].
  by rewrite !append_cons, IH.
Qed.

Lemma append_empty_r (a : string) : a +:+ "" = a.
Proof.
  induction a as [|x a IH]; [done |].
  by rewrite append_cons, IH.
Qed.

Lemma HasPrefix_append (p rest : string) : HasPrefix (p +:+ rest) p = true.
Proof.
  induction p as [|c p IH]; [done |].
  rewrite append_cons. simpl. by rewrite Ascii.eqb_refl.
Qed.

Lemma HasPrefix_split (s p : string) :
  HasPrefix s p = true → s = p +:+ sliceFrom (String.length p) s.
Proof.
  revert s. induction p as [|c p IH]; intros s.
  - by destruct s.
  - destruct s as [|d s]; [done |]. simpl.
    destruct (Ascii.eqb_spec c d) as [->|]; [|done].
    intros Hp. rewrite append_cons. f_equal. by apply IH.
Qed.

Lemma sliceFrom_append (p rest : string) : sliceFrom (String.length p) (p +:+ rest) = rest.
Proof.
  induction p as [|c p IH]; [by destruct rest |].
  by rewrite append_cons.
Qed.

Lemma Index_of_prefix (s p : string) : HasPrefix s p = true → Index s p = Some 0%nat.
Proof. intros Hp. destruct s; simpl; by rewrite Hp. Qed.

Lemma sliceTo_0 (s : string) : sliceTo 0 s = "".
Proof. by destruct s. Qed.

Lemma Index_split (s old : string) (j : nat) :
  Index s old = Some j →
  s = sliceTo j s +:+ old +:+ sliceFrom (j + String.length old) s.
Proof.
  revert j. induction s as [|c s IH]; intros j; simpl.
  - destruct (HasPrefix "" old) eqn:Hp; [|done].
    intros [= <-]. by destruct old.
  - destruct (HasPrefix (String c s) old) eqn:Hp.
    + intros [= <-]. rewrite append_nil. by apply HasPrefix_split.
    + destruct (Index s old) as [i|] eqn:Hi; [|done].
      intros [= <-]. simpl. rewrite append_cons. f_equal. by apply IH.
Qed.

(** [strings.Replace] with [n = 1] replaces the first instance, if any. *)
Lemma Replace_first (s old new : string) :
  Replace s old new 1 =
    match Index s old with
    | None => s
    | Some j => sliceTo j s +:+ new +:+ sliceFrom (j + String.length old) s
    end.
Proof.
  unfold Replace. destruct (String.eqb_spec old new) as [->|Hne].
  - destruct (Index s new) as [j|] eqn:Hj; [|done].
    by apply Index_split.
  - replace (String.length s + 2)%nat with (S (S (String.length s))) by lia.
    cbn [replaceFrom]. change (1 =? 0) with false. cbv iota.
    destruct old as [|c old].
    + destruct s; by rewrite ?sliceTo_0, ?append_nil.
    + destruct (Index s (String c old)) as [j|]; [|done].
      change (1 - 1 =? 0) with true. done.
Qed.

Lemma Replace_prefix (p rest new : string) :
  Replace (p +:+ rest) p new 1 = new +:+ rest.
Proof.
  rewrite Replace_first, (Index_of_prefix _ _ (HasPrefix_append p rest)).
  by rewrite sliceTo_0, append_nil, Nat.add_0_l, sliceFrom_append.
Qed.

Lemma Replace_absent (s old new : string) :
  Index s old = None → Replace s old new 1 = s.
Proof. intros Hi. by rewrite Replace_first, Hi. Qed.

(** ** The storage pools *)

Lemma size_fresh (n : string) (names met : gset string) :
  n ∉ met → size (({[n]} ∪ names) ∖ met) = S (size (names ∖ (met ∪ {[n]}))).
Proof.
  intros Hn.
  assert (Heq : ({[n]} ∪ names) ∖ met = {[n]} ∪ names ∖ (met ∪ {[n]})).
  { apply set_eq. intros x.
    rewrite !elem_of_union, !elem_of_difference, !elem_of_union, !elem_of_singleton.
    destruct (decide (x = n)) as [->|Hx]; naive_solver. }
  rewrite Heq, size_union, size_singleton; [done |].
  intros x Hx. rewrite elem_of_singleton in Hx. subst x.
  rewrite elem_of_difference, elem_of_union, elem_of_singleton. naive_solver.
Qed.

Section Pools.
Variables sourcePaths targetPaths : DaemonPaths.

Lemma mangleSource_commands pool st :
  rewriteCommands (mangleSource sourcePaths targetPaths pool st) = rewriteCommands st
  ∧ rbdRenamed (mangleSource sourcePaths targetPaths pool st) = rbdRenamed st.
Proof.
  unfold mangleSource.
  destruct (_ || _); [done |]. by destruct (negb _).
Qed.

Lemma mangleCeph_statements pool st :
  rewriteStatements (mangleCeph pool st) = rewriteStatements st.
Proof.
  unfold mangleCeph. destruct (String.eqb _ _); [|done]. by destruct (negb _).
Qed.

Lemma mangleCeph_commands pool st :
  rewriteCommands (mangleCeph pool st) =
    rewriteCommands st ++
      (if bool_decide (isCeph pool) && negb (bool_decide (Name pool ∈ rbdRenamed st))
       then [renameCmd pool] else [])
  ∧ rbdRenamed (mangleCeph pool st) =
    rbdRenamed st ++
      (if bool_decide (isCeph pool) && negb (bool_decide (Name pool ∈ rbdRenamed st))
       then [Name pool] else []).
Proof.
  unfold mangleCeph, ValueInSlice, isCeph.
  destruct (String.eqb_spec (Driver pool) "ceph") as [Hd|Hd].
  - rewrite (bool_decide_eq_true_2 _ Hd).
    destruct (bool_decide (Name pool ∈ rbdRenamed st)); simpl; by rewrite ?app_nil_r.
  - rewrite (bool_decide_eq_false_2 _ Hd). simpl. by rewrite !app_nil_r.
Qed.

Lemma manglePools_commands pools st :
  rewriteCommands (manglePools sourcePaths targetPaths pools st) =
    rewriteCommands st ++ (renameCmd <$> firstByName (rbdRenamed st) pools).
Proof.
  revert st. induction pools as [|pool rest IH]; intros st; simpl.
  - by rewrite app_nil_r.
  - unfold manglePools in *. simpl. rewrite IH. unfold manglePool.
    destruct (mangleSource_commands pool (mangleCeph pool st)) as [-> ->].
    destruct (mangleCeph_commands pool st) as [-> ->].
    destruct (_ && _); simpl; by rewrite <- ?app_assoc, ?app_nil_r.
Qed.

Lemma firstByName_length seen pools :
  length (firstByName seen pools) =
    size ((list_to_set (Name <$> filter isCeph pools) : gset string) ∖ list_to_set seen).
Proof.
  revert seen. induction pools as [|pool rest IH]; intros seen; simpl.
  - assert (Heq : (∅ ∖ list_to_set seen : gset string) = ∅).
    { apply set_eq. intros x. rewrite elem_of_difference, elem_of_empty. naive_solver. }
    by rewrite Heq, size_empty.
  - rewrite filter_cons. destruct (decide (isCeph pool)) as [Hc|Hc].
    + rewrite (bool_decide_eq_true_2 _ Hc). simpl.
      destruct (decide (Name pool ∈ seen)) as [Hin|Hin].
      * rewrite (bool_decide_eq_true_2 _ Hin). simpl. rewrite IH. f_equal.
        apply set_eq. intros x. rewrite !elem_of_difference, elem_of_union,
          elem_of_singleton, !elem_of_list_to_set. naive_solver.
      * rewrite (bool_decide_eq_false_2 _ Hin). simpl. rewrite IH.
        rewrite list_to_set_app_L. simpl. rewrite union_empty_r_L.
        symmetry. apply size_fresh. by rewrite elem_of_list_to_set.
    + rewrite (bool_decide_eq_false_2 _ Hc). simpl. apply IH.
Qed.
End Pools.

(** What the guard of lines 220-223 counts: the loop over the storage pools
    appends one [rbd rename] command per distinct [Name] among the pools
    whose driver is ceph, each of them the rename command of a ceph pool of
    the list. The slice [rbdRenamed] holds the names of the pools, while the
    command is built from the name of the RBD pool. *)
Lemma renames_counted_by_name (sourcePaths targetPaths : DaemonPaths) (pools : list StoragePool) :
  let commands := rewriteCommands (manglePools sourcePaths targetPaths pools noRewrites) in
  length commands = size (list_to_set (Name <$> filter isCeph pools) : gset string)
  ∧ Forall (λ cmd, ∃ pool, pool ∈ pools ∧ isCeph pool ∧ cmd = renameCmd pool) commands.
Proof.
  cbv zeta. rewrite manglePools_commands. simpl. split.
  - rewrite length_fmap, firstByName_length. simpl. f_equal.
    apply set_eq. intros x. rewrite elem_of_difference, elem_of_empty. naive_solver.
  - apply Forall_fmap. generalize (@nil string).
    induction pools as [|pool rest IH]; intros seen; simpl; [constructor |].
    destruct (bool_decide (isCeph pool)) eqn:Hc; simpl.
    + destruct (bool_decide (Name pool ∈ seen)); simpl.
      * eapply Forall_impl; [apply IH |]. intros p (q & ? & ? & ?).
        exists q. split; [by right | done].
      * constructor.
        -- apply bool_decide_eq_true in Hc.
           exists pool. split; [by left |]. by split.
        -- eapply Forall_impl; [apply IH |]. intros p (q & ? & ? & ?).
           exists q. split; [by right | done].
    + eapply Forall_impl; [apply IH |]. intros p (q & ? & ? & ?).
      exists q. split; [by right | done].
Qed.

(** C1 fails on the code: two ceph pools with different names over the
    same RBD pool get two rename commands, for one distinct RBD pool name,
    and the two commands rename the same image prefix [<rbdPool>/lxd_<rbdPool>]
    to the same [<rbdPool>/incus_<rbdPool>]: the guard that is there to keep
    a rename from being gathered twice compares the names of the pools, not
    the name of the RBD pool that the command is built from. *)
Theorem shared_rbd_pool_renamed_twice (sourcePaths targetPaths : DaemonPaths)
    (p q : StoragePool) :
  isCeph p → isCeph q → Name p ≠ Name q → rbdPoolOf p = rbdPoolOf q →
  rewriteCommands (manglePools sourcePaths targetPaths [p; q] noRewrites)
  = [renameCmd p; renameCmd q]
  ∧ drop 6 (renameCmd p) = drop 6 (renameCmd q)
  ∧ size (list_to_set (rbdPoolOf <$> filter isCeph [p; q]) : gset string) = 1%nat.
Proof.
  intros Hp Hq Hname Hrbd. split; [| split].
  - rewrite manglePools_commands. simpl.
    rewrite (bool_decide_eq_true_2 _ Hp), (bool_decide_eq_true_2 _ Hq). simpl.
    rewrite bool_decide_eq_false_2; [done |].
    rewrite elem_of_cons. intros [Heq | Hin]; [done | by apply elem_of_nil in Hin].
  - unfold renameCmd. simpl. by rewrite Hrbd.
  - rewrite !filter_cons_True, filter_nil by done.
    change (rbdPoolOf <$> [p; q]) with [rbdPoolOf p; rbdPoolOf q]. rewrite Hrbd.
    assert (Hset : (list_to_set [rbdPoolOf q; rbdPoolOf q] : gset string) = {[rbdPoolOf q]})
      by set_solver.
    rewrite Hset. apply size_singleton.
Qed.

Lemma shared_rbd_pool_renamed_twice_witness :
  rewriteCommands (manglePools lxdPaths incusPaths [poolA; poolB] noRewrites)
  = [["rbd"; "rename"; "--cluster"; "ceph"; "--name"; "admin";
      "shared/lxd_shared"; "shared/incus_shared"];
     ["rbd"; "rename"; "--cluster"; "ceph"; "--name"; "admin";
      "shared/lxd_shared"; "shared/incus_shared"]]
  ∧ drop 6 (renameCmd poolA) = drop 6 (renameCmd poolB)
  ∧ size (list_to_set (rbdPoolOf <$> filter isCeph [poolA; poolB]) : gset string) = 1%nat.
Proof.
  exact (shared_rbd_pool_renamed_twice lxdPaths incusPaths poolA poolB
           eq_refl eq_refl ltac:(discriminate) eq_refl).
Defined.




(** C4: a pool whose source is an absolute path under the source root adds
    exactly one SQL statement, the update of the old source to the source
    with the source root replaced by the target root. *)
Theorem source_under_root_rewritten (sourcePaths targetPaths : DaemonPaths)
    (st : rewrites) (pool : StoragePool) (rest : string) :
  Config pool !! "source" = Some (Daemon sourcePaths +:+ rest) →
  firstByteIsSlash (Daemon sourcePaths +:+ rest) = true →
  rewriteStatements (manglePool sourcePaths targetPaths st pool) =
    rewriteStatements st ++
      ["UPDATE storage_pools_config SET value='" +:+ (Daemon targetPaths +:+ rest) +:+
       "' WHERE value='" +:+ (Daemon sourcePaths +:+ rest) +:+ "';"].
Proof.
  intros Hcfg Habs. unfold manglePool, mangleSource.
  rewrite Hcfg. simpl. rewrite Habs, HasPrefix_append, Replace_prefix. simpl.
  destruct (String.eqb_spec (Daemon sourcePaths +:+ rest) "") as [He|_].
  - rewrite He in Habs. discriminate.
  - simpl. by rewrite mangleCeph_statements.
Qed.

Lemma source_under_root_rewritten_witness :
  rewriteStatements (manglePool oldPaths newPaths noRewrites poolDisks) =
    ["UPDATE storage_pools_config SET value='/var/lib/new/disks/a' WHERE value='/var/lib/old/disks/a';"].
Proof.
  exact (source_under_root_rewritten oldPaths newPaths noRewrites poolDisks "/disks/a"
           eq_refl eq_refl).
Defined.

(** ** Traces of the scripted runs *)

Section Emits.
Variable w : World.
Variable P : request → Prop.

Lemma emits_ret {A} (a : A) : emits P (ret a).
Proof. intros tr. exists []. by rewrite app_nil_r. Qed.

Lemma emits_fail {A} (e : error) : emits P (fail (A:=A) e).
Proof. intros tr. exists []. by rewrite app_nil_r. Qed.

Lemma emits_exit {A} (code : Z) : emits P (exit (A:=A) code).
Proof. intros tr. exists []. by rewrite app_nil_r. Qed.

Lemma emits_panic {A} : emits P (panic (A:=A)).
Proof. intros tr. exists []. by rewrite app_nil_r. Qed.

Lemma emits_running {A} : emits P (running (A:=A)).
Proof. intros tr. exists []. by rewrite app_nil_r. Qed.

Lemma emits_call (r : request) : P r → emits P (call (scripted w) r).
Proof. intros Hr tr. exists [r]. split; [done | by constructor]. Qed.

Lemma emits_fsCall (q : fsRequest) :
  P (FS q) → emits P (fsCall (λ q, scripted w (FS q)) q).
Proof. intros Hr tr. exists [FS q]. split; [done | by constructor]. Qed.

Lemma emits_srcCall (client : option SrcClient) (r : request) :
  P r → emits P (srcCall (scripted w) client r).
Proof. destruct client; [apply emits_call | intros _; apply emits_panic]. Qed.

Lemma emits_bind {A B} (m : M trace A) (k : A → M trace B) :
  emits P m → (∀ a, emits P (k a)) → emits P (bind m k).
Proof.
  intros Hm Hk tr. destruct (Hm tr) as (l & Hl & HP). unfold bind.
  destruct (m tr) as [[a| | | |] tr'] eqn:Hmtr; simpl in Hl; subst tr';
    try (exists l; by split).
  destruct (Hk a (tr ++ l)) as (l' & Hl' & HP').
  exists (l ++ l'). rewrite Hl', app_assoc. split; [done | by apply Forall_app].
Qed.

Lemma emits_forEach {A} (l : list A) (body : A → M trace unit) :
  (∀ x, emits P (body x)) → emits P (forEach l body).
Proof.
  intros Hb. induction l as [|x l IH]; simpl; [apply emits_ret |].
  apply emits_bind; [apply Hb | intros _; apply IH].
Qed.
End Emits.

Lemma emits_weaken {A} (P Q : request → Prop) (m : M trace A) :
  (∀ r, P r → Q r) → emits P m → emits Q m.
Proof.
  intros HPQ Hm tr. destruct (Hm tr) as (l & Hl & HP).
  exists l. split; [done | by eapply Forall_impl].
Qed.

(** What follows in a sequence only extends the trace of what comes first. *)
Lemma bind_extends {A B} (P : request → Prop) (m : M trace A) (k : A → M trace B) :
  (∀ a, emits P (k a)) → ∀ tr, ∃ l, snd (bind m k tr) = snd (m tr) ++ l ∧ Forall P l.
Proof.
  intros Hk tr. unfold bind.
  destruct (m tr) as [[a| | | |] tr']; simpl;
    try (exists []; by rewrite app_nil_r).
  apply Hk.
Qed.

(** A sequence that ends well has run both of its parts to their ends. *)
Lemma bind_Done {σ A B} (m : M σ A) (k : A → M σ B) (s s' : σ) (b : B) :
  bind m k s = (Done b, s') → ∃ a s1, m s = (Done a, s1) ∧ k a s1 = (Done b, s').
Proof.
  unfold bind. destruct (m s) as [[a| | | |] s1]; try discriminate. eauto.
Qed.

Ltac emits_step :=
  lazymatch goal with
  | |- emits _ (ret _) => apply emits_ret
  | |- emits _ (fail _) => apply emits_fail
  | |- emits _ (exit _) => apply emits_exit
  | |- emits _ panic => apply emits_panic
  | |- emits _ running => apply emits_running
  | |- emits ?P (call (scripted ?w) ?r) =>
      apply (emits_call w P r); try solve [done | eauto]
  | |- emits ?P (fsCall _ ?q) =>
      apply (emits_fsCall _ P q); try solve [done | eauto]
  | |- emits ?P (srcCall (scripted ?w) ?cl ?r) =>
      apply (emits_srcCall w P cl r); try solve [done | eauto]
  | |- emits _ (bind _ _) => apply emits_bind; [| intros ?]
  | |- emits _ (forEach _ _) => apply emits_forEach; intros ?
  | |- emits _ (match ?x with _ => _ end) => destruct x
  end.

Ltac emits := repeat emits_step.

Create HintDb phases.
#[global] Hint Unfold checkRoot findSource findTarget connectSource connectTarget
  validatePhase getPaths listStoragePools mangleStoragePools mangleOVN mangleOVS
  askProceed confirmPhase evacuateMember evacuatePhase stopPhase unmountPhase wipe
  wipePhase move moveDaemon movePhase migrateDatabasePhase runRewriteCommand
  applyRewrites repairEntry repairDir repairSymlinks cleanupPhase startPhase
  memberReady convergePhase clusterPhase validateTarget restoreMember restorePhase
  confirmUninstall purgePhase prepare gather migrate Run : phases.

Section EmitsLoops.
Variable w : World.
Variable P : request → Prop.

Lemma emits_firstSource (candidates : list Source) :
  (∀ c, P (SourcePresent c)) → emits P (firstSource (scripted w) candidates).
Proof.
  intros HP. induction candidates as [|c rest IH]; simpl; emits. apply IH.
Qed.

Lemma emits_firstTarget (candidates : list Target) :
  (∀ c, P (TargetPresent c)) → emits P (firstTarget (scripted w) candidates).
Proof.
  intros HP. induction candidates as [|c rest IH]; simpl; emits. apply IH.
Qed.

Lemma emits_memberPools client member poolNames storagePools :
  (∀ m p, P (SrcGetStoragePool m p)) →
  emits P (memberPools (scripted w) client member poolNames storagePools).
Proof.
  intros HP. revert storagePools.
  induction poolNames as [|p rest IH]; intros storagePools; simpl; emits. apply IH.
Qed.

Lemma emits_clusterPools client clusterMembers storagePools :
  (∀ m, P (SrcGetStoragePoolNames m)) → (∀ m p, P (SrcGetStoragePool m p)) →
  emits P (clusterPools (scripted w) client clusterMembers storagePools).
Proof.
  intros HN HP. revert storagePools.
  induction clusterMembers as [|m rest IH]; intros storagePools; simpl; emits.
  - by apply emits_memberPools.
  - apply IH.
Qed.

Lemma emits_askStarted (fuel : nat) :
  P (AskBool "The command has been started on all other servers? [default=no]: " "no") →
  emits P (askStarted (scripted w) fuel).
Proof. intros HP. induction fuel as [|fuel IH]; simpl; emits; apply IH. Qed.

Lemma emits_membersReady (clusterMembers : list ClusterMember) :
  (∀ m, P (TgtGetServerOf m)) → emits P (membersReady (scripted w) clusterMembers).
Proof.
  intros HP. induction clusterMembers as [|m rest IH]; simpl; emits.
  all: autounfold with phases; emits. apply IH.
Qed.

Lemma emits_waitReady (fuel : nat) :
  P TgtGetClusterMembers → (∀ m, P (TgtGetServerOf m)) → P (Sleep (30 * Second)) →
  emits P (waitReady (scripted w) fuel).
Proof.
  intros HM HS Hsleep. induction fuel as [|fuel IH]; simpl; emits; try apply IH.
  by apply emits_membersReady.
Qed.
End EmitsLoops.

Ltac emits_phase :=
  repeat first
    [ emits_step
    | apply emits_firstSource; intros; try done
    | apply emits_firstTarget; intros; try done
    | apply emits_clusterPools; intros; try done
    | apply emits_askStarted; try done
    | apply emits_waitReady; intros; try done
    | progress (autounfold with phases; cbn [negb andb orb flagClusterMember flagYes]) ].

(** The phases from the stop of the daemons on only append to the trace. *)
Lemma migrate_appends (w : World) (fuel : nat) (c : cmdMigrate) (ss : session)
    (statements : list string) (commands : list (list string)) :
  emits (λ _, True) (migrate (scripted w) fuel c ss statements commands).
Proof. emits_phase. Qed.

Lemma bind_of_Done {σ A B} (m : M σ A) (k : A → M σ B) (s s' : σ) (a : A) :
  m s = (Done a, s') → bind m k s = k a s'.
Proof. intros Hm. unfold bind. by rewrite Hm. Qed.

Lemma bind_call {B} (w : World) (r : request) (k : response r → M trace B) (tr : trace) :
  bind (call (scripted w) r) k tr = k (w r tr) (tr ++ [r]).
Proof. reflexivity. Qed.

(** ** The stop of the daemons *)

Lemma stopPhase_runs {σ} (h : handler σ) (src : Source) (tgt : Target) (s : σ) :
  stopPhase h src tgt s =
    (Done tt, snd (h (TargetStop tgt) (snd (h (SourceStop src) s)))).
Proof.
  unfold stopPhase, bind, call, ret.
  destruct (h (SourceStop src) s) as [e1 s1]. simpl.
  by destruct (h (TargetStop tgt) s1) as [e2 s2].
Qed.

Lemma unmountPhase_runs (w : World) (targetPaths : DaemonPaths) (tr : trace) :
  unmountPhase (scripted w) targetPaths tr =
    (Done tt, tr ++ [Unmount (GoFilepath.Join [Daemon targetPaths; "guestapi"]) MNT_DETACH;
                     Unmount (GoFilepath.Join [Daemon targetPaths; "shmounts"]) MNT_DETACH]).
Proof.
  unfold unmountPhase, forEach, bind, call, ret, scripted. simpl.
  by rewrite <- app_assoc.
Qed.

Lemma wipePhase_starts (w : World) (targetPaths : DaemonPaths) (tr : trace) :
  ∃ l, snd (wipePhase (scripted w) targetPaths tr) = tr ++ [FS (RemoveAll (Logs targetPaths))] ++ l.
Proof.
  unfold wipePhase.
  match goal with
  | |- context [bind ?m ?k] =>
      destruct (bind_extends (λ _, True) m k) with (tr := tr) as (l & -> & _)
  end.
  { intros _. emits_phase. }
  exists l. rewrite app_assoc. f_equal.
  unfold wipe, bind, call, scripted, fail, ret. simpl.
  destruct (w (FS (RemoveAll (Logs targetPaths))) tr) as [e|]; [|done].
  by destruct (negb (IsNotExist e)).
Qed.

(** C7: the errors of [source.Stop()] and [target.Stop()] are dropped. Under
    every handler the stop of the daemons ends well whatever the two calls
    answer, and in every world the run goes on from the two stops to the
    unmounts and to the wipe of the target. *)
Theorem stop_errors_dropped {σ} (h : handler σ) (s : σ) (w : World) (fuel : nat)
    (c : cmdMigrate) (ss : session) (statements : list string)
    (commands : list (list string)) (tr : trace) :
  fst (stopPhase h (source ss) (target ss) s) = Done tt
  ∧ ∃ rest,
      snd (migrate (scripted w) fuel c ss statements commands tr) =
        tr ++ [SourceStop (source ss); TargetStop (target ss);
               Unmount (GoFilepath.Join [Daemon (targetPaths ss); "guestapi"]) MNT_DETACH;
               Unmount (GoFilepath.Join [Daemon (targetPaths ss); "shmounts"]) MNT_DETACH;
               FS (RemoveAll (Logs (targetPaths ss)))] ++ rest.
Proof.
  split; [by rewrite stopPhase_runs |].
  unfold migrate.
  rewrite (bind_of_Done _ _ _ _ _ (stopPhase_runs _ _ _ _)).
  rewrite (bind_of_Done _ _ _ _ _ (unmountPhase_runs _ _ _)).
  match goal with
  | |- context [bind ?m ?k ?t] =>
      destruct (bind_extends (λ _, True) m k) with (tr := t) as (l & -> & _)
  end.
  { intros _. emits_phase. }
  destruct (wipePhase_starts w (targetPaths ss)
              (snd (scripted w (TargetStop (target ss))
                      (snd (scripted w (SourceStop (source ss)) tr))) ++
               [Unmount (GoFilepath.Join [Daemon (targetPaths ss); "guestapi"]) MNT_DETACH;
                Unmount (GoFilepath.Join [Daemon (targetPaths ss); "shmounts"]) MNT_DETACH]))
    as (l' & ->).
  exists (l' ++ l). simpl. by rewrite <- !app_assoc.
Qed.

Example run_completes_when_stops_fail :
  fst (RunIn stopsFail ["snap"] 2 (mkCmd true false)) = Done tt.
Proof. reflexivity. Qed.

(** ** The move of the state directory *)

(** C8: the move of the state directory, in every world. When the source
    state directory is a mount point, the target directory is created with
    mode 0711; only when that succeeded the source is bind-mounted on the
    target ([MS_BIND|MS_REC]); only when that succeeded the source mount is
    detached ([MNT_DETACH]); the move ends well exactly when the three calls
    succeeded, and otherwise returns the error of the call that failed; no
    command is run, so the directory is never renamed. When it is not a mount
    point, the one call is [mv] of the source on the target. *)
Theorem mounted_state_directory_bind_mounted (w : World)
    (sourcePaths targetPaths : DaemonPaths) (tr : trace) :
  let probe := IsMountPoint (Daemon sourcePaths) in
  let create := FS (MkdirAll (Daemon targetPaths) 457) in
  let mount := Mount (Daemon sourcePaths) (Daemon targetPaths) "none"
                     (Z.lor MS_BIND MS_REC) "" in
  let detach := Unmount (Daemon sourcePaths) MNT_DETACH in
  let rename := RunCommand "mv" [Daemon sourcePaths; Daemon targetPaths] in
  moveDaemon (scripted w) sourcePaths targetPaths tr =
    if w probe tr then
      match w create (tr ++ [probe]) with
      | Some e =>
          (Failed (ErrorfWrap "Failed to create target directory: %w" [] e),
           tr ++ [probe; create])
      | None =>
          match w mount (tr ++ [probe; create]) with
          | Some e =>
              (Failed (ErrorfWrap "Failed to bind mount %q to %q: %w"
                                  [Daemon sourcePaths; Daemon targetPaths] e),
               tr ++ [probe; create; mount])
          | None =>
              (match w detach (tr ++ [probe; create; mount]) with
               | Some e =>
                   Failed (ErrorfWrap "Failed to unmount source mount %q: %w"
                                      [Daemon sourcePaths] e)
               | None => Done tt
               end,
               tr ++ [probe; create; mount; detach])
          end
      end
    else
      (match w rename (tr ++ [probe]) with
       | Err e =>
           Failed (ErrorfWrap "Failed to move %q to %q: %w"
                              [Daemon sourcePaths; Daemon targetPaths] e)
       | Ok _ => Done tt
       end,
       tr ++ [probe; rename]).
Proof.
  cbv zeta. unfold moveDaemon, move. rewrite bind_call.
  destruct (w (IsMountPoint (Daemon sourcePaths)) tr).
  - rewrite bind_call. rewrite <- !app_assoc. cbn [app].
    destruct (w (FS (MkdirAll _ _)) _) as [e|]; [done |].
    rewrite bind_call. rewrite <- !app_assoc. cbn [app].
    destruct (w (Mount _ _ _ _ _) _) as [e|]; [done |].
    rewrite bind_call. rewrite <- !app_assoc. cbn [app].
    by destruct (w (Unmount _ _) _) as [e|].
  - rewrite bind_call. rewrite <- !app_assoc. cbn [app].
    by destruct (w (RunCommand _ _) _).
Qed.

Example mounted_directory_moved_by_mount :
  moveDaemon (scripted mountedWorld) lxdPaths incusPaths [] =
    (Done tt,
     [IsMountPoint "/var/lib/lxd"; FS (MkdirAll "/var/lib/incus" 457);
      Mount "/var/lib/lxd" "/var/lib/incus" "none" 20480 "";
      Unmount "/var/lib/lxd" 2]).
Proof. reflexivity. Qed.

(** ** The wait for the cluster *)

Lemma pair_eqb (a b x y : string) :
  String.eqb a x && String.eqb b y = true ↔ (a, b) = (x, y).
Proof.
  rewrite andb_true_iff, !String.eqb_eq. split; [by intros [-> ->] | by intros [= -> ->]].
Qed.

Lemma memberReady_runs (w : World) (member : ClusterMember) (tr : trace) :
  ∃ b, memberReady (scripted w) member tr = (Done b, tr ++ [TgtGetServerOf (ServerName member)])
       ∧ (b = true ↔ accepted (w (TgtGetServerOf (ServerName member)) tr) member).
Proof.
  unfold memberReady, accepted, bind, call, scripted, ret. simpl.
  destruct (w (TgtGetServerOf (ServerName member)) tr) as [info|e].
  - destruct (String.eqb_spec (Server info) "incus") as [Hi|Hi]; simpl.
    + exists (String.eqb (Status member) "Evacuated"
                && String.eqb (Message member) "Unavailable due to maintenance"
              || String.eqb (Status member) "Online"
                 && String.eqb (Message member) "Fully operational").
      split; [by repeat destruct (_ && _) |].
      rewrite orb_true_iff, !pair_eqb. split; [eauto | by intros [_ H]].
    + exists false. split; [done |]. split; [done |].
      intros [(info' & Hok & Hsrv) _]. congruence.
  - exists false. split; [done |]. split; [done |].
    intros [(info' & Hok & _) _]. discriminate.
Qed.

Lemma membersReady_runs (w : World) (clusterMembers : list ClusterMember) (tr : trace) :
  ∃ b l, membersReady (scripted w) clusterMembers tr = (Done b, tr ++ l)
         ∧ (b = true ↔ allAccepted w tr clusterMembers)
         ∧ Forall (λ r, ∃ m, r = TgtGetServerOf m) l.
Proof.
  revert tr. induction clusterMembers as [|member rest IH]; intros tr; simpl.
  - exists true, []. by rewrite app_nil_r.
  - destruct (memberReady_runs w member tr) as (b & Hrun & Hb).
    rewrite (bind_of_Done _ _ _ _ _ Hrun). destruct b.
    + destruct (IH (tr ++ [TgtGetServerOf (ServerName member)])) as (b' & l & -> & Hb' & Hl).
      exists b', (TgtGetServerOf (ServerName member) :: l).
      rewrite <- app_assoc. split; [done |]. split.
      * rewrite Hb'. destruct Hb as [Hb _]. naive_solver.
      * constructor; eauto.
    + exists false, [TgtGetServerOf (ServerName member)]. split; [done |]. split.
      * split; [done |]. intros [Ha _]. by apply Hb in Ha.
      * constructor; eauto.
Qed.

(** One round of the wait that starts with a successful fetch of the
    members. *)
Lemma waitReady_round (w : World) (fuel : nat) (tr : trace) (clusterMembers : list ClusterMember) :
  w TgtGetClusterMembers tr = Ok clusterMembers →
  ∃ l, Forall (λ r, ∃ m, r = TgtGetServerOf m) l
    ∧ (allAccepted w (tr ++ [TgtGetClusterMembers]) clusterMembers →
       waitReady (scripted w) (S fuel) tr = (Done tt, tr ++ TgtGetClusterMembers :: l))
    ∧ (¬ allAccepted w (tr ++ [TgtGetClusterMembers]) clusterMembers →
       waitReady (scripted w) (S fuel) tr =
         waitReady (scripted w) fuel (tr ++ TgtGetClusterMembers :: l ++ [Sleep (30 * Second)])).
Proof.
  intros Hfetch.
  destruct (membersReady_runs w clusterMembers (tr ++ [TgtGetClusterMembers]))
    as (b & l & Hrun & Hb & Hl).
  exists l. split; [done |].
  assert (Hstep : waitReady (scripted w) (S fuel) tr =
                  if b then (Done tt, tr ++ TgtGetClusterMembers :: l)
                  else waitReady (scripted w) fuel
                         (tr ++ TgtGetClusterMembers :: l ++ [Sleep (30 * Second)])).
  { cbn [waitReady]. unfold bind at 1, call at 1, scripted at 1. simpl.
    rewrite Hfetch. rewrite (bind_of_Done _ _ _ _ _ Hrun).
    destruct b; simpl.
    - unfold ret. by rewrite <- app_assoc.
    - unfold bind, call, scripted. simpl. f_equal.
      by rewrite <- !app_assoc. }
  split; intros Hacc; rewrite Hstep.
  - apply Hb in Hacc. by subst b.
  - destruct b; [|done]. exfalso. apply Hacc. by apply Hb.
Qed.

(** C5: a member passes the check exactly when its server answers, names
    itself incus, and the status and message of the member are one of the
    two pairs; a round over the fetched members ends the wait when every
    member passes, and any other round is followed by the sleep and by the
    next round. *)
Theorem member_accepted_iff (w : World) (fuel : nat) (tr : trace)
    (clusterMembers : list ClusterMember) :
  w TgtGetClusterMembers tr = Ok clusterMembers →
  (∀ member tr',
     fst (memberReady (scripted w) member tr') = Done true
     ↔ accepted (w (TgtGetServerOf (ServerName member)) tr') member)
  ∧ (allAccepted w (tr ++ [TgtGetClusterMembers]) clusterMembers →
     fst (waitReady (scripted w) (S fuel) tr) = Done tt)
  ∧ (¬ allAccepted w (tr ++ [TgtGetClusterMembers]) clusterMembers →
     ∃ l, waitReady (scripted w) (S fuel) tr =
            waitReady (scripted w) fuel (tr ++ l ++ [Sleep (30 * Second)])).
Proof.
  intros Hfetch. split; [|split].
  - intros member tr'. destruct (memberReady_runs w member tr') as (b & -> & Hb).
    simpl. rewrite <- Hb. split; [by intros [= ->] | by intros ->].
  - intros Hacc. destruct (waitReady_round w fuel tr clusterMembers Hfetch) as (l & _ & Hd & _).
    by rewrite (Hd Hacc).
  - intros Hrej. destruct (waitReady_round w fuel tr clusterMembers Hfetch) as (l & _ & _ & Hr).
    exists (TgtGetClusterMembers :: l). by rewrite (Hr Hrej).
Qed.

Lemma member_accepted_iff_witness :
  ¬ accepted (typoWorld (TgtGetServerOf "node1") [TgtGetClusterMembers]) typoMember
  ∧ ∃ l, waitReady (scripted typoWorld) 1 [] =
           waitReady (scripted typoWorld) 0 ([] ++ l ++ [Sleep (30 * Second)]).
Proof.
  assert (Hrej : ¬ accepted (typoWorld (TgtGetServerOf "node1") [TgtGetClusterMembers]) typoMember)
    by (intros [_ [H|H]]; discriminate H).
  split; [exact Hrej |].
  destruct (member_accepted_iff typoWorld 0 [] [typoMember] eq_refl) as (_ & _ & Hretry).
  apply Hretry. intros [Ha _]. exact (Hrej Ha).
Defined.

Lemma countPolls_app (tr l : trace) : countPolls (tr ++ l) = (countPolls tr + countPolls l)%nat.
Proof.
  induction tr as [|r tr IH]; simpl; [done |].
  destruct r; simpl; by rewrite ?IH.
Qed.

Lemma waitReady_stubborn (n k fuel : nat) (tr : trace) :
  (countPolls tr + k)%nat = n →
  waitReady (scripted (stubborn n)) fuel tr =
    if (k <? fuel)%nat then (Done tt, tr ++ retries k ++ [TgtGetClusterMembers])
    else (Running, tr ++ retries fuel).
Proof.
  revert tr fuel. induction k as [|k IH]; intros tr fuel Hn.
  - destruct fuel as [|fuel]; simpl; [by rewrite app_nil_r |].
    unfold bind, call, scripted at 1, stubborn at 1. simpl.
    replace (countPolls tr <? n)%nat with false by (symmetry; apply Nat.ltb_ge; lia).
    done.
  - destruct fuel as [|fuel]; simpl; [by rewrite app_nil_r |].
    unfold bind at 1, call at 1, scripted at 1, stubborn at 1. simpl.
    replace (countPolls tr <? n)%nat with true by (symmetry; apply Nat.ltb_lt; lia).
    unfold bind at 1, call at 1, scripted at 1. simpl.
    rewrite (IH ((tr ++ [TgtGetClusterMembers]) ++ [Sleep (30 * Second)]) fuel).
    + change (S k <? S fuel)%nat with (k <? fuel)%nat.
      destruct (k <? fuel)%nat; by rewrite <- !app_assoc.
    + rewrite !countPolls_app. simpl. lia.
Qed.

Lemma membersReady_total {σ} (h : handler σ) (clusterMembers : list ClusterMember) (s : σ) :
  ∃ b s', membersReady h clusterMembers s = (Done b, s').
Proof.
  revert s. induction clusterMembers as [|member rest IH]; intros s; simpl;
    [do 2 eexists; reflexivity |].
  unfold memberReady. unfold bind, call, ret.
  destruct (h (TgtGetServerOf (ServerName member)) s) as [[info|e] s1]; simpl;
    [| do 2 eexists; reflexivity].
  destruct (negb _); simpl; [do 2 eexists; reflexivity |].
  destruct (_ && _); simpl; [apply IH |].
  destruct (_ && _); simpl; [apply IH | do 2 eexists; reflexivity].
Qed.

Lemma waitReady_no_error {σ} (h : handler σ) (fuel : nat) (s : σ) :
  endsOrRuns (waitReady h fuel s).
Proof.
  revert s. induction fuel as [|fuel IH]; intros s; simpl; [done |].
  unfold bind at 1, call at 1.
  destruct (h TgtGetClusterMembers s) as [[clusterMembers|e] s1]; simpl.
  - destruct (membersReady_total h clusterMembers s1) as (b & s2 & Hrun).
    rewrite (bind_of_Done _ _ _ _ _ Hrun). destruct b; simpl; [done |].
    unfold bind, call. destruct (h (Sleep (30 * Second)) s2) as [[] s3]. apply IH.
  - unfold bind, call. destruct (h (Sleep (30 * Second)) s1) as [[] s2]. apply IH.
Qed.

(** A failed fetch of the member list is followed by the sleep and by the
    next round. *)
Lemma waitReady_fetch_failed (w : World) (fuel : nat) (tr : trace) (e : error) :
  w TgtGetClusterMembers tr = Err e →
  waitReady (scripted w) (S fuel) tr =
    waitReady (scripted w) fuel (tr ++ [TgtGetClusterMembers; Sleep (30 * Second)]).
Proof.
  intros Hfetch. simpl.
  unfold bind at 1, call at 1, scripted at 1. simpl. rewrite Hfetch.
  unfold bind at 1, call at 1, scripted at 1. simpl. by rewrite <- app_assoc.
Qed.

(** The wait ends well only after a round in which every member passed. *)
Lemma waitReady_Done (w : World) (fuel : nat) (tr tr' : trace) :
  waitReady (scripted w) fuel tr = (Done tt, tr') →
  ∃ tr0 clusterMembers l,
    w TgtGetClusterMembers tr0 = Ok clusterMembers
    ∧ allAccepted w (tr0 ++ [TgtGetClusterMembers]) clusterMembers
    ∧ tr' = tr0 ++ TgtGetClusterMembers :: l
    ∧ Forall (λ r, ∃ m, r = TgtGetServerOf m) l.
Proof.
  revert tr. induction fuel as [|fuel IH]; intros tr Hdone; [discriminate |].
  destruct (w TgtGetClusterMembers tr) as [clusterMembers|e] eqn:Hfetch.
  - destruct (waitReady_round w fuel tr clusterMembers Hfetch) as (l & Hl & Hd & Hr).
    destruct (membersReady_runs w clusterMembers (tr ++ [TgtGetClusterMembers]))
      as (b & l' & _ & Hb & _).
    destruct b.
    + assert (Hacc : allAccepted w (tr ++ [TgtGetClusterMembers]) clusterMembers) by by apply Hb.
      rewrite (Hd Hacc) in Hdone. injection Hdone as <-.
      by exists tr, clusterMembers, l.
    + assert (Hrej : ¬ allAccepted w (tr ++ [TgtGetClusterMembers]) clusterMembers).
      { intros Hacc. by apply Hb in Hacc. }
      rewrite (Hr Hrej) in Hdone. by apply IH in Hdone.
  - rewrite (waitReady_fetch_failed w fuel tr e Hfetch) in Hdone. by apply IH in Hdone.
Qed.

(** C6: the wait for the cluster never returns an error. Under every
    handler it has either ended well or is still looping; it starts with the
    sleep of thirty seconds and every later sleep is of thirty seconds; a
    failed fetch of the member list, and a round in which a member fails its
    check, are followed by that sleep and by the next round; there is no
    bound on the retries (for every [n] there is a world in which the wait
    makes exactly [n] retries before it ends, and is still looping with any
    fuel up to [n]); and the wait ends only after a round in which the fetch
    succeeded and every member passed. *)
Theorem convergence_never_fails :
  (∀ σ (h : handler σ) (fuel : nat) (s : σ), endsOrRuns (convergePhase h fuel s))
  ∧ (∀ (w : World) (fuel : nat) (tr : trace),
       ∃ l, snd (convergePhase (scripted w) fuel tr) = tr ++ Sleep (30 * Second) :: l
            ∧ Forall (λ r, fixedSleep r = true) l)
  ∧ (∀ (w : World) (fuel : nat) (tr : trace) (e : error),
       w TgtGetClusterMembers tr = Err e →
       waitReady (scripted w) (S fuel) tr =
         waitReady (scripted w) fuel (tr ++ [TgtGetClusterMembers; Sleep (30 * Second)]))
  ∧ (∀ (w : World) (fuel : nat) (tr : trace) (clusterMembers : list ClusterMember),
       w TgtGetClusterMembers tr = Ok clusterMembers →
       ¬ allAccepted w (tr ++ [TgtGetClusterMembers]) clusterMembers →
       ∃ l, waitReady (scripted w) (S fuel) tr =
              waitReady (scripted w) fuel (tr ++ l ++ [Sleep (30 * Second)]))
  ∧ (∀ n : nat, ∃ w : World,
       (∀ fuel, (fuel ≤ n)%nat → fst (convergePhase (scripted w) fuel []) = Running)
       ∧ (∀ fuel, (n < fuel)%nat →
            convergePhase (scripted w) fuel [] =
              (Done tt, Sleep (30 * Second) :: retries n ++ [TgtGetClusterMembers])))
  ∧ (∀ (w : World) (fuel : nat) (tr tr' : trace),
       convergePhase (scripted w) fuel tr = (Done tt, tr') →
       ∃ tr0 clusterMembers l,
         w TgtGetClusterMembers tr0 = Ok clusterMembers
         ∧ allAccepted w (tr0 ++ [TgtGetClusterMembers]) clusterMembers
         ∧ tr' = tr0 ++ TgtGetClusterMembers :: l
         ∧ Forall (λ r, ∃ m, r = TgtGetServerOf m) l).
Proof.
  repeat split.
  - intros σ h fuel s. unfold convergePhase, bind, call.
    destruct (h (Sleep (30 * Second)) s) as [[] s1]. apply waitReady_no_error.
  - intros w fuel tr. unfold convergePhase.
    rewrite bind_call.
    destruct (emits_waitReady w (λ r, fixedSleep r = true) fuel) with
      (tr := tr ++ [Sleep (30 * Second)]) as (l & -> & Hl); try done.
    exists l. by rewrite <- app_assoc.
  - apply waitReady_fetch_failed.
  - intros w fuel tr clusterMembers Hfetch Hrej.
    destruct (waitReady_round w fuel tr clusterMembers Hfetch) as (l & _ & _ & Hr).
    exists (TgtGetClusterMembers :: l). by rewrite (Hr Hrej).
  - intros n. exists (stubborn n). split; intros fuel Hfuel.
    + unfold convergePhase. rewrite bind_call.
      rewrite (waitReady_stubborn n n) by done.
      by replace (n <? fuel)%nat with false by (symmetry; apply Nat.ltb_ge; lia).
    + unfold convergePhase. rewrite bind_call.
      rewrite (waitReady_stubborn n n) by done.
      by replace (n <? fuel)%nat with true by (symmetry; apply Nat.ltb_lt; lia).
  - intros w fuel tr tr' Hdone. unfold convergePhase in Hdone.
    rewrite bind_call in Hdone. by apply waitReady_Done in Hdone.
Qed.

Lemma convergence_never_fails_witness :
  stubborn 1 TgtGetClusterMembers [] = Err (ExtError false "connection refused")
  ∧ waitReady (scripted (stubborn 1)) 2 [] =
      waitReady (scripted (stubborn 1)) 1 ([] ++ [TgtGetClusterMembers; Sleep (30 * Second)]).
Proof.
  split; [reflexivity |].
  destruct convergence_never_fails as (_ & _ & Hfailed & _).
  exact (Hfailed (stubborn 1) 1%nat [] _ eq_refl).
Defined.

(** ** The invocation on a cluster member *)

Section Returns.
Context {σ : Type} (h : handler σ).

Lemma returns_ret {A} (a : A) : returns (σ:=σ) (ret a).
Proof. by intros s. Qed.

Lemma returns_fail {A} (e : error) : returns (σ:=σ) (fail (A:=A) e).
Proof. by intros s. Qed.

Lemma returns_call (r : request) : returns (call h r).
Proof. intros s. unfold call. by destruct (h r s). Qed.

Lemma returns_bind {A B} (m : M σ A) (k : A → M σ B) :
  returns m → (∀ a, returns (k a)) → returns (bind m k).
Proof.
  intros Hm Hk s. specialize (Hm s). unfold bind.
  destruct (m s) as [[a| | | |] s1]; simpl in *; try done. apply Hk.
Qed.

Lemma returns_firstSource (candidates : list Source) : returns (firstSource h candidates).
Proof.
  induction candidates as [|c rest IH]; simpl; [apply returns_ret |].
  apply returns_bind; [apply (returns_call (SourcePresent c)) |].
  intros present. destruct (negb present); [apply IH | apply returns_ret].
Qed.

Lemma returns_firstTarget (candidates : list Target) : returns (firstTarget h candidates).
Proof.
  induction candidates as [|c rest IH]; simpl; [apply returns_ret |].
  apply returns_bind; [apply (returns_call (TargetPresent c)) |].
  intros present. destruct (negb present); [apply IH | apply returns_ret].
Qed.

(** On a cluster member the preparation makes no call on the source
    client, hence cannot panic. *)
Lemma returns_prepare (sources : list Source) (c : cmdMigrate) :
  flagClusterMember c = true → returns (prepare h sources c).
Proof.
  intros Hflag. unfold prepare, checkRoot, findSource, findTarget, connectSource,
    connectTarget, validatePhase, getPaths. rewrite Hflag. cbn [negb].
  repeat first
    [ apply returns_ret | apply returns_fail
    | match goal with |- returns (call _ ?r) => apply (returns_call r) end
    | apply returns_firstSource | apply returns_firstTarget
    | apply returns_bind; [| intros ?]
    | match goal with |- returns (match ?x with _ => _ end) => destruct x end ].
Qed.

Lemma prepare_secondary (sources : list Source) (c : cmdMigrate) (s s' : σ) (ss : session) :
  flagClusterMember c = true →
  prepare h sources c s = (Done ss, s') →
  srcClient ss = None ∧ clustered ss = true.
Proof.
  intros Hflag Hp. unfold prepare, connectSource in Hp. rewrite Hflag in Hp. cbn [negb] in Hp.
  repeat first
    [ apply bind_Done in Hp as (? & ? & ? & Hp)
    | match goal with H : ret _ _ = (Done _, _) |- _ => injection H as <- <- end
    | match type of Hp with context [let '(_, _) := ?p in _] => destruct p end ].
  done.
Qed.
End Returns.

Lemma prepare_secondary_emits (w : World) (sources : list Source) (yes : bool) :
  emits (λ r, preparation r = true) (prepare (scripted w) sources (mkCmd yes true)).
Proof. emits_phase. Qed.

Lemma Run_secondary {σ} (h : handler σ) (sources : list Source) (fuel : nat)
    (c : cmdMigrate) (s s1 : σ) (ss : session) :
  flagClusterMember c = true →
  prepare h sources c s = (Done ss, s1) →
  Run h sources fuel c s = (Panicked, s1).
Proof.
  intros Hflag Hp. destruct (prepare_secondary h sources c s s1 ss Hflag Hp) as [Hnil _].
  unfold Run. rewrite (bind_of_Done _ _ _ _ _ Hp).
  unfold gather, mangleStoragePools, mangleOVS. rewrite Hflag, Hnil. reflexivity.
Qed.

(** C10: on a cluster member the source client is never connected, the
    gathering of the OVS and OVN rewrites calls [GetServer] on it all the
    same, and every run that gets through the preparation (root check,
    discovery, connection to the target, path lookups) ends in the panic of
    that call, before any daemon is stopped; a run that does not get through
    the preparation returns the error of the preparation. *)
Theorem secondary_run_hits_nil_client {σ} (h : handler σ) (w : World)
    (sources : list Source) (fuel : nat) (c : cmdMigrate) (s : σ) :
  flagClusterMember c = true →
  match prepare h sources c s with
  | (Done ss, s1) =>
      srcClient ss = None
      ∧ (∀ commands s', mangleOVS h c (srcClient ss) commands s' = (Panicked, s'))
      ∧ Run h sources fuel c s = (Panicked, s1)
  | (Failed e, s1) => Run h sources fuel c s = (Failed e, s1)
  | _ => False
  end
  ∧ Forall (λ r, preparation r = true) (snd (RunIn w sources fuel c)).
Proof.
  intros Hflag. split.
  - pose proof (returns_prepare h sources c Hflag s) as Hret.
    destruct (prepare h sources c s) as [[ss|e| | |] s1] eqn:Hp; simpl in Hret; try done.
    + destruct (prepare_secondary h sources c s s1 ss Hflag Hp) as [Hnil _].
      split; [done |]. split; [| by apply (Run_secondary h sources fuel c s s1 ss)].
      intros commands s'. by rewrite Hnil.
    + unfold Run, bind. by rewrite Hp.
  - destruct c as [yes member]. simpl in Hflag. subst member.
    destruct (prepare_secondary_emits w sources yes []) as (l & Hl & HP).
    unfold RunIn.
    destruct (prepare (scripted w) sources (mkCmd yes true) []) as [[ss|e| | |] tr] eqn:Hp;
      simpl in Hl; subst tr.
    + by rewrite (Run_secondary _ sources fuel (mkCmd yes true) _ _ _ eq_refl Hp).
    + unfold Run, bind. by rewrite Hp.
    + unfold Run, bind. by rewrite Hp.
    + unfold Run, bind. by rewrite Hp.
    + unfold Run, bind. by rewrite Hp.
Qed.

Lemma secondary_run_hits_nil_client_witness :
  RunIn (calm lxdPaths incusPaths) ["snap"] 2 secondary = (Panicked, preparedTrace).
Proof.
  destruct (secondary_run_hits_nil_client (scripted (calm lxdPaths incusPaths))
              (calm lxdPaths incusPaths) ["snap"] 2 secondary [] eq_refl) as [Hrun _].
  cbv in Hrun. destruct Hrun as (_ & _ & Hrun). exact Hrun.
Defined.

(** On a cluster member the trace of [Run] is the trace of its preparation. *)
Lemma secondary_trace (w : World) (sources : list Source) (fuel : nat) (yes : bool) :
  Forall (λ r, preparation r = true) (snd (RunIn w sources fuel (mkCmd yes true))).
Proof.
  destruct (prepare_secondary_emits w sources yes []) as (l & Hl & HP).
  unfold RunIn.
  destruct (prepare (scripted w) sources (mkCmd yes true) []) as [[ss|e| | |] tr] eqn:Hp;
    simpl in Hl; subst tr.
  - by rewrite (Run_secondary _ sources fuel (mkCmd yes true) _ _ _ eq_refl Hp).
  - unfold Run, bind. by rewrite Hp.
  - unfold Run, bind. by rewrite Hp.
  - unfold Run, bind. by rewrite Hp.
  - unfold Run, bind. by rewrite Hp.
Qed.

Lemma preparation_not_performed (r : request) :
  preparation r = true → performedOnMember r = false.
Proof. by destruct r. Qed.

(** C2 fails on the code: with [--cluster-member] no run performs any of
    the phases that the claim says are performed after the connection. The
    run makes none of the requests of the stop, the wipe, the move, the
    migration of the database, the cleanup, the start and the check of the
    target, and it never ends well: it panics on the nil source client at
    line 241, or has returned the error of its preparation before. *)
Theorem secondary_run_performs_no_phase (w : World) (sources : list Source) (fuel : nat)
    (c : cmdMigrate) :
  flagClusterMember c = true →
  Forall (λ r, performedOnMember r = false) (snd (RunIn w sources fuel c))
  ∧ (fst (RunIn w sources fuel c) = Panicked
     ∨ ∃ e, fst (RunIn w sources fuel c) = Failed e).
Proof.
  intros Hflag. split.
  - destruct c as [yes member]. simpl in Hflag. subst member.
    eapply Forall_impl; [apply secondary_trace |]. apply preparation_not_performed.
  - pose proof (returns_prepare (scripted w) sources c Hflag []) as Hret.
    unfold RunIn.
    destruct (prepare (scripted w) sources c []) as [[ss|e| | |] tr] eqn:Hp;
      simpl in Hret; try done.
    + left. by rewrite (Run_secondary _ sources fuel c _ _ _ Hflag Hp).
    + right. exists e. unfold Run, bind. by rewrite Hp.
Qed.

Lemma secondary_run_performs_no_phase_witness :
  Forall (λ r, performedOnMember r = false)
         (snd (RunIn (calm lxdPaths incusPaths) ["snap"] 2 secondary))
  ∧ (fst (RunIn (calm lxdPaths incusPaths) ["snap"] 2 secondary) = Panicked
     ∨ ∃ e, fst (RunIn (calm lxdPaths incusPaths) ["snap"] 2 secondary) = Failed e).
Proof. apply secondary_run_performs_no_phase. reflexivity. Defined.

(** The run of a cluster member in the calm world: as root, with both
    daemons found, the target connected and the paths known, the run ends in
    the panic after the six requests of its preparation, whatever the fuel. *)
Example secondary_run_panics (fuel : nat) :
  RunIn (calm lxdPaths incusPaths) ["snap"] fuel secondary = (Panicked, preparedTrace).
Proof. reflexivity. Qed.

(** ** The repair of the symlinks *)

(** C9: the repair of a symlink is idempotent. When the entry is a symlink
    whose target holds no instance of the source root, the repair of the
    entry returns no error and leaves the file system as it was, the symlink
    pointing at the same target. *)
Theorem repair_idempotent (sourcePaths targetPaths : DaemonPaths) (dir : string)
    (entry : DirEntry) (fs : gmap string node) (oldTarget : string) :
  let srcPath := GoFilepath.Join [Daemon targetPaths; dir; entryName entry] in
  Z.land (entryType entry) ModeSymlink = ModeSymlink →
  fs !! srcPath = Some (Link oldTarget) →
  Index oldTarget (Daemon sourcePaths) = None →
  ∃ fs', repairEntry fsModel sourcePaths targetPaths dir entry fs = (Done tt, fs')
         ∧ fs' !! srcPath = Some (Link oldTarget)
         ∧ fs' = fs.
Proof.
  intros srcPath Htype Hlink Habsent. exists fs.
  unfold repairEntry. fold srcPath. rewrite Htype, Z.eqb_refl. cbn [negb].
  unfold bind, fsCall, fsModel, ret. simpl.
  rewrite Hlink. simpl. rewrite (Replace_absent _ _ _ Habsent).
  rewrite Hlink. simpl. rewrite lookup_delete_eq. simpl.
  rewrite insert_delete_eq, (insert_id _ _ _ Hlink). done.
Qed.

Lemma repair_idempotent_witness :
  let fs : gmap string node :=
    {[ "/var/lib/incus/containers" := Dir;
       "/var/lib/incus/containers/c1" := Link "/var/lib/incus/storage-pools/default/containers/c1" ]} in
  ∃ fs', repairEntry fsModel lxdPaths incusPaths "containers" (mkEntry "c1" ModeSymlink) fs
           = (Done tt, fs')
         ∧ fs' !! "/var/lib/incus/containers/c1"
           = Some (Link "/var/lib/incus/storage-pools/default/containers/c1")
         ∧ fs' = fs.
Proof.
  intros fs.
  exact (repair_idempotent lxdPaths incusPaths "containers" (mkEntry "c1" ModeSymlink) fs
           "/var/lib/incus/storage-pools/default/containers/c1" eq_refl eq_refl eq_refl).
Defined.

(** ** Paths under a directory *)

Lemma splitSlash_nonempty (s : string) : GoFilepath.splitSlash s ≠ [].
Proof.
  induction s as [|c s IH]; simpl; [done |].
  destruct (Ascii.eqb c "/"); [done |]. by destruct (GoFilepath.splitSlash s).
Qed.

Lemma splitSlash_app (x y : string) :
  GoFilepath.splitSlash (x +:+ "/" +:+ y) = GoFilepath.splitSlash x ++ GoFilepath.splitSlash y.
Proof.
  induction x as [|c x IH]; [done |].
  rewrite append_cons. simpl. rewrite IH.
  destruct (Ascii.eqb c "/"); [done |].
  pose proof (splitSlash_nonempty x). by destruct (GoFilepath.splitSlash x).
Qed.

Lemma Index_slash_None (c : ascii) (s : string) :
  Index (String c s) "/" = None → Ascii.eqb c "/" = false ∧ Index s "/" = None.
Proof.
  cbn [Index HasPrefix]. rewrite (Ascii.eqb_sym "/" c).
  destruct (Ascii.eqb c "/"); [done |].
  destruct (Index s "/"); [done | by split].
Qed.

Lemma splitSlash_noSlash (s : string) :
  Index s "/" = None → GoFilepath.splitSlash s = [s].
Proof.
  induction s as [|c s IH]; [done |].
  intros [Hc Hs]%Index_slash_None. cbn [GoFilepath.splitSlash]. by rewrite Hc, (IH Hs).
Qed.

Lemma plainName_spec (s : string) :
  plainName s = true →
  Index s "/" = None ∧ String.eqb s "" = false ∧ String.eqb s "." = false
  ∧ String.eqb s ".." = false.
Proof.
  unfold plainName. destruct (Index s "/"); [done |].
  rewrite !andb_true_iff, !negb_true_iff. naive_solver.
Qed.

Lemma cleanStep_plain (rooted : bool) (stack : list string) (name : string) :
  plainName name = true → GoFilepath.cleanStep rooted stack name = name :: stack.
Proof.
  intros (_ & H1 & H2 & H3)%plainName_spec. unfold GoFilepath.cleanStep.
  by rewrite H1, H2, H3.
Qed.

Lemma Join_snoc (elems : list string) (sep last : string) :
  elems ≠ [] → GoStrings.Join (elems ++ [last]) sep = GoStrings.Join elems sep +:+ sep +:+ last.
Proof.
  induction elems as [|e rest IH]; [done |]. intros _.
  destruct rest as [|e' rest]; [done |].
  change (GoStrings.Join ((e :: e' :: rest) ++ [last]) sep)
    with (e +:+ sep +:+ GoStrings.Join ((e' :: rest) ++ [last]) sep).
  rewrite IH by done.
  change (GoStrings.Join (e :: e' :: rest) sep)
    with (e +:+ sep +:+ GoStrings.Join (e' :: rest) sep).
  by rewrite !append_assoc.
Qed.

Lemma firstByteIsSlash_append (s t : string) :
  s ≠ "" → firstByteIsSlash (s +:+ t) = firstByteIsSlash s.
Proof. by destruct s. Qed.

Lemma kept_append (s name : string) :
  s ≠ "" → plainName name = true → kept (s +:+ "/" +:+ name) = name :: kept s.
Proof.
  intros Hs Hname. unfold kept.
  rewrite firstByteIsSlash_append by done.
  rewrite splitSlash_app, fold_left_app.
  destruct (plainName_spec _ Hname) as (Hn & _).
  rewrite (splitSlash_noSlash _ Hn). simpl. by apply cleanStep_plain.
Qed.

Lemma append_not_empty (s t : string) : s ≠ "" → s +:+ t ≠ "".
Proof. by destruct s. Qed.

(** [Clean] of a path followed by a file name. *)
Lemma Clean_append (s name : string) :
  s ≠ "" → kept s ≠ [] → plainName name = true →
  GoFilepath.Clean (s +:+ "/" +:+ name) = GoFilepath.Clean s +:+ "/" +:+ name.
Proof.
  intros Hs Hkept Hname. unfold GoFilepath.Clean.
  destruct (String.eqb_spec (s +:+ "/" +:+ name) "") as [He|_];
    [by apply append_not_empty in He |].
  destruct (String.eqb_spec s "") as [|_]; [done |].
  fold (kept (s +:+ "/" +:+ name)). fold (kept s).
  rewrite kept_append, firstByteIsSlash_append by done.
  simpl rev. destruct (rev (kept s)) as [|e rest] eqn:Hrev.
  { destruct Hkept. by rewrite <- (rev_involutive (kept s)), Hrev. }
  rewrite Join_snoc by done. cbn [app].
  by rewrite !append_assoc.
Qed.

Lemma kept_plain (name : string) : plainName name = true → kept name = [name].
Proof.
  intros Hname. unfold kept. destruct (plainName_spec _ Hname) as (Hn & _).
  rewrite (splitSlash_noSlash _ Hn). simpl. by apply cleanStep_plain.
Qed.

Lemma plainName_not_empty (name : string) : plainName name = true → name ≠ "".
Proof. intros (_ & H & _)%plainName_spec ->. done. Qed.

(** The path of an entry is the path of its directory, a slash and its
    name. *)
Lemma Join_child (root dir name : string) :
  plainName dir = true → plainName name = true →
  GoFilepath.Join [root; dir; name] = GoFilepath.Join [root; dir] +:+ "/" +:+ name.
Proof.
  intros Hdir Hname. pose proof (plainName_not_empty _ Hdir) as Hd.
  destruct (plainName_spec _ Hdir) as (_ & Hde & _).
  cbn [GoFilepath.Join]. destruct (String.eqb_spec root "") as [->|Hroot].
  - rewrite Hde. cbn [GoStrings.Join].
    apply Clean_append; [done | | done]. by rewrite kept_plain.
  - cbn [GoStrings.Join].
    replace (root +:+ "/" +:+ dir +:+ "/" +:+ name)
      with ((root +:+ "/" +:+ dir) +:+ "/" +:+ name) by (by rewrite !append_assoc).
    apply Clean_append; [| | done].
    + by apply append_not_empty.
    + by rewrite kept_append.
Qed.

Lemma elem_of_entriesOf (fs : gmap string node) (dir : string) (entry : DirEntry) :
  entry ∈ entriesOf fs dir →
  ∃ n, fs !! (dir +:+ "/" +:+ entryName entry) = Some n
       ∧ entryType entry = nodeType n
       ∧ plainName (entryName entry) = true.
Proof.
  unfold entriesOf. rewrite merge_sort_Permutation, list_elem_of_omap.
  intros ([path n] & Hin & Hentry). apply elem_of_map_to_list in Hin.
  simpl in Hentry. unfold childName in Hentry.
  destruct (HasPrefix path (dir +:+ "/")) eqn:Hp; [|done].
  destruct (plainName _) eqn:Hplain; [|done].
  simpl in Hentry. injection Hentry as <-. simpl.
  exists n. split; [|by split].
  rewrite <- append_assoc, <- (HasPrefix_split _ _ Hp). done.
Qed.

(** The repair of one entry, when it is a symlink without any instance of
    the source root, and when it is no symlink at all. *)
Lemma repairEntry_unchanged (sourcePaths targetPaths : DaemonPaths) (dir : string)
    (entry : DirEntry) (fs : gmap string node) (n : node) :
  fs !! GoFilepath.Join [Daemon targetPaths; dir; entryName entry] = Some n →
  entryType entry = nodeType n →
  (∀ target, n = Link target → Index target (Daemon sourcePaths) = None) →
  repairEntry fsModel sourcePaths targetPaths dir entry fs = (Done tt, fs).
Proof.
  intros Hnode Htype Habsent.
  set (srcPath := GoFilepath.Join [Daemon targetPaths; dir; entryName entry]) in *.
  unfold repairEntry. fold srcPath. rewrite Htype.
  destruct n as [| |target]; [done | done |].
  change (Z.land (nodeType (Link target)) ModeSymlink =? ModeSymlink) with true. cbn [negb].
  unfold bind, fsCall, fsModel, ret. simpl.
  rewrite Hnode. simpl. rewrite (Replace_absent _ _ _ (Habsent target eq_refl)).
  rewrite Hnode. simpl. rewrite lookup_delete_eq. simpl.
  by rewrite insert_delete_eq, (insert_id _ _ _ Hnode).
Qed.

Section RepairAgain.
Variables sourcePaths targetPaths : DaemonPaths.
Variable fs : gmap string node.

(** Every symlink right under one of the directories (its name is a file
    name, without a slash) is repaired already, and each of the directories
    is a directory or is absent. *)
Hypothesis repaired : ∀ dir name target,
  dir ∈ instanceDirs → plainName name = true →
  fs !! (GoFilepath.Join [Daemon targetPaths; dir] +:+ "/" +:+ name) = Some (Link target) →
  Index target (Daemon sourcePaths) = None.
Hypothesis directories : ∀ dir,
  dir ∈ instanceDirs →
  fs !! GoFilepath.Join [Daemon targetPaths; dir] = None
  ∨ fs !! GoFilepath.Join [Daemon targetPaths; dir] = Some Dir.

Lemma instanceDirs_plain (dir : string) : dir ∈ instanceDirs → plainName dir = true.
Proof.
  unfold instanceDirs. rewrite !elem_of_cons, elem_of_nil.
  intros [->|[->|[->|[->|[->|[]]]]]]; reflexivity.
Qed.

Lemma repairEntries_unchanged (dir : string) (entries : list DirEntry) :
  dir ∈ instanceDirs →
  (∀ entry, entry ∈ entries → entry ∈ entriesOf fs (GoFilepath.Join [Daemon targetPaths; dir])) →
  forEach entries (repairEntry fsModel sourcePaths targetPaths dir) fs = (Done tt, fs).
Proof.
  intros Hdir. induction entries as [|entry rest IH]; intros Hsub; [done |].
  cbn [forEach].
  destruct (elem_of_entriesOf fs _ entry (Hsub entry ltac:(by left))) as (n & Hn & Ht & Hplain).
  rewrite <- (Join_child _ _ _ (instanceDirs_plain dir Hdir) Hplain) in Hn.
  rewrite (bind_of_Done _ _ fs fs tt).
  - apply IH. intros e He. apply Hsub. by right.
  - apply (repairEntry_unchanged _ _ _ _ _ n); [done | done |].
    intros target ->. apply (repaired dir (entryName entry)); [done | done |].
    by rewrite <- (Join_child _ _ _ (instanceDirs_plain dir Hdir) Hplain).
Qed.

Lemma repairDir_unchanged (dir : string) :
  dir ∈ instanceDirs →
  repairDir fsModel sourcePaths targetPaths dir fs = (Done tt, fs).
Proof.
  intros Hdir. unfold repairDir, bind at 1, fsCall at 1, fsModel at 1.
  destruct (directories dir Hdir) as [-> | ->]; [done |].
  by apply repairEntries_unchanged.
Qed.

(** The whole repair of the symlinks, run on a file system whose symlinks
    are repaired already, returns no error and leaves it as it is. *)
Lemma repairSymlinks_unchanged :
  repairSymlinks fsModel sourcePaths targetPaths fs = (Done tt, fs).
Proof.
  unfold repairSymlinks. fold instanceDirs.
  assert (Hall : ∀ dir, dir ∈ instanceDirs → dir ∈ instanceDirs) by done.
  revert Hall. generalize instanceDirs at 1 3.
  induction l as [|dir rest IH]; intros Hall; [done |].
  cbn [forEach]. rewrite (bind_of_Done _ _ fs fs tt).
  - apply IH. intros d Hd. apply Hall. by right.
  - apply repairDir_unchanged. apply Hall. by left.
Qed.
End RepairAgain.

Example repair_stale_tree :
  repairSymlinks fsModel lxdPaths incusPaths staleTree = (Done tt, repairedTree).
Proof. vm_compute. reflexivity. Qed.

Example repair_repaired_tree :
  repairSymlinks fsModel lxdPaths incusPaths repairedTree = (Done tt, repairedTree).
Proof.
  apply repairSymlinks_unchanged.
  - intros dir name target Hdir _. unfold instanceDirs in Hdir.
    rewrite !elem_of_cons, elem_of_nil in Hdir.
    destruct Hdir as [->|[->|[->|[->|[->|[]]]]]]; unfold repairedTree;
      intros Hlink; apply lookup_insert_Some in Hlink as [[_ [=]]|[_ Hlink]];
      apply lookup_singleton_Some in Hlink as [_ [= <-]]; reflexivity.
  - intros dir Hdir. unfold instanceDirs in Hdir.
    rewrite !elem_of_cons, elem_of_nil in Hdir.
    destruct Hdir as [->|[->|[->|[->|[->|[]]]]]]; vm_compute; auto.
Qed.

(** The idempotence rests on the absence of the source root in the link,
    not on the prefix of the link: when the target root holds the source
    root, a symlink that starts with the target root is rewritten once
    more. *)
Example repair_under_longer_root :
  let sourcePaths := mkPaths "/srv/lxd" "/var/log/lxd" "/var/cache/lxd" in
  let targetPaths := mkPaths "/srv/lxd-next" "/var/log/incus" "/var/cache/incus" in
  repairEntry fsModel sourcePaths targetPaths "containers" (mkEntry "c1" ModeSymlink)
    {[ "/srv/lxd-next/containers/c1" := Link "/srv/lxd-next/pool/c1" ]}
  = (Done tt, {[ "/srv/lxd-next/containers/c1" := Link "/srv/lxd-next-next/pool/c1" ]}).
Proof. vm_compute. reflexivity. Qed.

(** * Further properties *)

(** ** The loop over the storage pools *)

Lemma mangleSource_statements (sourcePaths targetPaths : DaemonPaths)
    (pool : StoragePool) (st : rewrites) :
  rewriteStatements (mangleSource sourcePaths targetPaths pool st) =
    rewriteStatements st ++
      match statementOf sourcePaths targetPaths pool with
      | Some statement => [statement]
      | None => []
      end.
Proof.
  unfold mangleSource, statementOf.
  set (source := default EmptyString (Config pool !! "source")).
  destruct (String.eqb_spec source "") as [->|Hne]; simpl; [by rewrite app_nil_r |].
  destruct (firstByteIsSlash source); simpl; [|by rewrite app_nil_r].
  destruct (HasPrefix source (Daemon sourcePaths)) eqn:Hp; simpl; [|by rewrite app_nil_r].
  rewrite (HasPrefix_split _ _ Hp) at 1. rewrite Replace_prefix. done.
Qed.

(** X1: the SQL statements gathered from a list of storage pools are the
    statements of the pools whose source is an absolute path under the
    source root, in the order of the list and with its repeats: unlike the
    rename commands, the statements are not deduplicated, and they do not
    depend on the driver of the pool. *)
Theorem statements_in_order (sourcePaths targetPaths : DaemonPaths)
    (pools : list StoragePool) :
  rewriteStatements (manglePools sourcePaths targetPaths pools noRewrites) =
    omap (statementOf sourcePaths targetPaths) pools.
Proof.
  change (omap (statementOf sourcePaths targetPaths) pools)
    with (rewriteStatements noRewrites ++ omap (statementOf sourcePaths targetPaths) pools).
  generalize noRewrites.
  induction pools as [|pool rest IH]; intros st; simpl; [by rewrite app_nil_r |].
  unfold manglePools in *. simpl. rewrite IH. unfold manglePool.
  rewrite mangleSource_statements, mangleCeph_statements.
  destruct (statementOf sourcePaths targetPaths pool); simpl; by rewrite <- ?app_assoc, ?app_nil_r.
Qed.

(** X2: the commands gathered from the storage pools are runnable: each of
    them is an [rbd] command of seven arguments, so that running them in the
    loop of lines 438-443 never reaches the index panic of the empty command,
    whatever the commands answer. *)
Theorem gathered_commands_never_panic {σ} (h : handler σ)
    (sourcePaths targetPaths : DaemonPaths) (pools : list StoragePool) (s : σ) :
  let commands := rewriteCommands (manglePools sourcePaths targetPaths pools noRewrites) in
  Forall (λ cmd, ∃ args, cmd = "rbd" :: args ∧ length args = 7%nat) commands
  ∧ fst (forEach commands (runRewriteCommand h) s) ≠ Panicked.
Proof.
  cbv zeta. rewrite manglePools_commands. simpl.
  generalize (firstByName [] pools). intros l. split.
  - apply Forall_fmap, Forall_forall. intros pool _. by eexists.
  - revert s. induction l as [|pool rest IH]; intros s; [done |].
    cbn [fmap list_fmap forEach]. unfold bind at 1.
    change (renameCmd pool) with
      ("rbd" :: ["rename"; "--cluster"; configOr pool "ceph.cluster_name" "ceph"; "--name";
                 configOr pool "ceph.user.name" "admin";
                 rbdPoolOf pool +:+ "/lxd_" +:+ rbdPoolOf pool;
                 rbdPoolOf pool +:+ "/incus_" +:+ rbdPoolOf pool]).
    cbn [runRewriteCommand]. unfold bind at 1, call.
    destruct (h (RunCommand _ _) s) as [[out|e] s1]; simpl; [apply IH | done].
Qed.

(** ** Endings and results of sequences *)

Section Finishes.
Context {σ : Type}.
Variable K : ending → Prop.

Lemma finishes_ret {A} (a : A) : K EDone → finishes (σ:=σ) K (ret a).
Proof. by intros HK s. Qed.

Lemma finishes_fail {A} (e : error) : K (EFailed e) → finishes (σ:=σ) K (fail (A:=A) e).
Proof. by intros HK s. Qed.

Lemma finishes_exit {A} (code : Z) : K (EExited code) → finishes (σ:=σ) K (exit (A:=A) code).
Proof. by intros HK s. Qed.

Lemma finishes_panic {A} : K EPanicked → finishes (σ:=σ) K (panic (A:=A)).
Proof. by intros HK s. Qed.

Lemma finishes_running {A} : K ERunning → finishes (σ:=σ) K (running (A:=A)).
Proof. by intros HK s. Qed.

Lemma finishes_call (h : handler σ) (r : request) : K EDone → finishes K (call h r).
Proof. intros HK s. unfold call. by destruct (h r s). Qed.

Lemma finishes_fsCall (h : fsHandler σ) (q : fsRequest) : K EDone → finishes K (fsCall h q).
Proof. intros HK s. unfold fsCall. by destruct (h q s). Qed.

Lemma finishes_bind {A B} (m : M σ A) (k : A → M σ B) :
  finishes K m → (∀ a, finishes K (k a)) → finishes K (bind m k).
Proof.
  intros Hm Hk s. specialize (Hm s). unfold bind.
  destruct (m s) as [[a| | | |] s1]; simpl in *; try done. apply Hk.
Qed.

(** The continuation may rely on what the first part yields. *)
Lemma finishes_bind_yields {A B} (Q : A → Prop) (m : M σ A) (k : A → M σ B) :
  finishes K m → yields Q m → (∀ a, Q a → finishes K (k a)) → finishes K (bind m k).
Proof.
  intros Hm HQ Hk s. specialize (Hm s). unfold bind.
  destruct (m s) as [[a| | | |] s1] eqn:Hrun; simpl in *; try done.
  apply Hk. by eapply HQ.
Qed.

Lemma finishes_forEach {A} (l : list A) (body : A → M σ unit) :
  K EDone → (∀ x, finishes K (body x)) → finishes K (forEach l body).
Proof.
  intros HK Hb. induction l as [|x l IH]; simpl; [by apply finishes_ret |].
  apply finishes_bind; [apply Hb | intros _; apply IH].
Qed.
End Finishes.

Section Yields.
Context {σ : Type}.

Lemma yields_ret {A} (Q : A → Prop) (a : A) : Q a → yields (σ:=σ) Q (ret a).
Proof. intros HQ s a' s'. by intros [= <- _]. Qed.

Lemma yields_fail {A} (Q : A → Prop) (e : error) : yields (σ:=σ) Q (fail e).
Proof. by intros s a s'. Qed.

Lemma yields_bind {A B} (Q : B → Prop) (m : M σ A) (k : A → M σ B) :
  (∀ a, yields Q (k a)) → yields Q (bind m k).
Proof.
  intros Hk s b s' Hrun. apply bind_Done in Hrun as (a & s1 & _ & Hrun). by eapply Hk.
Qed.

Lemma yields_bind_pre {A B} (Q1 : A → Prop) (Q : B → Prop) (m : M σ A) (k : A → M σ B) :
  yields Q1 m → (∀ a, Q1 a → yields Q (k a)) → yields Q (bind m k).
Proof.
  intros Hm Hk s b s' Hrun. apply bind_Done in Hrun as (a & s1 & Hm' & Hrun).
  eapply Hk; [by eapply Hm | done].
Qed.
End Yields.

(** ** The root check and the discovery *)

(** X3: a run that is not started as root returns the error of the root
    check after that one call: no candidate is probed, nothing is connected
    or changed. *)
Theorem not_root_stops (w : World) (sources : list Source) (fuel : nat) (c : cmdMigrate) :
  w Geteuid [] ≠ 0 →
  RunIn w sources fuel c = (Failed (Errorf "This tool must be run as root" []), [Geteuid]).
Proof.
  intros Heuid. unfold RunIn, Run, prepare, checkRoot.
  unfold bind at 1. unfold bind at 1. rewrite bind_call.
  apply Z.eqb_neq in Heuid. by rewrite Heuid.
Qed.

Lemma not_root_stops_witness :
  RunIn userWorld ["snap"] 2 (mkCmd false false) =
    (Failed (Errorf "This tool must be run as root" []), [Geteuid]).
Proof. apply not_root_stops. discriminate. Defined.

Lemma firstSource_find (w : World) (present : Source → bool) (candidates : list Source)
    (tr : trace) :
  (∀ c tr, w (SourcePresent c) tr = present c) →
  firstSource (scripted w) candidates tr =
    match list_find (λ c, present c = true) candidates with
    | Some (i, c) => (Done (Some c), tr ++ (SourcePresent <$> take (S i) candidates))
    | None => (Done None, tr ++ (SourcePresent <$> candidates))
    end.
Proof.
  intros Hw. revert tr. induction candidates as [|c rest IH]; intros tr.
  - simpl. by rewrite app_nil_r.
  - cbn [firstSource list_find]. rewrite bind_call, Hw.
    destruct (decide (present c = true)) as [Hc|Hc].
    + rewrite Hc. by simpl.
    + apply not_true_is_false in Hc. rewrite Hc. cbn [negb]. rewrite IH.
      destruct (list_find _ rest) as [[i c']|]; simpl; by rewrite <- app_assoc.
Qed.

(** X4: the source is the first candidate of the list that is present: the
    candidates are probed in order up to that one, the candidates after it
    are not probed, and when none is present the run returns the error
    "No source server could be found" after it has probed them all. *)
Theorem source_is_first_present (w : World) (present : Source → bool)
    (sources : list Source) (tr : trace) :
  (∀ c tr, w (SourcePresent c) tr = present c) →
  findSource (scripted w) sources tr =
    match list_find (λ c, present c = true) sources with
    | Some (i, c) => (Done c, tr ++ (SourcePresent <$> take (S i) sources))
    | None => (Failed (Errorf "No source server could be found" []),
               tr ++ (SourcePresent <$> sources))
    end.
Proof.
  intros Hw. unfold findSource, bind. rewrite (firstSource_find w present) by done.
  by destruct (list_find _ sources) as [[i c]|].
Qed.

Lemma source_is_first_present_witness :
  findSource (scripted lastPresentWorld) ["snap"; "deb"; "manual"; "other"] [] =
    (Done "manual", [SourcePresent "snap"; SourcePresent "deb"; SourcePresent "manual"]).
Proof.
  exact (source_is_first_present lastPresentWorld (λ c, String.eqb c "manual")
           ["snap"; "deb"; "manual"; "other"] [] (λ _ _, eq_refl)).
Defined.

Lemma firstTarget_find (w : World) (present : Target → bool) (candidates : list Target)
    (tr : trace) :
  (∀ c tr, w (TargetPresent c) tr = present c) →
  firstTarget (scripted w) candidates tr =
    match list_find (λ c, present c = true) candidates with
    | Some (i, c) => (Done (Some c), tr ++ (TargetPresent <$> take (S i) candidates))
    | None => (Done None, tr ++ (TargetPresent <$> candidates))
    end.
Proof.
  intros Hw. revert tr. induction candidates as [|c rest IH]; intros tr.
  - simpl. by rewrite app_nil_r.
  - cbn [firstTarget list_find]. rewrite bind_call, Hw.
    destruct (decide (present c = true)) as [Hc|Hc].
    + rewrite Hc. by simpl.
    + apply not_true_is_false in Hc. rewrite Hc. cbn [negb]. rewrite IH.
      destruct (list_find _ rest) as [[i c']|]; simpl; by rewrite <- app_assoc.
Qed.

(** X5: the target is chosen among the two candidates of targets.go with
    systemd before OpenRC: when the systemd target is present OpenRC is not
    probed, when only OpenRC is present both are probed and OpenRC is taken,
    and when none is present the run returns "No target server could be
    found". *)
Theorem target_prefers_systemd (w : World) (present : Target → bool) (tr : trace) :
  (∀ c tr, w (TargetPresent c) tr = present c) →
  findTarget (scripted w) tr =
    if present targetSystemd then (Done targetSystemd, tr ++ [TargetPresent targetSystemd])
    else if present targetOpenRC then
      (Done targetOpenRC, tr ++ [TargetPresent targetSystemd; TargetPresent targetOpenRC])
    else (Failed (Errorf "No target server could be found" []),
          tr ++ [TargetPresent targetSystemd; TargetPresent targetOpenRC]).
Proof.
  intros Hw. unfold findTarget, bind, targets.
  rewrite (firstTarget_find w present) by done. cbn [list_find].
  destruct (present targetSystemd) eqn:Hs.
  - by rewrite decide_True.
  - rewrite decide_False by done. destruct (present targetOpenRC) eqn:Ho.
    + by rewrite decide_True.
    + by rewrite decide_False.
Qed.

Lemma target_prefers_systemd_witness :
  findTarget (scripted lastPresentWorld) [] =
    (Done targetOpenRC, [TargetPresent targetSystemd; TargetPresent targetOpenRC]).
Proof.
  exact (target_prefers_systemd lastPresentWorld
           (λ t, match t with targetOpenRC => true | targetSystemd => false end)
           [] (λ _ _, eq_refl)).
Defined.

(** ** The order of the requests of a run *)

Lemma splits_bind_left {A B} (P Q : request → Prop) (m : M trace A) (k : A → M trace B) :
  emits P m → (∀ a, splits P Q (k a)) → splits P Q (bind m k).
Proof.
  intros Hm Hk tr. destruct (Hm tr) as (l & Hl & HP). unfold bind.
  destruct (m tr) as [[a| | | |] tr'] eqn:Hrun; simpl in Hl; subst tr';
    try (exists l, []; rewrite app_nil_r; by repeat split).
  destruct (Hk a (tr ++ l)) as (l1 & l2 & -> & H1 & H2).
  exists (l ++ l1), l2. rewrite <- !app_assoc. repeat split; [by apply Forall_app | done].
Qed.

Lemma splits_bind_right {A B} (P Q : request → Prop) (m : M trace A) (k : A → M trace B) :
  emits P m → (∀ a, emits Q (k a)) → splits P Q (bind m k).
Proof.
  intros Hm Hk tr. destruct (Hm tr) as (l & Hl & HP). unfold bind.
  destruct (m tr) as [[a| | | |] tr'] eqn:Hrun; simpl in Hl; subst tr';
    try (exists l, []; rewrite app_nil_r; by repeat split).
  destruct (Hk a (tr ++ l)) as (l2 & -> & H2).
  exists l, l2. rewrite <- !app_assoc. by repeat split.
Qed.

Lemma lastOnly_bind {A B} (C P : request → Prop) (m : M trace A) (k : A → M trace B) :
  emits P m → (∀ a, lastOnly C P (k a)) → lastOnly C P (bind m k).
Proof.
  intros Hm Hk tr. destruct (Hm tr) as (l & Hl & HP). unfold bind.
  destruct (m tr) as [[a| | | |] tr'] eqn:Hrun; simpl in Hl; subst tr';
    try (exists l; split; [done | by left]).
  destruct (Hk a (tr ++ l)) as (l' & HP' & [-> | (r & Hr & ->)]).
  - exists (l ++ l'). split; [by apply Forall_app |]. left. by rewrite app_assoc.
  - exists (l ++ l'). split; [by apply Forall_app |]. right. exists r.
    split; [done |]. by rewrite <- !app_assoc.
Qed.

Lemma emits_bind_yields {A B} (P : request → Prop) (Q : A → Prop)
    (m : M trace A) (k : A → M trace B) :
  emits P m → yields Q m → (∀ a, Q a → emits P (k a)) → emits P (bind m k).
Proof.
  intros Hm HQ Hk tr. destruct (Hm tr) as (l & Hl & HP). unfold bind.
  destruct (m tr) as [[a| | | |] tr'] eqn:Hrun; simpl in Hl; subst tr';
    try (exists l; by split).
  destruct (Hk a (HQ _ _ _ Hrun) (tr ++ l)) as (l' & Hl' & HP').
  exists (l ++ l'). rewrite Hl', app_assoc. split; [done | by apply Forall_app].
Qed.

Ltac emits_session :=
  repeat first
    [ emits_step
    | apply emits_firstSource; intros; try done
    | apply emits_firstTarget; intros; try done
    | apply emits_clusterPools; intros; try done
    | apply emits_askStarted; try done
    | apply emits_waitReady; intros; try done
    | progress (autounfold with phases;
                cbn [negb andb orb flagClusterMember flagYes clustered srcClient source
                     target sourcePaths targetPaths targetClient]) ].

Lemma prepare_gather_emits (w : World) (sources : list Source) (c : cmdMigrate) :
  emits (λ r, changesHost r = false) (prepare (scripted w) sources c)
  ∧ ∀ ss, emits (λ r, changesHost r = false) (gather (scripted w) c ss).
Proof. split; [| intros ss]; emits_phase. Qed.

Lemma migrate_emits_no_source (w : World) (fuel : nat) (c : cmdMigrate) (ss : session)
    (statements : list string) (commands : list (list string)) :
  emits (λ r, asksSource r = false) (migrate (scripted w) fuel c ss statements commands).
Proof. emits_phase. Qed.

(** X6: in every run the requests that change the host come after the
    last request to the source daemon: the trace is a list of requests none
    of which stops, starts or purges a daemon, mounts, touches the file
    system, migrates the database or runs a command other than the query of
    the OVN address, followed by a list of requests none of which is made to
    the source daemon. The rewrites are gathered, the operator has confirmed
    and the cluster is evacuated before anything on the host is changed. *)
Theorem source_queried_before_changes (w : World) (sources : list Source) (fuel : nat)
    (c : cmdMigrate) :
  ∃ l1 l2, snd (RunIn w sources fuel c) = l1 ++ l2
           ∧ Forall (λ r, changesHost r = false) l1
           ∧ Forall (λ r, asksSource r = false) l2.
Proof.
  destruct (prepare_gather_emits w sources c) as [Hprepare Hgather].
  assert (Hrun : splits (λ r, changesHost r = false) (λ r, asksSource r = false)
                   (Run (scripted w) sources fuel c)).
  { unfold Run. apply splits_bind_left; [done |]. intros ss.
    apply splits_bind_right; [apply Hgather |].
    intros [statements commands]. apply migrate_emits_no_source. }
  destruct (Hrun []) as (l1 & l2 & Htr & H1 & H2). by exists l1, l2.
Qed.

Lemma purgePhase_lastOnly (w : World) (P : request → Prop) (src : Source) :
  lastOnly (λ r, isPurge r = true) P (purgePhase (scripted w) src).
Proof.
  intros tr. exists []. split; [done |]. right. exists (SourcePurge src).
  split; [done |]. unfold purgePhase. rewrite bind_call.
  by destruct (w (SourcePurge src) tr).
Qed.

(** X7: the purge of the source is the last thing a run does: in every
    run the request to uninstall the source, if it is made at all, is the
    last request of the trace. *)
Theorem purge_is_last (w : World) (sources : list Source) (fuel : nat) (c : cmdMigrate) :
  ∃ l, Forall (λ r, isPurge r = false) l
       ∧ (snd (RunIn w sources fuel c) = l
          ∨ ∃ src, snd (RunIn w sources fuel c) = l ++ [SourcePurge src]).
Proof.
  assert (Hrun : lastOnly (λ r, isPurge r = true) (λ r, isPurge r = false)
                   (Run (scripted w) sources fuel c)).
  { unfold Run, migrate.
    repeat first
      [ apply purgePhase_lastOnly
      | apply lastOnly_bind; [emits_phase | intros ?]
      | match goal with |- lastOnly _ _ (let '(_, _) := ?p in _) => destruct p end ]. }
  destruct (Hrun []) as (l & HP & [Htr | (r & Hr & Htr)]); exists l; split; try done.
  - by left.
  - right. destruct r; try discriminate. by eexists.
Qed.

(** X8: with [--yes] the operator is asked neither to confirm the
    migration nor to confirm the uninstall: none of the two prompts is in
    the trace of any run. *)
Theorem yes_skips_confirmations (w : World) (sources : list Source) (fuel : nat)
    (c : cmdMigrate) :
  flagYes c = true →
  Forall (λ r, confirmation r = false) (snd (RunIn w sources fuel c)).
Proof.
  intros Hyes. destruct c as [yes member]. simpl in Hyes. subst yes.
  assert (Hrun : emits (λ r, confirmation r = false)
                   (Run (scripted w) sources fuel (mkCmd true member))).
  { destruct member; emits_phase. }
  unfold RunIn. by destruct (Hrun []) as (l & -> & HP).
Qed.

Lemma yes_skips_confirmations_witness :
  Forall (λ r, confirmation r = false)
         (snd (RunIn (calm lxdPaths incusPaths) ["snap"] 2 (mkCmd true false))).
Proof. apply yes_skips_confirmations. reflexivity. Defined.

(** ** A stand-alone server *)

Lemma yields_call_scripted (w : World) (r : request) :
  yields (λ a, ∃ tr, a = w r tr) (call (scripted w) r).
Proof. intros tr a tr'. unfold call, scripted. intros [= <- _]. by exists tr. Qed.

Lemma connectSource_yields (w : World) (yes : bool) (src : Source) :
  (∀ tr info, w SrcGetServer tr = Ok info → ServerClustered info = false) →
  yields (λ p, p.2 = false) (connectSource (scripted w) (mkCmd yes false) src).
Proof.
  intros Hw. unfold connectSource. cbn [negb flagClusterMember].
  apply yields_bind. intros [client|e]; [|apply yields_fail].
  cbn [srcCall].
  apply (yields_bind_pre (λ a, ∃ tr, a = w SrcGetServer tr)); [apply yields_call_scripted |].
  intros a [tr ->]. destruct (w SrcGetServer tr) as [info|e] eqn:Hinfo; [|apply yields_fail].
  apply yields_ret. simpl. by eapply Hw.
Qed.

Lemma prepare_yields_standalone (w : World) (sources : list Source) (yes : bool) :
  (∀ tr info, w SrcGetServer tr = Ok info → ServerClustered info = false) →
  yields (λ ss, clustered ss = false) (prepare (scripted w) sources (mkCmd yes false)).
Proof.
  intros Hw. unfold prepare.
  apply yields_bind. intros _. apply yields_bind. intros src. apply yields_bind. intros tgt.
  apply (yields_bind_pre (λ p, p.2 = false)); [by apply connectSource_yields |].
  intros [client cl] Hcl. simpl in Hcl. subst cl.
  apply yields_bind. intros tc. apply yields_bind. intros _.
  apply yields_bind. intros [sp tp]. by apply yields_ret.
Qed.

(** X9: a source that is no cluster is migrated without any cluster
    handling: when the source server reports that it is not clustered, the
    run of the first server makes no request to the cluster API of either
    daemon, reads none of the two variables, never sleeps and never asks
    whether the other servers were started. *)
Theorem standalone_never_uses_cluster (w : World) (sources : list Source) (fuel : nat)
    (c : cmdMigrate) :
  flagClusterMember c = false →
  (∀ tr info, w SrcGetServer tr = Ok info → ServerClustered info = false) →
  Forall (λ r, clusterRequest r = false) (snd (RunIn w sources fuel c)).
Proof.
  intros Hflag Hw. destruct c as [yes member]. simpl in Hflag. subst member.
  assert (Hrun : emits (λ r, clusterRequest r = false)
                   (Run (scripted w) sources fuel (mkCmd yes false))).
  { unfold Run.
    apply (emits_bind_yields _ (λ ss, clustered ss = false));
      [emits_phase | by apply prepare_yields_standalone |].
    intros [src tgt client tc cl sp tp] Hcl. simpl in Hcl. subst cl.
    destruct yes; emits_session. }
  unfold RunIn. by destruct (Hrun []) as (l & -> & HP).
Qed.

Lemma standalone_never_uses_cluster_witness :
  Forall (λ r, clusterRequest r = false)
         (snd (RunIn standaloneWorld ["snap"] 2 (mkCmd false false))).
Proof.
  apply standalone_never_uses_cluster; [reflexivity |].
  intros tr info [= <-]. reflexivity.
Defined.

(** ** Orderly endings *)

Section FinishesMore.
Context {σ : Type}.

Lemma finishes_weaken {A} (K K' : ending → Prop) (m : M σ A) :
  (∀ e, K e → K' e) → finishes K m → finishes K' m.
Proof. intros HK Hm s. apply HK, Hm. Qed.

(** A sequence whose first part never ends well ends as its first part. *)
Lemma finishes_bind_never {A B} (K : ending → Prop) (m : M σ A) (k : A → M σ B) :
  ¬ K EDone → finishes K m → finishes K (bind m k).
Proof.
  intros HK Hm s. specialize (Hm s). unfold bind.
  by destruct (m s) as [[a| | | |] s1].
Qed.


Lemma never_Done_bind_right {A B} (m : M σ A) (k : A → M σ B) :
  (∀ a, finishes (λ e, e ≠ EDone) (k a)) → finishes (λ e, e ≠ EDone) (bind m k).
Proof.
  intros Hk s. unfold bind. destruct (m s) as [[a| | | |] s1]; try done. apply Hk.
Qed.


Variable h : handler σ.
Variable K : ending → Prop.
Hypothesis K_Done : K EDone.
Hypothesis K_Failed : ∀ e, K (EFailed e).

Lemma finishes_firstSource (candidates : list Source) : finishes K (firstSource h candidates).
Proof.
  induction candidates as [|c rest IH]; simpl; [by apply finishes_ret |].
  apply finishes_bind; [by apply (finishes_call K h (SourcePresent c)) |].
  intros present. destruct (negb present); [apply IH | by apply finishes_ret].
Qed.

Lemma finishes_firstTarget (candidates : list Target) : finishes K (firstTarget h candidates).
Proof.
  induction candidates as [|c rest IH]; simpl; [by apply finishes_ret |].
  apply finishes_bind; [by apply (finishes_call K h (TargetPresent c)) |].
  intros present. destruct (negb present); [apply IH | by apply finishes_ret].
Qed.

Lemma finishes_memberPools (client : SrcClient) member poolNames storagePools :
  finishes K (memberPools h (Some client) member poolNames storagePools).
Proof.
  revert storagePools. induction poolNames as [|p rest IH]; intros storagePools; simpl;
    [by apply finishes_ret |].
  apply finishes_bind; [by apply (finishes_call K h (SrcGetStoragePool member p)) |].
  intros [pool|e]; [apply IH | by apply finishes_fail].
Qed.

Lemma finishes_clusterPools (client : SrcClient) clusterMembers storagePools :
  finishes K (clusterPools h (Some client) clusterMembers storagePools).
Proof.
  revert storagePools. induction clusterMembers as [|m rest IH]; intros storagePools; simpl;
    [by apply finishes_ret |].
  apply finishes_bind; [by apply (finishes_call K h (SrcGetStoragePoolNames (ServerName m))) |].
  intros [names|e]; [| by apply finishes_fail].
  apply finishes_bind; [apply finishes_memberPools | intros pools; apply IH].
Qed.
End FinishesMore.

Ltac finishes_step :=
  lazymatch goal with
  | |- finishes _ (ret _) => apply finishes_ret; reflexivity
  | |- finishes _ (fail _) => apply finishes_fail; reflexivity
  | |- finishes _ (exit _) => apply finishes_exit; reflexivity
  | |- finishes ?K (call ?h ?r) => apply (finishes_call K h r); reflexivity
  | |- finishes ?K (fsCall ?h ?q) => apply (finishes_fsCall K h q); reflexivity
  | |- finishes _ (firstSource _ _) => solve [apply finishes_firstSource; done]
  | |- finishes _ (firstTarget _ _) => solve [apply finishes_firstTarget; done]
  | |- finishes _ (clusterPools _ (Some _) _ _) =>
      solve [apply finishes_clusterPools; done]
  | |- finishes _ (bind _ _) => apply finishes_bind; [| intros ?]
  | |- finishes _ (forEach _ _) => apply finishes_forEach; [reflexivity | intros ?]
  | |- finishes _ (match ?x with _ => _ end) => destruct x
  end.

Ltac finishes_phase :=
  repeat first
    [ finishes_step
    | progress (autounfold with phases;
                cbn [negb andb orb flagClusterMember flagYes srcCall clustered srcClient
                     source target sourcePaths targetPaths targetClient]) ].

(** The first server holds a client of the source once it is prepared. *)
Lemma prepare_yields_client {σ} (h : handler σ) (sources : list Source) (yes : bool) :
  yields (λ ss, srcClient ss = Some srcConnected) (prepare h sources (mkCmd yes false)).
Proof.
  unfold prepare.
  apply yields_bind. intros _. apply yields_bind. intros src. apply yields_bind. intros tgt.
  apply (yields_bind_pre (λ p, p.1 = Some srcConnected)).
  - unfold connectSource. cbn [negb flagClusterMember].
    apply yields_bind. intros [[]|e]; [|apply yields_fail].
    apply yields_bind. intros [info|e]; [by apply yields_ret | apply yields_fail].
  - intros [client cl] Hclient. simpl in Hclient. subst client.
    apply yields_bind. intros tc. apply yields_bind. intros _.
    apply yields_bind. intros [sp tp]. by apply yields_ret.
Qed.

Lemma prepare_orderly {σ} (h : handler σ) (sources : list Source) (c : cmdMigrate) :
  finishes (λ e, orderly e = true) (prepare h sources c).
Proof. destruct c as [yes []]; finishes_phase. Qed.

Lemma pools_orderly {σ} (h : handler σ) (yes cl : bool) (sp tp : DaemonPaths) :
  finishes (λ e, orderly e = true)
           (mangleStoragePools h (mkCmd yes false) cl (Some srcConnected) sp tp).
Proof. finishes_phase. Qed.

Lemma OVS_orderly {σ} (h : handler σ) (yes : bool) (commands : list (list string)) :
  finishes (λ e, orderly e = true) (mangleOVS h (mkCmd yes false) (Some srcConnected) commands).
Proof. finishes_phase. Qed.

Lemma gather_orderly {σ} (h : handler σ) (yes : bool) (ss : session) :
  srcClient ss = Some srcConnected →
  finishes (λ e, orderly e = true) (gather h (mkCmd yes false) ss).
Proof.
  destruct ss as [src tgt client tc cl sp tp]. simpl. intros ->.
  unfold gather. cbn [clustered srcClient sourcePaths targetPaths].
  apply finishes_bind; [apply pools_orderly | intros [statements commands]].
  apply finishes_bind; [apply OVS_orderly | intros commands'].
  finishes_phase.
Qed.

(** X10: on the first server nothing before the stop of the daemons
    panics or waits without end: whatever the collaborators answer, the part
    of [Run] that finds and connects the servers, gathers the rewrites, asks
    for the confirmation and evacuates the cluster ends well, returns an error
    or exits with status 1. *)
Theorem primary_orderly_before_stop {σ} (h : handler σ) (sources : list Source)
    (c : cmdMigrate) (s : σ) :
  flagClusterMember c = false →
  orderly (endingOf (fst (beforeStop h sources c s))) = true.
Proof.
  intros Hflag. destruct c as [yes member]. simpl in Hflag. subst member.
  revert s. change (finishes (λ e, orderly e = true) (beforeStop h sources (mkCmd yes false))).
  unfold beforeStop.
  apply (finishes_bind_yields _ (λ ss, srcClient ss = Some srcConnected));
    [apply prepare_orderly | apply prepare_yields_client |].
  intros ss Hss. apply finishes_bind; [by apply gather_orderly |].
  intros rewrites. by apply finishes_ret.
Qed.

Lemma primary_orderly_before_stop_witness :
  orderly (endingOf (fst (beforeStop (scripted (calm lxdPaths incusPaths)) ["snap"]
                                     (mkCmd false false) []))) = true.
Proof. apply primary_orderly_before_stop. reflexivity. Defined.

(** ** The two confirmations *)

Lemma emits_bind_never {A B} (P : request → Prop) (m : M trace A) (k : A → M trace B) :
  emits P m → finishes (λ e, e ≠ EDone) m → emits P (bind m k).
Proof.
  intros Hm Hnever tr. destruct (Hm tr) as (l & Hl & HP). specialize (Hnever tr).
  unfold bind. destruct (m tr) as [[a| | | |] tr']; simpl in *; try done; by exists l.
Qed.






Lemma confirmUninstall_declined (w : World) (member : bool) :
  (∀ tr, w (AskBool "Uninstall the LXD package? [default=no]: " "no") tr = Ok false) →
  finishes (λ e, e ≠ EDone) (confirmUninstall (scripted w) (mkCmd false member)).
Proof.
  intros Hw tr. unfold confirmUninstall. cbn [negb flagYes]. by rewrite bind_call, Hw.
Qed.

(** X12: an operator who answers no to the last confirmation keeps the
    source installed: in a run without [--yes] the source is never purged,
    and the run never ends well (it exits with status 1 after the migration
    is done, or has ended before). *)
Theorem declined_uninstall_keeps_source (w : World) (sources : list Source) (fuel : nat)
    (c : cmdMigrate) :
  flagYes c = false →
  (∀ tr, w (AskBool "Uninstall the LXD package? [default=no]: " "no") tr = Ok false) →
  Forall (λ r, isPurge r = false) (snd (RunIn w sources fuel c))
  ∧ fst (RunIn w sources fuel c) ≠ Done tt.
Proof.
  intros Hyes Hw. destruct c as [yes member]. simpl in Hyes. subst yes.
  split.
  - assert (Hrun : emits (λ r, isPurge r = false)
                     (Run (scripted w) sources fuel (mkCmd false member))).
    { unfold Run, migrate.
      repeat first
        [ apply emits_bind_never; [emits_phase | by apply confirmUninstall_declined]
        | apply emits_bind; [emits_phase | intros ?]
        | match goal with |- emits _ (let '(_, _) := ?p in _) => destruct p end ]. }
    unfold RunIn. by destruct (Hrun []) as (l & -> & HP).
  - assert (Hrun : finishes (λ e, e ≠ EDone)
                     (Run (scripted w) sources fuel (mkCmd false member))).
    { unfold Run, migrate.
      repeat first
        [ apply finishes_bind_never; [by intros ? | by apply confirmUninstall_declined]
        | apply never_Done_bind_right; intros ?
        | match goal with |- finishes _ (let '(_, _) := ?p in _) => destruct p end ]. }
    specialize (Hrun []). unfold RunIn. intros Hdone. by rewrite Hdone in Hrun.
Qed.

Lemma declined_uninstall_keeps_source_witness :
  Forall (λ r, isPurge r = false) (snd (RunIn keepingWorld ["snap"] 2 (mkCmd false false)))
  ∧ fst (RunIn keepingWorld ["snap"] 2 (mkCmd false false)) ≠ Done tt.
Proof. apply declined_uninstall_keeps_source; reflexivity. Defined.

(** The run of this operator goes through the whole migration: the target
    is started and checked, the last request is the question about the
    uninstall, and the answer ends the run with exit status 1. *)
Example declined_uninstall_run :
  let run := RunIn keepingWorld ["snap"] 2 (mkCmd false false) in
  fst run = Exited 1
  ∧ AskBool "Proceed with the migration? [default=no]: " "no" ∈ snd run
  ∧ TargetStart targetSystemd ∈ snd run
  ∧ last (snd run) = Some (AskBool "Uninstall the LXD package? [default=no]: " "no").
Proof. cbv zeta. repeat split; vm_compute; try reflexivity; set_solver. Qed.

(** ** The rewrite commands *)

Lemma runRewriteCommand_runs (w : World) (name : string) (args : list string) (tr : trace) :
  runRewriteCommand (scripted w) (name :: args) tr
  = (match w (RunCommand name args) tr with
     | Ok _ => Done tt
     | Err e => Failed e
     end, tr ++ [RunCommand name args]).
Proof.
  unfold runRewriteCommand. rewrite bind_call. by destruct (w (RunCommand name args) tr).
Qed.

Lemma commands_run (w : World) (answer : list string → result string)
    (ran : list (list string)) (tr : trace) :
  (∀ name args tr, w (RunCommand name args) tr = answer (name :: args)) →
  Forall (λ cmd, cmd ≠ [] ∧ ∃ out, answer cmd = Ok out) ran →
  ∀ rest,
    forEach (ran ++ rest) (runRewriteCommand (scripted w)) tr
    = forEach rest (runRewriteCommand (scripted w)) (tr ++ map commandRequest ran).
Proof.
  intros Hw Hran rest. revert tr.
  induction Hran as [|cmd ran [Hcmd [out Hout]] _ IH]; intros tr; simpl;
    [by rewrite app_nil_r |].
  destruct cmd as [|name args]; [done |].
  unfold bind at 1. rewrite runRewriteCommand_runs, Hw, Hout.
  rewrite IH. unfold commandRequest at 2. simpl. by rewrite <- app_assoc.
Qed.

Lemma applyRewrites_patch (w : World) (targetPaths : DaemonPaths)
    (statements : list string) (commands : list (list string)) (tr : trace) :
  (∀ path data perm tr, w (FS (WriteFile path data perm)) tr = None) →
  applyRewrites (scripted w) targetPaths statements commands tr
  = forEach commands (runRewriteCommand (scripted w)) (tr ++ patchRequest targetPaths statements).
Proof.
  intros Hwrite. unfold applyRewrites.
  destruct statements as [|statement statements].
  - simpl. rewrite app_nil_r. by destruct commands.
  - change (0 <? Z.of_nat (length (statement :: statements))) with true. cbv iota.
    unfold bind at 1. rewrite bind_call, Hwrite. simpl. by destruct commands.
Qed.

(** X13: the rewrites are applied in the order in which they were
    gathered, and the first command that fails ends the run. When the patch
    file can be written and the commands answer the same whenever they are
    run: the patch is written first, if there is a statement at all; a list
    of commands that all succeed is run from the first to the last; and a
    command that fails after them returns its own error, not wrapped, the
    commands after it never being run. *)
Theorem rewrites_stop_at_first_failure (w : World) (answer : list string → result string)
    (targetPaths : DaemonPaths) (statements : list string)
    (ran : list (list string)) (tr : trace) :
  (∀ path data perm tr, w (FS (WriteFile path data perm)) tr = None) →
  (∀ name args tr, w (RunCommand name args) tr = answer (name :: args)) →
  Forall (λ cmd, cmd ≠ [] ∧ ∃ out, answer cmd = Ok out) ran →
  applyRewrites (scripted w) targetPaths statements ran tr
  = (Done tt, tr ++ patchRequest targetPaths statements ++ map commandRequest ran)
  ∧ ∀ name args e rest,
      answer (name :: args) = Err e →
      applyRewrites (scripted w) targetPaths statements (ran ++ (name :: args) :: rest) tr
      = (Failed e, tr ++ patchRequest targetPaths statements ++ map commandRequest ran
                      ++ [RunCommand name args]).
Proof.
  intros Hwrite Hw Hran. split.
  - rewrite applyRewrites_patch by done.
    rewrite <- (app_nil_r ran) at 1. rewrite (commands_run w answer) by done.
    simpl. by rewrite <- app_assoc.
  - intros name args e rest He.
    rewrite applyRewrites_patch by done.
    rewrite (commands_run w answer) by done.
    cbn [forEach]. unfold bind. rewrite runRewriteCommand_runs, Hw, He.
    by rewrite <- !app_assoc.
Qed.

Lemma rewrites_stop_at_first_failure_witness :
  applyRewrites (scripted secondFails) incusPaths ["UPDATE x;"] [["true"; "a"]] []
  = (Done tt, [] ++ patchRequest incusPaths ["UPDATE x;"] ++ map commandRequest [["true"; "a"]])
  ∧ ∀ name args e rest,
      (if String.eqb (hd EmptyString (name :: args)) "false"
       then Err (ExtError false "exit status 1") else Ok EmptyString) = Err e →
      applyRewrites (scripted secondFails) incusPaths ["UPDATE x;"]
                    ([["true"; "a"]] ++ (name :: args) :: rest) []
      = (Failed e, [] ++ patchRequest incusPaths ["UPDATE x;"]
                      ++ map commandRequest [["true"; "a"]] ++ [RunCommand name args]).
Proof.
  apply (rewrites_stop_at_first_failure secondFails
           (λ cmd, if String.eqb (hd EmptyString cmd) "false"
                   then Err (ExtError false "exit status 1") else Ok EmptyString)).
  - reflexivity.
  - reflexivity.
  - repeat constructor; [done | by eexists].
Defined.

(** ** The evacuation and the restoration of the cluster *)

Lemma evacuateMember_runs (w : World) (op : string → Operation) (member : ClusterMember)
    (tr : trace) :
  (∀ tr, w (SrcUpdateClusterMemberState (ServerName member) (mkStatePost "evacuate" "stop")) tr
         = Ok (op (ServerName member))) →
  (∀ tr, w (OpWait (op (ServerName member))) tr = None) →
  evacuateMember (scripted w) (Some srcConnected) member tr
  = (Done tt, tr ++ evacuation op member).
Proof.
  intros Hupdate Hwait. unfold evacuateMember. cbn [srcCall].
  rewrite bind_call, Hupdate, bind_call, Hwait. unfold ret, evacuation.
  by rewrite <- app_assoc.
Qed.

Lemma evacuated_members (w : World) (op : string → Operation) (ran rest : list ClusterMember)
    (tr : trace) :
  (∀ member tr, member ∈ ran →
     w (SrcUpdateClusterMemberState (ServerName member) (mkStatePost "evacuate" "stop")) tr
     = Ok (op (ServerName member))
     ∧ w (OpWait (op (ServerName member))) tr = None) →
  forEach (ran ++ rest) (evacuateMember (scripted w) (Some srcConnected)) tr
  = forEach rest (evacuateMember (scripted w) (Some srcConnected))
            (tr ++ flat_map (evacuation op) ran).
Proof.
  revert tr. induction ran as [|member ran IH]; intros tr Hran; [by rewrite app_nil_r |].
  cbn [app forEach flat_map].
  rewrite (bind_of_Done _ _ tr (tr ++ evacuation op member) tt).
  - rewrite IH; [by rewrite <- app_assoc |].
    intros m tr' Hm. apply Hran. by right.
  - apply evacuateMember_runs; intros tr'; apply Hran; by left.
Qed.

(** X14: the evacuation goes through the members of the source cluster in
    the order of their list, waits for each one, and stops at the first
    member that cannot be evacuated: the members after it are not asked to
    stop their workloads, and the error names the member. *)
Theorem evacuation_stops_at_first_failure (w : World) (op : string → Operation) (yes : bool)
    (ran : list ClusterMember) (member : ClusterMember) (rest : list ClusterMember)
    (e : error) (tr : trace) :
  (∀ tr, w (Getenv "CLUSTER_NO_EVACUTE") tr ≠ "1") →
  (∀ tr, w SrcGetClusterMembers tr = Ok (ran ++ member :: rest)) →
  (∀ m tr, m ∈ ran →
     w (SrcUpdateClusterMemberState (ServerName m) (mkStatePost "evacuate" "stop")) tr
     = Ok (op (ServerName m))
     ∧ w (OpWait (op (ServerName m))) tr = None) →
  (∀ tr, w (SrcUpdateClusterMemberState (ServerName member) (mkStatePost "evacuate" "stop")) tr
         = Err e) →
  evacuatePhase (scripted w) (mkCmd yes false) true (Some srcConnected) tr
  = (Failed (ErrorfWrap "Failed to stop workloads %q: %w" [ServerName member] e),
     tr ++ [Getenv "CLUSTER_NO_EVACUTE"; SrcGetClusterMembers]
        ++ flat_map (evacuation op) ran
        ++ [SrcUpdateClusterMemberState (ServerName member) (mkStatePost "evacuate" "stop")]).
Proof.
  intros Henv Hmembers Hran Hfail. unfold evacuatePhase.
  cbn [negb andb flagClusterMember srcCall]. rewrite bind_call.
  destruct (String.eqb_spec (w (Getenv "CLUSTER_NO_EVACUTE") tr) "1") as [Heq|_];
    [by apply Henv in Heq |].
  cbn [negb]. rewrite bind_call, Hmembers.
  rewrite (evacuated_members w op) by done.
  cbn [forEach]. unfold bind at 1. unfold evacuateMember. cbn [srcCall].
  rewrite bind_call, Hfail. unfold fail. by rewrite <- !app_assoc.
Qed.

Lemma evacuation_stops_at_first_failure_witness :
  evacuatePhase (scripted clusterWorld) (mkCmd true false) true (Some srcConnected) []
  = (Failed (ErrorfWrap "Failed to stop workloads %q: %w" ["node2"] (ExtError false "busy")),
     [] ++ [Getenv "CLUSTER_NO_EVACUTE"; SrcGetClusterMembers]
        ++ flat_map (evacuation opOf) [mkMember "node1" "Online" "Fully operational"]
        ++ [SrcUpdateClusterMemberState "node2" (mkStatePost "evacuate" "stop")]).
Proof.
  apply (evacuation_stops_at_first_failure clusterWorld opOf true
           [mkMember "node1" "Online" "Fully operational"]
           (mkMember "node2" "Online" "Fully operational")
           [mkMember "node3" "Online" "Fully operational"]).
  - done.
  - reflexivity.
  - intros m tr Hm. apply list_elem_of_singleton in Hm as ->. by split.
  - reflexivity.
Defined.

Lemma restoreMember_runs (w : World) (op : string → Operation) (member : ClusterMember)
    (tr : trace) :
  (∀ tr, w (TgtUpdateClusterMemberState (ServerName member) (mkStatePost "restore" "")) tr
         = Ok (op (ServerName member))) →
  (∀ tr, w (OpWait (op (ServerName member))) tr = None) →
  restoreMember (scripted w) member tr = (Done tt, tr ++ restoration op member).
Proof.
  intros Hupdate Hwait. unfold restoreMember.
  rewrite bind_call, Hupdate, bind_call, Hwait. unfold ret, restoration.
  by rewrite <- app_assoc.
Qed.

(** X15: after the migration every member of the target cluster gets its
    workloads back, in the order of the list of the target, each restore
    being waited for before the next member is asked; members that were
    evacuated before the migration began are restored like the others. *)
Theorem restore_in_member_order (w : World) (op : string → Operation) (yes : bool)
    (members : list ClusterMember) (tr : trace) :
  (∀ tr, w TgtGetClusterMembers tr = Ok members) →
  (∀ m tr, m ∈ members →
     w (TgtUpdateClusterMemberState (ServerName m) (mkStatePost "restore" "")) tr
     = Ok (op (ServerName m))
     ∧ w (OpWait (op (ServerName m))) tr = None) →
  restorePhase (scripted w) (mkCmd yes false) true tr
  = (Done tt, tr ++ TgtGetClusterMembers :: flat_map (restoration op) members).
Proof.
  intros Hmembers Hall. unfold restorePhase. cbn [negb andb flagClusterMember].
  rewrite bind_call, Hmembers. clear Hmembers.
  replace (tr ++ TgtGetClusterMembers :: flat_map (restoration op) members)
    with ((tr ++ [TgtGetClusterMembers]) ++ flat_map (restoration op) members)
    by (by rewrite <- app_assoc).
  generalize (tr ++ [TgtGetClusterMembers]). clear tr.
  induction members as [|member members IH]; intros tr; [by rewrite app_nil_r |].
  cbn [forEach flat_map].
  rewrite (bind_of_Done _ _ tr (tr ++ restoration op member) tt).
  - rewrite IH; [by rewrite <- app_assoc |].
    intros m tr' Hm. apply Hall. by right.
  - apply restoreMember_runs; intros tr'; apply Hall; by left.
Qed.

Lemma restore_in_member_order_witness :
  restorePhase (scripted clusterWorld) (mkCmd true false) true []
  = (Done tt, [] ++ TgtGetClusterMembers :: flat_map (restoration opOf) threeMembers).
Proof.
  apply restore_in_member_order; [reflexivity |].
  intros m tr Hm. by split.
Defined.

(** ** The listing of the pools of a cluster *)

Lemma memberPools_lists (w : World) (pool : string → string → StoragePool)
    (member : string) (poolNames : list string) (storagePools : list StoragePool) (tr : trace) :
  (∀ m p tr, w (SrcGetStoragePool m p) tr = Ok (pool m p)) →
  memberPools (scripted w) (Some srcConnected) member poolNames storagePools tr
  = (Done (storagePools ++ map (pool member) poolNames),
     tr ++ map (SrcGetStoragePool member) poolNames).
Proof.
  intros Hpool. revert storagePools tr.
  induction poolNames as [|p rest IH]; intros storagePools tr.
  - simpl. by rewrite !app_nil_r.
  - cbn [memberPools srcCall]. rewrite bind_call, Hpool, IH. simpl.
    by rewrite <- !app_assoc.
Qed.

(** X16: on a cluster the pools are listed member by member: for each
    member, in the order of the member list, the names of its pools are
    fetched and then each pool, in the order of the names. A pool that every
    member has is therefore listed once for each member. *)
Theorem cluster_pools_listed_per_member (w : World) (names : string → list string)
    (pool : string → string → StoragePool) (clusterMembers : list ClusterMember) (tr : trace) :
  (∀ tr, w SrcGetClusterMembers tr = Ok clusterMembers) →
  (∀ m tr, w (SrcGetStoragePoolNames m) tr = Ok (names m)) →
  (∀ m p tr, w (SrcGetStoragePool m p) tr = Ok (pool m p)) →
  listStoragePools (scripted w) true (Some srcConnected) tr
  = (Done (flat_map (λ member, map (pool (ServerName member)) (names (ServerName member)))
                    clusterMembers),
     tr ++ SrcGetClusterMembers :: flat_map (memberListing names) clusterMembers).
Proof.
  intros Hmembers Hnames Hpool. unfold listStoragePools. cbn [negb srcCall].
  rewrite bind_call, Hmembers. clear Hmembers.
  replace (tr ++ SrcGetClusterMembers :: flat_map (memberListing names) clusterMembers)
    with ((tr ++ [SrcGetClusterMembers]) ++ flat_map (memberListing names) clusterMembers)
    by (by rewrite <- app_assoc).
  generalize (tr ++ [SrcGetClusterMembers]). clear tr.
  change (flat_map (λ member, map (pool (ServerName member)) (names (ServerName member)))
                   clusterMembers)
    with ([] ++ flat_map (λ member, map (pool (ServerName member)) (names (ServerName member)))
                         clusterMembers).
  generalize (@nil StoragePool).
  induction clusterMembers as [|member rest IH]; intros storagePools tr.
  - simpl. by rewrite !app_nil_r.
  - cbn [clusterPools srcCall flat_map]. rewrite bind_call, Hnames.
    rewrite (bind_of_Done _ _ _ _ _ (memberPools_lists w pool _ _ _ _ Hpool)).
    rewrite IH. unfold memberListing at 2. simpl. by rewrite <- !app_assoc.
Qed.

Lemma cluster_pools_listed_per_member_witness :
  listStoragePools (scripted clusterWorld) true (Some srcConnected) []
  = (Done (flat_map (λ member,
             map (λ name, mkPool name "dir" ∅)
                 (if String.eqb (ServerName member) "node1" then ["default"; "tank"]
                  else ["default"]))
             threeMembers),
     [] ++ SrcGetClusterMembers
        :: flat_map (memberListing (λ m, if String.eqb m "node1" then ["default"; "tank"]
                                         else ["default"]))
                    threeMembers).
Proof.
  apply (cluster_pools_listed_per_member clusterWorld
           (λ m, if String.eqb m "node1" then ["default"; "tank"] else ["default"])
           (λ _ name, mkPool name "dir" ∅)); reflexivity.
Defined.

(** ** The prompt of the first server *)

(** X17: on the first server of a cluster the operator is asked again and
    again until the answer is yes: an answer that is no and an answer that is
    an error are both followed by the same question. When the first yes is
    the answer to the question number [n + 1], the question is asked [n + 1]
    times and the wait ends well. *)
Theorem started_prompt_repeats (w : World) (fuel n : nat) (tr : trace) :
  (∀ k, (k < n)%nat → w startedPrompt (tr ++ replicate k startedPrompt) ≠ Ok true) →
  w startedPrompt (tr ++ replicate n startedPrompt) = Ok true →
  (n < fuel)%nat →
  askStarted (scripted w) fuel tr = (Done tt, tr ++ replicate (S n) startedPrompt).
Proof.
  revert fuel tr. induction n as [|n IH]; intros fuel tr Hno Hyes Hfuel;
    (destruct fuel as [|fuel]; [lia |]); cbn [askStarted]; fold startedPrompt;
    rewrite bind_call.
  - simpl in Hyes. rewrite app_nil_r in Hyes. by rewrite Hyes.
  - assert (Hfirst : w startedPrompt tr ≠ Ok true).
    { specialize (Hno 0%nat ltac:(lia)). simpl in Hno. by rewrite app_nil_r in Hno. }
    assert (Hrest : askStarted (scripted w) fuel (tr ++ [startedPrompt])
                    = (Done tt, (tr ++ [startedPrompt]) ++ replicate (S n) startedPrompt)).
    { apply IH; [| | lia].
      - intros k Hk. rewrite <- app_assoc. apply (Hno (S k)). lia.
      - rewrite <- app_assoc. apply Hyes. }
    rewrite <- app_assoc in Hrest.
    destruct (w startedPrompt tr) as [[]|e]; [done | apply Hrest | apply Hrest].
Qed.

Lemma started_prompt_repeats_witness :
  askStarted (scripted hesitant) 5 [] = (Done tt, [] ++ replicate 3 startedPrompt).
Proof.
  apply (started_prompt_repeats hesitant 5 2 []); [| reflexivity | lia].
  intros [|[|k]] Hk; [done | done | lia].
Defined.

(** ** What a run holds back *)

Lemma evacuatePhase_disabled (w : World) (c : cmdMigrate) (cl : bool)
    (client : option SrcClient) :
  (∀ tr, w (Getenv "CLUSTER_NO_EVACUTE") tr = "1") →
  emits (λ r, isEvacuate r = false) (evacuatePhase (scripted w) c cl client).
Proof.
  intros Hw. unfold evacuatePhase.
  destruct (negb (flagClusterMember c) && cl); [| apply emits_ret].
  intros tr. rewrite bind_call, Hw. exists [Getenv "CLUSTER_NO_EVACUTE"].
  split; [done | by repeat constructor].
Qed.

(** X18: the variable [CLUSTER_NO_EVACUTE] (spelled as in the code)
    switches the evacuation off: when it is 1, no run asks any member of the
    source cluster to stop its workloads. *)
Theorem evacuation_can_be_disabled (w : World) (sources : list Source) (fuel : nat)
    (c : cmdMigrate) :
  (∀ tr, w (Getenv "CLUSTER_NO_EVACUTE") tr = "1") →
  Forall (λ r, isEvacuate r = false) (snd (RunIn w sources fuel c)).
Proof.
  intros Hw.
  assert (Hrun : emits (λ r, isEvacuate r = false) (Run (scripted w) sources fuel c)).
  { unfold Run. apply emits_bind; [emits_phase | intros ss].
    apply emits_bind; [| intros [statements commands]; emits_phase].
    unfold gather.
    apply emits_bind; [emits_phase | intros [statements commands]].
    apply emits_bind; [emits_phase | intros commands'].
    apply emits_bind; [emits_phase | intros _].
    apply emits_bind; [by apply evacuatePhase_disabled | intros _; apply emits_ret]. }
  unfold RunIn. by destruct (Hrun []) as (l & -> & HP).
Qed.

Lemma evacuation_can_be_disabled_witness :
  Forall (λ r, isEvacuate r = false) (snd (RunIn noEvacuateWorld ["snap"] 2 (mkCmd true false))).
Proof. apply evacuation_can_be_disabled. reflexivity. Defined.

Lemma migrateDatabase_fails (w : World) (targetPaths : DaemonPaths) :
  (∀ dir tr, w (MigrateDatabase dir) tr ≠ None) →
  finishes (λ e, e ≠ EDone) (migrateDatabasePhase (scripted w) targetPaths).
Proof.
  intros Hw tr. unfold migrateDatabasePhase. cbv zeta. rewrite bind_call.
  destruct (w (MigrateDatabase _) tr) eqn:Hanswer; [done | by apply Hw in Hanswer].
Qed.

(** X19: a database that cannot be migrated ends the run before the
    target is touched again: when the migration of the database fails, no
    patch is written, the target is not started, no member is restored and
    the source is not purged, and the run does not end well. *)
Theorem failed_database_migration_stops (w : World) (sources : list Source) (fuel : nat)
    (c : cmdMigrate) :
  (∀ dir tr, w (MigrateDatabase dir) tr ≠ None) →
  Forall (λ r, needsDatabase r = false) (snd (RunIn w sources fuel c))
  ∧ fst (RunIn w sources fuel c) ≠ Done tt.
Proof.
  intros Hw. split.
  - assert (Hrun : emits (λ r, needsDatabase r = false) (Run (scripted w) sources fuel c)).
    { unfold Run, migrate.
      repeat first
        [ apply emits_bind_never; [emits_phase | by apply migrateDatabase_fails]
        | apply emits_bind; [emits_phase | intros ?]
        | match goal with |- emits _ (let '(_, _) := ?p in _) => destruct p end ]. }
    unfold RunIn. by destruct (Hrun []) as (l & -> & HP).
  - assert (Hrun : finishes (λ e, e ≠ EDone) (Run (scripted w) sources fuel c)).
    { unfold Run, migrate.
      repeat first
        [ apply finishes_bind_never; [by intros ? | by apply migrateDatabase_fails]
        | apply never_Done_bind_right; intros ?
        | match goal with |- finishes _ (let '(_, _) := ?p in _) => destruct p end ]. }
    specialize (Hrun []). unfold RunIn. intros Hdone. by rewrite Hdone in Hrun.
Qed.

Lemma failed_database_migration_stops_witness :
  Forall (λ r, needsDatabase r = false) (snd (RunIn brokenDatabase ["snap"] 2 (mkCmd true false)))
  ∧ fst (RunIn brokenDatabase ["snap"] 2 (mkCmd true false)) ≠ Done tt.
Proof. apply failed_database_migration_stops. done. Defined.

Lemma validateTarget_fails (w : World) :
  (∀ tr info, w TgtGetServer tr ≠ Ok info) →
  finishes (λ e, e ≠ EDone) (validateTarget (scripted w)).
Proof.
  intros Hw tr. unfold validateTarget. rewrite bind_call.
  destruct (w TgtGetServer tr) eqn:Hanswer; [by apply Hw in Hanswer | done].
Qed.

(** X20: the source is kept as long as the target does not answer: when
    the target daemon, once started, does not return its server information,
    no member is restored, the operator is not asked about the uninstall and
    the source is not purged, and the run does not end well. *)
Theorem source_kept_when_target_is_down (w : World) (sources : list Source) (fuel : nat)
    (c : cmdMigrate) :
  (∀ tr info, w TgtGetServer tr ≠ Ok info) →
  Forall (λ r, needsTarget r = false) (snd (RunIn w sources fuel c))
  ∧ fst (RunIn w sources fuel c) ≠ Done tt.
Proof.
  intros Hw. split.
  - assert (Hrun : emits (λ r, needsTarget r = false) (Run (scripted w) sources fuel c)).
    { unfold Run, migrate.
      repeat first
        [ apply emits_bind_never; [emits_phase | by apply validateTarget_fails]
        | apply emits_bind; [emits_phase | intros ?]
        | match goal with |- emits _ (let '(_, _) := ?p in _) => destruct p end ]. }
    unfold RunIn. by destruct (Hrun []) as (l & -> & HP).
  - assert (Hrun : finishes (λ e, e ≠ EDone) (Run (scripted w) sources fuel c)).
    { unfold Run, migrate.
      repeat first
        [ apply finishes_bind_never; [by intros ? | by apply validateTarget_fails]
        | apply never_Done_bind_right; intros ?
        | match goal with |- finishes _ (let '(_, _) := ?p in _) => destruct p end ]. }
    specialize (Hrun []). unfold RunIn. intros Hdone. by rewrite Hdone in Hrun.
Qed.

Lemma source_kept_when_target_is_down_witness :
  Forall (λ r, needsTarget r = false) (snd (RunIn deadTarget ["snap"] 2 (mkCmd false false)))
  ∧ fst (RunIn deadTarget ["snap"] 2 (mkCmd false false)) ≠ Done tt.
Proof. apply source_kept_when_target_is_down. done. Defined.

(** ** The repair of a stale symlink *)

(** X21: the repair rewrites the first instance of the source root in a
    symlink, wherever it stands: a symlink whose target holds the source root
    at index [j] is removed and created again with the target root in its
    place, the text before and after it kept; nothing else in the file system
    changes and no error is returned. *)
Theorem stale_link_repaired (sourcePaths targetPaths : DaemonPaths) (dir : string)
    (entry : DirEntry) (fs : gmap string node) (oldTarget : string) (j : nat) :
  let srcPath := GoFilepath.Join [Daemon targetPaths; dir; entryName entry] in
  Z.land (entryType entry) ModeSymlink = ModeSymlink →
  fs !! srcPath = Some (Link oldTarget) →
  Index oldTarget (Daemon sourcePaths) = Some j →
  repairEntry fsModel sourcePaths targetPaths dir entry fs
  = (Done tt,
     <[srcPath := Link (sliceTo j oldTarget +:+ Daemon targetPaths
                        +:+ sliceFrom (j + String.length (Daemon sourcePaths)) oldTarget)]> fs).
Proof.
  intros srcPath Htype Hlink Hindex.
  unfold repairEntry. fold srcPath. rewrite Htype, Z.eqb_refl. cbn [negb].
  unfold bind, fsCall, fsModel, ret. simpl.
  rewrite Hlink. simpl. rewrite Replace_first, Hindex.
  rewrite Hlink. simpl. rewrite lookup_delete_eq. simpl.
  by rewrite insert_delete_eq.
Qed.

Lemma stale_link_repaired_witness :
  repairEntry fsModel lxdPaths incusPaths "containers" (mkEntry "c1" ModeSymlink) nestedTree
  = (Done tt,
     <["/var/lib/incus/containers/c1" :=
         Link ("/mnt" +:+ "/var/lib/incus"
               +:+ "/storage-pools/default/containers/c1")]> nestedTree).
Proof.
  exact (stale_link_repaired lxdPaths incusPaths "containers" (mkEntry "c1" ModeSymlink)
           nestedTree "/mnt/var/lib/lxd/storage-pools/default/containers/c1" 4
           eq_refl eq_refl eq_refl).
Defined.

(** X22: the whole repair leaves a repaired tree alone: on a file system
    in which each of the five directories of instances is a directory or is
    absent, and no symlink directly under them (an entry whose name is a file
    name) holds the source root, the loop over the directories and their
    entries returns no error and changes nothing, whatever else the
    directories hold: files, directories, and stale symlinks further down. *)
Theorem repaired_tree_left_alone (sourcePaths targetPaths : DaemonPaths)
    (fs : gmap string node) :
  (∀ dir name target,
     dir ∈ instanceDirs → plainName name = true →
     fs !! (GoFilepath.Join [Daemon targetPaths; dir] +:+ "/" +:+ name) = Some (Link target) →
     Index target (Daemon sourcePaths) = None) →
  (∀ dir,
     dir ∈ instanceDirs →
     fs !! GoFilepath.Join [Daemon targetPaths; dir] = None
     ∨ fs !! GoFilepath.Join [Daemon targetPaths; dir] = Some Dir) →
  repairSymlinks fsModel sourcePaths targetPaths fs = (Done tt, fs).
Proof. intros Hrepaired Hdirs. by apply repairSymlinks_unchanged. Qed.

Lemma repaired_tree_left_alone_witness :
  repairSymlinks fsModel lxdPaths incusPaths deepTree = (Done tt, deepTree).
Proof.
  apply repaired_tree_left_alone.
  - intros dir name target Hdir Hname. unfold instanceDirs in Hdir.
    rewrite !elem_of_cons, elem_of_nil in Hdir. unfold deepTree.
    destruct Hdir as [->|[->|[->|[->|[->|[]]]]]];
      rewrite !lookup_insert_Some, lookup_singleton_Some;
      intros [[Hkey Hnode]|[_ [[Hkey Hnode]|[_ [[Hkey Hnode]|[_ [[Hkey Hnode]|[_ [Hkey Hnode]]]]]]]]];
      try discriminate Hnode; vm_compute in Hkey; simplify_eq;
      try discriminate Hname; reflexivity.
  - intros dir Hdir. unfold instanceDirs in Hdir.
    rewrite !elem_of_cons, elem_of_nil in Hdir.
    destruct Hdir as [->|[->|[->|[->|[->|[]]]]]]; vm_compute; auto.
Defined.

(** ** No panic on the first server *)

Section FinishesLoops.
Context {σ : Type}.
Variable h : handler σ.
Variable K : ending → Prop.
Hypothesis K_Done : K EDone.
Hypothesis K_Running : K ERunning.

Lemma finishes_askStarted (fuel : nat) : finishes K (askStarted h fuel).
Proof.
  induction fuel as [|fuel IH]; simpl; [by apply finishes_running |].
  apply finishes_bind; [by apply (finishes_call K h (AskBool _ _)) |].
  intros [[]|e]; [by apply finishes_ret | apply IH | apply IH].
Qed.

Lemma finishes_membersReady (clusterMembers : list ClusterMember) :
  finishes K (membersReady h clusterMembers).
Proof.
  induction clusterMembers as [|member rest IH]; simpl; [by apply finishes_ret |].
  apply finishes_bind.
  - unfold memberReady.
    apply finishes_bind; [by apply (finishes_call K h (TgtGetServerOf _)) |].
    intros [info|e]; repeat case_match; by apply finishes_ret.
  - intros []; [apply IH | by apply finishes_ret].
Qed.

Lemma finishes_waitReady (fuel : nat) : finishes K (waitReady h fuel).
Proof.
  induction fuel as [|fuel IH]; simpl; [by apply finishes_running |].
  apply finishes_bind; [by apply (finishes_call K h TgtGetClusterMembers) |].
  intros [clusterMembers|e].
  - apply finishes_bind; [apply finishes_membersReady |].
    intros []; simpl; [by apply finishes_ret |].
    apply finishes_bind; [by apply (finishes_call K h (Sleep _)) | intros _; apply IH].
  - apply finishes_bind; [by apply (finishes_call K h (Sleep _)) | intros _; apply IH].
Qed.

Lemma finishes_forEach_Forall {A} (l : list A) (body : A → M σ unit) :
  Forall (λ x, finishes K (body x)) l → finishes K (forEach l body).
Proof.
  induction 1 as [|x l Hx _ IH]; simpl; [by apply finishes_ret |].
  apply finishes_bind; [done | intros _; apply IH].
Qed.
End FinishesLoops.

Ltac finishes_run :=
  repeat first
    [ lazymatch goal with
      | |- finishes _ (ret _) => apply finishes_ret; by simpl
      | |- finishes _ (fail _) => apply finishes_fail; by simpl
      | |- finishes _ (exit _) => apply finishes_exit; by simpl
      | |- finishes _ running => apply finishes_running; by simpl
      | |- finishes ?K (call ?h ?r) => apply (finishes_call K h r); by simpl
      | |- finishes ?K (fsCall ?h ?q) => apply (finishes_fsCall K h q); by simpl
      | |- finishes _ (askStarted _ _) => apply finishes_askStarted; by simpl
      | |- finishes _ (waitReady _ _) => apply finishes_waitReady; by simpl
      | |- finishes _ (bind _ _) => apply finishes_bind; [| intros ?]
      | |- finishes _ (forEach _ _) => apply finishes_forEach; [by simpl | intros ?]
      | |- finishes _ (match ?x with _ => _ end) => destruct x
      end
    | progress (autounfold with phases; cbn [negb andb orb flagClusterMember flagYes]) ].

Lemma applyRewrites_never_panics {σ} (h : handler σ) (targetPaths : DaemonPaths)
    (statements : list string) (commands : list (list string)) :
  [] ∉ commands →
  finishes (λ e, e ≠ EPanicked) (applyRewrites h targetPaths statements commands).
Proof.
  intros Hcommands. unfold applyRewrites.
  apply finishes_bind; [finishes_run | intros _].
  destruct (0 <? _); [| by apply finishes_ret].
  apply finishes_forEach_Forall; [done |].
  apply Forall_forall. intros [|name args] Hin; [done |]. finishes_run.
Qed.

Lemma migrate_never_panics {σ} (h : handler σ) (fuel : nat) (c : cmdMigrate) (ss : session)
    (statements : list string) (commands : list (list string)) :
  [] ∉ commands →
  finishes (λ e, e ≠ EPanicked) (migrate h fuel c ss statements commands).
Proof.
  intros Hcommands. unfold migrate.
  do 5 (apply finishes_bind; [finishes_run | intros _]).
  apply finishes_bind; [by apply applyRewrites_never_panics | intros _].
  finishes_run.
Qed.

Lemma renames_not_empty (sourcePaths targetPaths : DaemonPaths) (pools : list StoragePool) :
  [] ∉ rewriteCommands (manglePools sourcePaths targetPaths pools noRewrites).
Proof.
  rewrite manglePools_commands. simpl.
  intros (pool & Hcmd & _)%list_elem_of_fmap. discriminate Hcmd.
Qed.

Lemma gather_yields_commands (w : World) (yes : bool) (ss : session) :
  (∀ nb sb tr commands, w (OvnConvert nb sb) tr = Ok commands → [] ∉ commands) →
  (∀ tr commands, w OvsConvert tr = Ok commands → [] ∉ commands) →
  yields (λ p, [] ∉ p.2) (gather (scripted w) (mkCmd yes false) ss).
Proof.
  intros Hovn Hovs. unfold gather.
  apply (yields_bind_pre (λ p, [] ∉ p.2)).
  { unfold mangleStoragePools. cbn [negb flagClusterMember].
    apply yields_bind. intros pools. apply yields_ret. apply renames_not_empty. }
  intros [statements commands] Hcommands. simpl in Hcommands.
  apply (yields_bind_pre (λ commands', [] ∉ commands')).
  { unfold mangleOVS. apply yields_bind. intros [info|e]; [| apply yields_fail].
    destruct (ServerConfig info !! "network.ovn.northbound_connection") as [[ovnNB|]|];
      try by apply yields_ret.
    destruct (negb (String.eqb ovnNB "")); [| by apply yields_ret].
    apply (yields_bind_pre (λ commands', [] ∉ commands')).
    - unfold mangleOVN. cbn [negb flagClusterMember].
      apply yields_bind. intros [out|e]; [| apply yields_fail].
      apply (yields_bind_pre (λ a, ∃ tr, a = w (OvnConvert ovnNB _) tr));
        [apply yields_call_scripted |].
      intros a [tr ->].
      destruct (w (OvnConvert _ _) tr) as [ovn|e] eqn:Hanswer; [| apply yields_fail].
      apply yields_ret. apply not_elem_of_app. split; [done | by eapply Hovn].
    - intros commands' Hcommands'.
      apply (yields_bind_pre (λ a, ∃ tr, a = w OvsConvert tr)); [apply yields_call_scripted |].
      intros a [tr ->].
      destruct (w OvsConvert tr) as [ovs|e] eqn:Hanswer; [| apply yields_fail].
      apply yields_ret. apply not_elem_of_app. split; [done | by eapply Hovs]. }
  intros commands' Hcommands'.
  apply yields_bind. intros _. apply yields_bind. intros _. by apply yields_ret.
Qed.

Lemma orderly_not_panic (e : ending) : orderly e = true → e ≠ EPanicked.
Proof. by destruct e. Qed.

(** X23: on the first server [Run] never panics, provided that the
    conversions of OVN and OVS return no empty command: the source client is
    connected before its first use, the commands gathered from the pools have
    a name, and nothing else can panic. (On the other servers of a cluster
    the source client is nil, see C10.) *)
Theorem primary_never_panics (w : World) (sources : list Source) (fuel : nat)
    (c : cmdMigrate) :
  flagClusterMember c = false →
  (∀ nb sb tr commands, w (OvnConvert nb sb) tr = Ok commands → [] ∉ commands) →
  (∀ tr commands, w OvsConvert tr = Ok commands → [] ∉ commands) →
  fst (RunIn w sources fuel c) ≠ Panicked.
Proof.
  intros Hflag Hovn Hovs. destruct c as [yes member]. simpl in Hflag. subst member.
  assert (Hrun : finishes (λ e, e ≠ EPanicked)
                   (Run (scripted w) sources fuel (mkCmd yes false))).
  { unfold Run.
    apply (finishes_bind_yields _ (λ ss, srcClient ss = Some srcConnected));
      [ eapply finishes_weaken; [apply orderly_not_panic | apply prepare_orderly]
      | apply prepare_yields_client |].
    intros ss Hss.
    apply (finishes_bind_yields _ (λ p, [] ∉ p.2));
      [ eapply finishes_weaken; [apply orderly_not_panic | by apply gather_orderly]
      | by apply gather_yields_commands |].
    intros [statements commands] Hcommands. by apply migrate_never_panics. }
  specialize (Hrun []). unfold RunIn. intros Hpanic. by rewrite Hpanic in Hrun.
Qed.

Lemma primary_never_panics_witness :
  fst (RunIn (calm lxdPaths incusPaths) ["snap"] 2 (mkCmd true false)) ≠ Panicked.
Proof.
  apply primary_never_panics; [reflexivity | |].
  - intros nb sb tr commands [= <-]. apply not_elem_of_nil.
  - intros tr commands [= <-]. apply not_elem_of_nil.
Defined.

(** ** The address of the OVN southbound database *)

Lemma hasQuote_app (a b : string) : hasQuote (a +:+ b) = hasQuote a || hasQuote b.
Proof.
  induction a as [|c a IH]; [done |].
  rewrite append_cons. simpl. by rewrite IH, orb_assoc.
Qed.

(** The text before the first double quote holds none, and what follows
    the quote is shorter than the string. *)
Lemma Index_quote (s : string) :
  match Index s doubleQuote with
  | None => hasQuote s = false
  | Some j =>
      hasQuote (sliceTo j s) = false
      ∧ (String.length (sliceFrom (j + 1) s) < String.length s)%nat
  end.
Proof.
  induction s as [|c s IH]; [done |].
  unfold doubleQuote in *. cbn [Index HasPrefix hasQuote].
  destruct (Ascii.eqb (ascii_of_nat 34) c) eqn:Hc.
  - split; [done |]. simpl. lia.
  - destruct (Index s (String (ascii_of_nat 34) "")) as [j|]; [| done].
    cbn [fmap option_fmap option_map sliceTo sliceFrom Nat.add hasQuote String.length].
    rewrite Hc. destruct IH as [IH1 IH2]. split; [done | lia].
Qed.

Lemma replaceFrom_noQuote (fuel : nat) (first : bool) (rest : string) (n : Z) :
  n < 0 → (String.length rest < fuel)%nat →
  hasQuote (replaceFrom fuel first rest doubleQuote "" n) = false.
Proof.
  revert first rest n. induction fuel as [|fuel IH]; intros first rest n Hn Hfuel; [lia |].
  cbn [replaceFrom]. destruct (Z.eqb_spec n 0) as [|_]; [lia |].
  change (match doubleQuote with
          | EmptyString =>
              if first then Some 0%nat
              else match rest with EmptyString => None | String _ _ => Some 1%nat end
          | String _ _ => Index rest doubleQuote
          end) with (Index rest doubleQuote).
  pose proof (Index_quote rest) as Hindex.
  destruct (Index rest doubleQuote) as [j|]; [| done].
  destruct Hindex as [Hbefore Hafter].
  rewrite append_nil, hasQuote_app, Hbefore. cbn [orb].
  apply IH; [lia |]. change (String.length doubleQuote) with 1%nat. lia.
Qed.

Lemma trimLeft_noQuote (s : string) : hasQuote s = false → hasQuote (trimLeft s) = false.
Proof.
  remember (String.length s) as n eqn:Hn. revert s Hn.
  induction n as [n IH] using lt_wf_ind. intros s -> Hs.
  destruct s as [|c1 s1]; [done |]. cbn [trimLeft].
  pose proof Hs as Hs1. cbn [hasQuote] in Hs1. apply orb_false_iff in Hs1 as [_ Hs1].
  destruct (isSpace c1); [by apply (IH (String.length s1)); simpl; try lia |].
  destruct s1 as [|c2 s2]; [done |].
  pose proof Hs1 as Hs2. cbn [hasQuote] in Hs2. apply orb_false_iff in Hs2 as [_ Hs2].
  destruct (isSpace2 c1 c2); [by apply (IH (String.length s2)); simpl; try lia |].
  destruct s2 as [|c3 s3]; [done |].
  pose proof Hs2 as Hs3. cbn [hasQuote] in Hs3. apply orb_false_iff in Hs3 as [_ Hs3].
  destruct (isSpace3 c1 c2 c3); [by apply (IH (String.length s3)); simpl; try lia | done].
Qed.

Lemma trimLeftReversed_noQuote (s : string) :
  hasQuote s = false → hasQuote (trimLeftReversed s) = false.
Proof.
  remember (String.length s) as n eqn:Hn. revert s Hn.
  induction n as [n IH] using lt_wf_ind. intros s -> Hs.
  destruct s as [|c1 s1]; [done |]. cbn [trimLeftReversed].
  pose proof Hs as Hs1. cbn [hasQuote] in Hs1. apply orb_false_iff in Hs1 as [_ Hs1].
  destruct (isSpace c1); [by apply (IH (String.length s1)); simpl; try lia |].
  destruct s1 as [|c2 s2]; [done |].
  pose proof Hs1 as Hs2. cbn [hasQuote] in Hs2. apply orb_false_iff in Hs2 as [_ Hs2].
  destruct (isSpace2 c2 c1); [by apply (IH (String.length s2)); simpl; try lia |].
  destruct s2 as [|c3 s3]; [done |].
  pose proof Hs2 as Hs3. cbn [hasQuote] in Hs3. apply orb_false_iff in Hs3 as [_ Hs3].
  destruct (isSpace3 c3 c2 c1); [by apply (IH (String.length s3)); simpl; try lia | done].
Qed.

Lemma hasQuote_reverseOnto (s acc : string) :
  hasQuote (reverseOnto s acc) = hasQuote s || hasQuote acc.
Proof.
  revert acc. induction s as [|c s IH]; intros acc; [done |].
  cbn [reverseOnto]. rewrite IH. cbn [hasQuote].
  by destruct (Ascii.eqb _ c), (hasQuote s), (hasQuote acc).
Qed.

Lemma trimRight_noQuote (s : string) : hasQuote s = false → hasQuote (trimRight s) = false.
Proof.
  intros Hs. unfold trimRight. rewrite hasQuote_reverseOnto, orb_false_r.
  apply trimLeftReversed_noQuote. by rewrite hasQuote_reverseOnto, Hs.
Qed.

Lemma southbound_noQuote (out : string) :
  hasQuote (TrimSpace (Replace out doubleQuote "" (-1))) = false.
Proof.
  unfold TrimSpace. apply trimRight_noQuote, trimLeft_noQuote.
  unfold Replace. change (String.eqb doubleQuote "") with false. cbv iota.
  apply replaceFrom_noQuote; lia.
Qed.

Lemma mangleOVS_clean (w : World) (c : cmdMigrate) (client : option SrcClient)
    (commands : list (list string)) :
  emits cleanConversion (mangleOVS (scripted w) c client commands).
Proof.
  unfold mangleOVS. apply emits_bind; [emits_phase | intros [info|e]]; [| apply emits_fail].
  destruct (ServerConfig info !! "network.ovn.northbound_connection") as [[ovnNB|]|];
    try apply emits_ret.
  destruct (String.eqb_spec ovnNB "") as [->|Hnb]; cbn [negb]; [apply emits_ret |].
  apply emits_bind; [| intros commands'; emits_phase].
  unfold mangleOVN. destruct (negb (flagClusterMember c)); [| apply emits_ret].
  apply emits_bind; [emits_phase | intros [out|e]]; [| apply emits_fail].
  cbv zeta. apply emits_bind; [| intros [ovn|e]; emits_phase].
  apply (emits_call w cleanConversion (OvnConvert ovnNB _)).
  split; [done | apply southbound_noQuote].
Qed.

(** X24: the OVN conversion is only asked for with a northbound address
    that is not empty, and every double quote of the output of [ovs-vsctl]
    is taken out of the southbound address before it is handed over, not
    only the pair around it. *)
Theorem conversion_address_unquoted (w : World) (sources : list Source) (fuel : nat)
    (c : cmdMigrate) :
  Forall cleanConversion (snd (RunIn w sources fuel c)).
Proof.
  assert (Hrun : emits cleanConversion (Run (scripted w) sources fuel c)).
  { unfold Run. apply emits_bind; [emits_phase | intros ss].
    apply emits_bind; [| intros [statements commands]; emits_phase].
    unfold gather.
    apply emits_bind; [emits_phase | intros [statements commands]].
    apply emits_bind; [apply mangleOVS_clean | intros commands'].
    emits_phase. }
  unfold RunIn. by destruct (Hrun []) as (l & -> & HP).
Qed.
